(** * FlightTracker: the resilient data-access core

    A shallow embedding of the TypeScript and SQL sources of the flight
    tracker:

    - [isRetryableError] and the retrying wrapper built by
      [createRetryProxy] (src/types.ts, the client module that db.ts
      imports as [./supabase]);
    - [handleDbError], [dbQuery] and the [db] facade (src/lib/db.ts);
    - the [validate_flight_dates] and [cleanup_old_locks] triggers of the
      migrations (supabase/migrations);
    - [onSubmit] and [handleCancel] of the flight form
      (src/components/FlightModal.tsx), the main view and the dialogs.

    JavaScript values are modelled by the shapes the code inspects: an error
    is an object with an optional [message] and [code] and a flag telling
    whether it is a [TypeError]; [null] and [undefined] are [None].
    Timestamps are integers (microseconds, the resolution of timestamptz),
    [Date] values and delays are integers (milliseconds).  The lower-casing
    of strings belongs to the JavaScript engine and is a parameter. *)

From Stdlib Require Import ZArith List String Ascii Bool Arith Lia.
Import ListNotations.

Local Open Scope string_scope.
Local Open Scope Z_scope.
Local Open Scope list_scope.

(* ===================================================================== *)
(** ** JavaScript strings *)
(* ===================================================================== *)

Module JsString.

(** [String.prototype.includes]: [needle] occurs somewhere in [hay]. *)
Fixpoint includes (needle hay : string) : bool :=
  if String.prefix needle hay then true
  else match hay with
       | EmptyString => false
       | String _ rest => includes needle rest
       end.

(** One character of the lower-casing of an ASCII text: the letters A-Z
    move to a-z, every other character of the range is unchanged. *)
Definition lower_ascii (c : ascii) : ascii :=
  let n := nat_of_ascii c in
  if ((65 <=? n)%nat && (n <=? 90)%nat)%bool
  then ascii_of_nat (n + 32)
  else c.

Fixpoint ascii_toLowerCase (s : string) : string :=
  match s with
  | EmptyString => EmptyString
  | String c rest => String (lower_ascii c) (ascii_toLowerCase rest)
  end.

(** [String.prototype.toLowerCase] itself is the engine's, not the
    repository's: it follows the case mappings of Unicode (the Kelvin sign
    U+212A becomes [k], for one), which [ascii_toLowerCase] gives on a text
    of ASCII characters only.  The model takes it as a parameter. *)
Class Engine : Type := { toLowerCase : string -> string }.

(** Truthiness of a possibly absent string: [undefined] and the empty
    string are falsy. *)
Definition truthy (s : option string) : bool :=
  match s with
  | None => false
  | Some s => negb (String.eqb s EmptyString)
  end.

(** [xs.some(p)] *)
Definition some {A} (p : A -> bool) (xs : list A) : bool := existsb p xs.

(** [xs.includes(x)] on an array of strings *)
Definition array_includes (xs : list string) (x : string) : bool :=
  existsb (String.eqb x) xs.

End JsString.

(* ===================================================================== *)
(** ** Error values and the error classifier (src/types.ts) *)
(* ===================================================================== *)

(** An error object as the code looks at it: [error instanceof TypeError],
    [error.message], [error.code]. *)
Record JsError : Type := mkError {
  isTypeError : bool;
  message : option string;
  code : option string
}.

(** [new Error(msg)] *)
Definition newError (msg : string) : JsError :=
  {| isTypeError := false; message := Some msg; code := None |}.

Module Classifier.
Import JsString.

Definition retryableMessages : list string :=
  [ "network error"; "timeout"; "connection refused"; "socket hang up";
    "econnrefused"; "etimedout"; "failed to fetch" ].

Definition retryableCodes : list string :=
  [ "PGRST301"; "503"; "504"; "408"; "429" ].

(** [isRetryableError(error)]; [onLine] is the value of
    [navigator.onLine] when the classifier runs.  The JavaScript function
    returns a truthy or falsy value, read here as a boolean. *)
Definition isRetryableError {JS : Engine} (onLine : bool) (error : option JsError)
  : bool :=
  match error with
  | None => false
  | Some e =>
      if (isTypeError e || negb onLine)%bool then true
      else if
        match message e with
        | Some m =>
            (truthy (Some m) &&
             some (fun msg => includes msg (toLowerCase m)) retryableMessages)%bool
        | None => false
        end
      then true
      else
        match code e with
        | Some c => (truthy (Some c) && array_includes retryableCodes c)%bool
        | None => false
        end
  end.

(** What the classifier needs of the engine for a message in which one of
    its phrases occurs: the phrases are lower-case ASCII letters and
    blanks, which [toLowerCase] maps to themselves wherever they stand, so
    a phrase that occurs in a text occurs in its lower-cased form. *)
Definition keeps_phrases (JS : Engine) : Prop :=
  forall n m, In n retryableMessages ->
              includes n m = true -> includes n (toLowerCase m) = true.

End Classifier.

(* ===================================================================== *)
(** ** Completions of asynchronous code *)
(* ===================================================================== *)

(** How an awaited promise (or an [async] function) completes: it fulfils
    with a value, it rejects with a thrown error, or it never settles. *)
Inductive Completion (A : Type) : Type :=
| Normal (a : A)
| Throw (e : JsError)
| Never.

Arguments Normal {A} a.
Arguments Throw {A} e.
Arguments Never {A}.

(** [await c; k] *)
Definition bind {A B} (c : Completion A) (k : A -> Completion B) : Completion B :=
  match c with
  | Normal a => k a
  | Throw e => Throw e
  | Never => Never
  end.

(** [try { body } catch (err) { handler }] *)
Definition try_catch {A} (body : Completion A) (handler : JsError -> Completion A)
  : Completion A :=
  match body with
  | Throw e => handler e
  | other => other
  end.

Declare Scope js_scope.
Delimit Scope js_scope with js.
Notation "x <- c ;; k" := (bind c (fun x => k))
  (at level 61, c at next level, right associativity) : js_scope.

(** The [{data, error}] objects: a query of the client resolves to one whose
    error is an error object, the facade returns one whose error is a
    message. *)
Record Result (D E : Type) : Type := mkResult {
  data : option D;
  error : option E
}.

Arguments mkResult {D E} data error.
Arguments data {D E} r.
Arguments error {D E} r.

Abbreviation QueryResult D := (Result D JsError).
Abbreviation DbResult D := (Result D string).

(** An asynchronous operation against a world [W] (the backend and the
    network): it completes and leaves a new world. *)
Definition Async (W A : Type) : Type := W -> Completion A * W.

(* ===================================================================== *)
(** ** The backoff retrier (src/types.ts, createRetryProxy) *)
(* ===================================================================== *)

Module Retrier.
Import JsString Classifier.

Definition MAX_RETRIES : nat := 3.
Definition INITIAL_RETRY_DELAY : Z := 1000.
Definition MAX_RETRY_DELAY : Z := 5000.

(** [Math.min(INITIAL_RETRY_DELAY * Math.pow(2, attempt), MAX_RETRY_DELAY)] *)
Definition retry_delay (attempt : nat) : Z :=
  Z.min (INITIAL_RETRY_DELAY * 2 ^ Z.of_nat attempt) MAX_RETRY_DELAY.

(** What one pass of the loop sees of [navigator.onLine]. *)
Record Connectivity : Type := mkConn {
  onLine_before : bool;  (** read before the query is executed *)
  comes_online : bool;   (** the 'online' event fires while the pass waits *)
  onLine_after : bool    (** read when the failure is classified *)
}.

(** What the wrapped function does that an observer can see. *)
Inductive Event : Type :=
| AwaitOnline
| Execute (attempt : nat)
| Wait (ms : Z).

(** The formatted error built after the loop. *)
Definition errorMessage (lastError : option JsError) : string :=
  match lastError with
  | Some e =>
      match message e with
      | Some m => if truthy (Some m) then m else "An unknown error occurred"
      | None => "An unknown error occurred"
      end
  | None => "An unknown error occurred"
  end.

Definition formattedError (lastError : option JsError) : JsError :=
  newError ("Database operation failed: " ++ errorMessage lastError ++
            ". Please check your connection and try again.")%string.

Section Wrapped.
Context {JS : Engine} {S D : Type}.

(** [await originalProp.apply(target, args)]: one execution of the
    wrapped operation against the backend state.  It resolves to a
    [{data, error}] object, it throws, or it never settles; a value without
    an [error] property to read makes [result.error] throw a TypeError, and
    is the completion [Throw] of that TypeError. *)
Variable op : S -> Completion (QueryResult D) * S.

(** Connectivity seen by the pass that runs with a given [attempt]. *)
Variable net : nat -> Connectivity.

Record Run : Type := mkRun {
  settled : Completion (QueryResult D);
  final : S;
  trace : list Event
}.

(** The body of [try]: what is returned, or what reaches [catch]. *)
Definition try_body (onLine : bool) (c : Completion (QueryResult D))
  : Completion (QueryResult D) :=
  (result <- c ;;
   match error result with
   | Some e =>
       if isRetryableError onLine (Some e) then Throw e
       else Normal result
   | None => Normal result
   end)%js.

(** After the loop: the failure object the caller receives. *)
Definition after_loop (lastError : option JsError) : QueryResult D :=
  mkResult None (Some (formattedError lastError)).

(** How one pass of the loop ends: the function returns, the loop goes
    on with [attempt + 1], or the loop is left by [break]. *)
Inductive Pass : Type :=
| Return (run : Run)
| Continue (lastError : option JsError) (st : S) (tr : list Event)
| Break (lastError : option JsError) (st : S) (tr : list Event).

(** The trace of a pass once it may execute: it has waited for the
    'online' event when the device was offline. *)
Definition entry (attempt : nat) (tr : list Event) : list Event :=
  if onLine_before (net attempt) then tr else tr ++ [AwaitOnline].

(** The body of the [while] loop. *)
Definition pass (attempt : nat) (st : S) (tr : list Event) : Pass :=
  let c := net attempt in
  if (negb (onLine_before c) && negb (comes_online c))%bool then
    Return (mkRun Never st (tr ++ [AwaitOnline]))
  else
    let tr := entry attempt tr in
    let (out, st') := op st in
    let tr := tr ++ [Execute attempt] in
    match try_body (onLine_after c) out with
    | Normal result => Return (mkRun (Normal result) st' tr)
    | Never => Return (mkRun Never st' tr)
    | Throw err =>
        if ((attempt <? MAX_RETRIES - 1)%nat &&
            isRetryableError (onLine_after c) (Some err))%bool
        then Continue (Some err) st' (tr ++ [Wait (retry_delay attempt)])
        else Break (Some err) st' tr
    end.

(** The [while (attempt < MAX_RETRIES)] loop and what follows it.
    [fuel] bounds the number of passes; [None] means the bound was too
    small. *)
Fixpoint retry_loop (fuel attempt : nat) (lastError : option JsError)
         (st : S) (tr : list Event) : option Run :=
  match fuel with
  | O => None
  | Datatypes.S fuel' =>
      if (attempt <? MAX_RETRIES)%nat then
        match pass attempt st tr with
        | Return run => Some run
        | Continue lastError st' tr' =>
            retry_loop fuel' (Datatypes.S attempt) lastError st' tr'
        | Break lastError st' tr' =>
            Some (mkRun (Normal (after_loop lastError)) st' tr')
        end
      else Some (mkRun (Normal (after_loop lastError)) st tr)
  end.

(** The proxied function.  [MAX_RETRIES + 1] passes of fuel are enough
    (lemma [wrapped_fuel] below), so the last branch is never taken. *)
Definition wrapped (st : S) : Run :=
  match retry_loop (Datatypes.S MAX_RETRIES) 0 None st [] with
  | Some run => run
  | None => mkRun Never st []
  end.

(** The proxied call as an asynchronous operation. *)
Definition proxied : Async S (QueryResult D) :=
  fun st => let run := wrapped st in (settled run, final run).

(** The error an execution fails with: thrown, or in the result. *)
Definition failure (out : Completion (QueryResult D)) : option JsError :=
  match out with
  | Throw e => Some e
  | Normal r => error r
  | Never => None
  end.

(** The pass gets to execute the operation: the device is online, or
    comes back online while the pass waits. *)
Definition reaches (c : Connectivity) : bool :=
  (onLine_before c || comes_online c)%bool.

(** An execution fails with an error the classifier finds retryable,
    or with one it finds terminal. *)
Definition fails_retryably (c : Connectivity)
           (out : Completion (QueryResult D)) : bool :=
  match failure out with
  | Some e => isRetryableError (onLine_after c) (Some e)
  | None => false
  end.

Definition fails_terminally (c : Connectivity)
           (out : Completion (QueryResult D)) : bool :=
  match failure out with
  | Some e => negb (isRetryableError (onLine_after c) (Some e))
  | None => false
  end.

End Wrapped.

Arguments Run S D : clear implicits.
Arguments Pass S D : clear implicits.

(** Observations on a trace: the number of executions of the operation,
    and the delays waited, in order. *)
Fixpoint executions (tr : list Event) : nat :=
  match tr with
  | [] => 0
  | Execute _ :: rest => Datatypes.S (executions rest)
  | _ :: rest => executions rest
  end.

Fixpoint delays (tr : list Event) : list Z :=
  match tr with
  | [] => []
  | Wait ms :: rest => ms :: delays rest
  | _ :: rest => delays rest
  end.

End Retrier.

(* ===================================================================== *)
(** ** The resource access facade (src/lib/db.ts) *)
(* ===================================================================== *)

Module Facade.
Import JsString.

(** [handleDbError(error)]: the user-facing message and the details. *)
Definition handleDbError (error : option JsError) : string * option JsError :=
  let message :=
    match error with
    | Some e =>
        match message e with
        | Some m =>
            if truthy (Some m) then
              if includes "dates overlap" m then
                "This flight overlaps with another flight for the same aircraft."
              else if includes "not found" m then
                "The requested record was not found."
              else if includes "permission denied" m then
                "You do not have permission to perform this action."
              else if includes "network" m then
                "Unable to connect to the database. Please check your internet connection."
              else "An error occurred while accessing the database."
            else "An error occurred while accessing the database."
        | None => "An error occurred while accessing the database."
        end
    | None => "An error occurred while accessing the database."
    end in
  (message, error).

(** [dbQuery(query)]: awaits the query and normalises what it gives. *)
Definition dbQuery {T} (query : Completion (QueryResult T))
  : Completion (DbResult T) :=
  try_catch
    (r <- query ;;
     match error r with
     | Some e =>
         let (message, _) := handleDbError (Some e) in
         Normal (mkResult None (Some message))
     | None => Normal (mkResult (data r) None)
     end)%js
    (fun err =>
       let (message, _) := handleDbError (Some err) in
       Normal (mkResult None (Some message))).

Section Db.
(** The world the client talks to, and the rows and inputs of the
    entities; the facade only forwards them, except for [company.id]. *)
Context {W : Type}.
Context {Flight FlightInput FlightPatch : Type}.
Context {Company CompanyInput CompanyPatch : Type}.
Context {FlightTask TaskInput TaskPatch : Type}.
Context {CompanyTail AuditInput AuditLog : Type}.
Variable company_id : Company -> string.

(** The query-builder chains that db.ts sends, indexed by what their
    [data] holds. *)
Inductive Query : Type -> Type :=
| flights_select_order : Query (list Flight)
| flights_select_eq_single (id : string) : Query Flight
| flights_insert_select_single (flight : FlightInput) : Query Flight
| flights_update_eq_select_single (id : string) (flight : FlightPatch) : Query Flight
| flights_delete_eq (id : string) : Query unit
| companies_select_order : Query (list Company)
| companies_select_eq_id_single (id : string) : Query Company
| companies_select_eq_name_single (name : string) : Query Company
| companies_insert_select_single (company : CompanyInput) : Query Company
| companies_update_eq_select_single (id : string) (company : CompanyPatch) : Query Company
| flight_tasks_select_eq_order (flightId : string) : Query (list FlightTask)
| flight_tasks_insert_select_single (task : TaskInput) : Query FlightTask
| flight_tasks_update_eq_select_single (id : string) (task : TaskPatch) : Query FlightTask
| flight_tasks_delete_eq (id : string) : Query unit
| company_tails_select_eq (companyId : string) : Query (list CompanyTail)
| company_tails_insert_select_single (companyId tailNumber : string) : Query CompanyTail
| company_tails_delete_eq_eq (companyId tailNumber : string) : Query unit
| audit_logs_insert_select (data : AuditInput) : Query (list AuditLog).

(** What awaiting each chain gives.  This is [db] with the chain taken as
    the one awaitable it is written to be; how the chain itself evaluates
    through the retrying proxy is in [Chain] below. *)
Variable supabase : forall T, Query T -> Async W (QueryResult T).

(** [dbQuery(<chain>)] *)
Definition query {T} (q : Query T) : Async W (DbResult T) :=
  fun w => let (c, w') := supabase T q w in (dbQuery c, w').

Definition flights_getAll := query flights_select_order.
Definition flights_getById id := query (flights_select_eq_single id).
Definition flights_create flight := query (flights_insert_select_single flight).
Definition flights_update id flight := query (flights_update_eq_select_single id flight).
Definition flights_delete id := query (flights_delete_eq id).

Definition companies_getAll := query companies_select_order.
Definition companies_getById id := query (companies_select_eq_id_single id).
Definition companies_create company := query (companies_insert_select_single company).
Definition companies_update id company := query (companies_update_eq_select_single id company).

Definition tasks_getByFlight flightId := query (flight_tasks_select_eq_order flightId).
Definition tasks_create task := query (flight_tasks_insert_select_single task).
Definition tasks_update id task := query (flight_tasks_update_eq_select_single id task).
Definition tasks_delete id := query (flight_tasks_delete_eq id).

(** [db.companyTails.getByCompany(companyName)] *)
Definition companyTails_getByCompany (companyName : string)
  : Async W (DbResult (list CompanyTail)) :=
  fun w =>
    let (c, w1) := query (companies_select_eq_name_single companyName) w in
    match c with
    | Normal r =>
        match data r with
        | None => (Normal (mkResult (Some []) None), w1)
        | Some company => query (company_tails_select_eq (company_id company)) w1
        end
    | Throw e => (Throw e, w1)
    | Never => (Never, w1)
    end.

Definition companyTails_create companyId tailNumber :=
  query (company_tails_insert_select_single companyId tailNumber).
Definition companyTails_delete companyId tailNumber :=
  query (company_tails_delete_eq_eq companyId tailNumber).

Definition auditLogs_create data := query (audit_logs_insert_select data).

(** The operations of the entity groups of [db]. *)
Inductive Operation : Type -> Type :=
| op_flights_getAll : Operation (list Flight)
| op_flights_getById (id : string) : Operation Flight
| op_flights_create (flight : FlightInput) : Operation Flight
| op_flights_update (id : string) (flight : FlightPatch) : Operation Flight
| op_flights_delete (id : string) : Operation unit
| op_companies_getAll : Operation (list Company)
| op_companies_getById (id : string) : Operation Company
| op_companies_create (company : CompanyInput) : Operation Company
| op_companies_update (id : string) (company : CompanyPatch) : Operation Company
| op_tasks_getByFlight (flightId : string) : Operation (list FlightTask)
| op_tasks_create (task : TaskInput) : Operation FlightTask
| op_tasks_update (id : string) (task : TaskPatch) : Operation FlightTask
| op_tasks_delete (id : string) : Operation unit
| op_companyTails_getByCompany (companyName : string) : Operation (list CompanyTail)
| op_companyTails_create (companyId tailNumber : string) : Operation CompanyTail
| op_companyTails_delete (companyId tailNumber : string) : Operation unit
| op_auditLogs_create (data : AuditInput) : Operation (list AuditLog).

Definition perform {T} (o : Operation T) : Async W (DbResult T) :=
  match o in Operation T return Async W (DbResult T) with
  | op_flights_getAll => flights_getAll
  | op_flights_getById id => flights_getById id
  | op_flights_create flight => flights_create flight
  | op_flights_update id flight => flights_update id flight
  | op_flights_delete id => flights_delete id
  | op_companies_getAll => companies_getAll
  | op_companies_getById id => companies_getById id
  | op_companies_create company => companies_create company
  | op_companies_update id company => companies_update id company
  | op_tasks_getByFlight flightId => tasks_getByFlight flightId
  | op_tasks_create task => tasks_create task
  | op_tasks_update id task => tasks_update id task
  | op_tasks_delete id => tasks_delete id
  | op_companyTails_getByCompany companyName => companyTails_getByCompany companyName
  | op_companyTails_create companyId tailNumber => companyTails_create companyId tailNumber
  | op_companyTails_delete companyId tailNumber => companyTails_delete companyId tailNumber
  | op_auditLogs_create data => auditLogs_create data
  end.

End Db.

End Facade.

(* ===================================================================== *)
(** ** The tables and triggers of the migrations *)
(* ===================================================================== *)

Definition uuid := string.

(** A [timestamptz], in microseconds. *)
Definition timestamptz := Z.

(** JavaScript dates. *)
Module JsDate.

(** [new Date(s).getTime()] for the text [s] of the instant [t]: a [Date]
    counts milliseconds since the epoch, and what the text holds beyond
    them is dropped. *)
Definition getTime (t : timestamptz) : Z := t / 1000.

End JsDate.

(** The row of [flights] (and the [Flight] of types.ts). *)
Module Flight.
Record t : Type := mk {
  id : uuid;
  tail_number : string;
  start_date : timestamptz;
  end_date : timestamptz;
  start_airport : string;
  end_airport : string;
  notes : string;
  company : string;
  status : string;
  created_at : timestamptz;
  created_by : uuid;
  updated_at : timestamptz
}.
End Flight.

(** What the flight form submits: the form fields, [created_by] and
    [status] (the [flightData] of [onSubmit]). *)
Module FlightData.
Record t : Type := mk {
  company : string;
  tail_number : string;
  start_date : timestamptz;
  end_date : timestamptz;
  start_airport : string;
  end_airport : string;
  notes : string;
  created_by : uuid;
  status : string
}.
End FlightData.

(** The [changes] payload of an audit entry. *)
Module Changes.
Record t : Type := mk {
  previous : option Flight.t;
  new : FlightData.t + Flight.t
}.
End Changes.

(** What the client inserts into [audit_logs]. *)
Module AuditInput.
Record t : Type := mk {
  flight_id : uuid;
  user_id : uuid;
  action : string;
  changes : Changes.t
}.
End AuditInput.

(** The row of [audit_logs]. *)
Module AuditLog.
Record t : Type := mk {
  id : uuid;
  flight_id : uuid;
  user_id : uuid;
  action : string;
  changes : Changes.t;
  created_at : timestamptz
}.
End AuditLog.

(** The row of [flight_locks]; [locked_at] has a default but may be NULL. *)
Module FlightLock.
Record t : Type := mk {
  flight_id : uuid;
  user_id : uuid;
  user_email : string;
  locked_at : option timestamptz
}.
End FlightLock.

Module Sql.

(** An error as PostgREST reports it to the client. *)
Definition pg_error (sqlstate msg : string) : JsError :=
  {| isTypeError := false; message := Some msg; code := Some sqlstate |}.

(** [(s1, e1) OVERLAPS (s2, e2)] on non-null timestamps, as PostgreSQL
    defines it: the endpoints of each pair are put in order, a pair is the
    half-open period [start <= t < end], or the single instant [start]
    when both ends are equal. *)
Definition overlaps (s1 e1 s2 e2 : timestamptz) : bool :=
  let (ts1, te1) := if e1 <? s1 then (e1, s1) else (s1, e1) in
  let (ts2, te2) := if e2 <? s2 then (e2, s2) else (s2, e2) in
  if ts2 <? ts1 then ts1 <? te2
  else if ts1 <? ts2 then ts2 <? te1
  else true.

(** The row that makes [validate_flight_dates] raise for [NEW]. *)
Definition conflicts (NEW r : Flight.t) : bool :=
  (String.eqb (Flight.tail_number r) (Flight.tail_number NEW) &&
   negb (String.eqb (Flight.id r) (Flight.id NEW)) &&
   String.eqb (Flight.status r) "active" &&
   overlaps (Flight.start_date NEW) (Flight.end_date NEW)
            (Flight.start_date r) (Flight.end_date r))%bool.

(** [validate_flight_dates()], the BEFORE INSERT OR UPDATE row trigger of
    [flights]: it raises, or returns [NEW]. *)
Definition validate_flight_dates (flights : list Flight.t) (NEW : Flight.t)
  : JsError + Flight.t :=
  if existsb (conflicts NEW) flights then
    inl (pg_error "P0001"
           ("Flight dates overlap with existing flight for tail number " ++
            Flight.tail_number NEW)%string)
  else inr NEW.

(** [set_updated_at()], the BEFORE UPDATE row trigger. *)
Definition set_updated_at (now : timestamptz) (NEW : Flight.t) : Flight.t :=
  Flight.mk (Flight.id NEW) (Flight.tail_number NEW) (Flight.start_date NEW)
            (Flight.end_date NEW) (Flight.start_airport NEW)
            (Flight.end_airport NEW) (Flight.notes NEW) (Flight.company NEW)
            (Flight.status NEW) (Flight.created_at NEW) (Flight.created_by NEW)
            now.

(** The CHECK constraints of [flights]. *)
Definition flights_dates_check (r : Flight.t) : bool :=
  Flight.start_date r <=? Flight.end_date r.

Definition flights_airports_check (r : Flight.t) : bool :=
  negb (String.eqb (Flight.start_airport r) (Flight.end_airport r)).

Definition flights_status_check (r : Flight.t) : bool :=
  (String.eqb (Flight.status r) "active" ||
   String.eqb (Flight.status r) "cancelled")%bool.

Definition check_violation (constraint : string) : JsError :=
  pg_error "23514" ("new row for relation flights violates check constraint " ++
                    constraint)%string.

Definition flights_checks (r : Flight.t) : JsError + Flight.t :=
  if negb (flights_dates_check r) then inl (check_violation "flights_dates_check")
  else if negb (flights_airports_check r) then inl (check_violation "flights_airports_check")
  else if negb (flights_status_check r) then inl (check_violation "flights_status_check")
  else inr r.

(** The primary key of [flights]. *)
Definition flights_pkey (flights : list Flight.t) (r : Flight.t) : JsError + Flight.t :=
  if existsb (fun r' => String.eqb (Flight.id r') (Flight.id r)) flights then
    inl (pg_error "23505" "duplicate key value violates unique constraint flights_pkey")
  else inr r.

(** The database: the tables the claims are about. *)
Record Db : Type := mkDb {
  flights : list Flight.t;
  audit_logs : list AuditLog.t;
  flight_locks : list FlightLock.t
}.

(** The row an INSERT builds from the submitted data: [id] and the
    timestamps come from the column defaults. *)
Definition new_flight (id : uuid) (now : timestamptz) (d : FlightData.t) : Flight.t :=
  Flight.mk id (FlightData.tail_number d) (FlightData.start_date d)
            (FlightData.end_date d) (FlightData.start_airport d)
            (FlightData.end_airport d) (FlightData.notes d)
            (FlightData.company d) (FlightData.status d) now
            (FlightData.created_by d) now.

(** The row an UPDATE builds from the old row and the submitted data. *)
Definition updated_flight (old : Flight.t) (d : FlightData.t) : Flight.t :=
  Flight.mk (Flight.id old) (FlightData.tail_number d) (FlightData.start_date d)
            (FlightData.end_date d) (FlightData.start_airport d)
            (FlightData.end_airport d) (FlightData.notes d)
            (FlightData.company d) (FlightData.status d) (Flight.created_at old)
            (FlightData.created_by d) (Flight.updated_at old).

(** [UPDATE flights SET status = s] on one row. *)
Definition with_status (old : Flight.t) (s : string) : Flight.t :=
  Flight.mk (Flight.id old) (Flight.tail_number old) (Flight.start_date old)
            (Flight.end_date old) (Flight.start_airport old)
            (Flight.end_airport old) (Flight.notes old) (Flight.company old)
            s (Flight.created_at old) (Flight.created_by old)
            (Flight.updated_at old).

(** [INSERT INTO flights] by a signed-in user who submits the user's own id
    as [created_by], as the form does ([created_by: user.id]): the WITH
    CHECK of the INSERT policy ([auth.uid() = created_by]) and the foreign
    key of [created_by] to [auth.users] hold of such a row, and are left
    out.  There remain the row trigger, then the CHECK constraints and the
    primary key. *)
Definition insert_flight (id : uuid) (now : timestamptz) (d : FlightData.t)
           (db : Db) : JsError + (Flight.t * Db) :=
  match validate_flight_dates (flights db) (new_flight id now d) with
  | inl e => inl e
  | inr NEW =>
      match flights_checks NEW with
      | inl e => inl e
      | inr NEW =>
          match flights_pkey (flights db) NEW with
          | inl e => inl e
          | inr NEW =>
              inr (NEW, mkDb (flights db ++ [NEW]) (audit_logs db) (flight_locks db))
          end
      end
  end.

Fixpoint find_flight (id : uuid) (fs : list Flight.t) : option Flight.t :=
  match fs with
  | [] => None
  | r :: rest => if String.eqb (Flight.id r) id then Some r else find_flight id rest
  end.

Fixpoint replace_flight (NEW : Flight.t) (fs : list Flight.t) : list Flight.t :=
  match fs with
  | [] => []
  | r :: rest =>
      if String.eqb (Flight.id r) (Flight.id NEW) then NEW :: rest
      else r :: replace_flight NEW rest
  end.

(** The SET lists of the two UPDATE statements the client sends: the
    submitted form, or the status alone (cancellation). *)
Inductive Assignment : Type :=
| set_data (d : FlightData.t)
| set_status (s : string).

Definition assign (a : Assignment) (old : Flight.t) : Flight.t :=
  match a with
  | set_data d => updated_flight old d
  | set_status s => with_status old s
  end.

(** [UPDATE flights SET ... WHERE id = id]: on the row found, the row
    triggers then the constraints; no row found is no error. *)
Definition update_flight (id : uuid) (now : timestamptz)
           (a : Assignment) (db : Db)
  : JsError + (option Flight.t * Db) :=
  match find_flight id (flights db) with
  | None => inr (None, db)
  | Some old =>
      match validate_flight_dates (flights db) (set_updated_at now (assign a old)) with
      | inl e => inl e
      | inr NEW =>
          match flights_checks NEW with
          | inl e => inl e
          | inr NEW =>
              inr (Some NEW,
                   mkDb (replace_flight NEW (flights db)) (audit_logs db)
                        (flight_locks db))
          end
      end
  end.

(** [UPDATE flights SET ...] without WHERE: the rows one after the other,
    each through the row triggers, which see the rows already updated; the
    first exception aborts the statement. *)
Fixpoint update_each (ids : list uuid) (now : timestamptz) (a : Assignment)
         (db : Db) : JsError + Db :=
  match ids with
  | [] => inr db
  | id :: rest =>
      match update_flight id now a db with
      | inl e => inl e
      | inr (_, db') => update_each rest now a db'
      end
  end.

Definition update_flights (now : timestamptz) (a : Assignment) (db : Db)
  : JsError + Db :=
  update_each (map Flight.id (flights db)) now a db.

(** [DELETE FROM flights] without WHERE, with the cascades. *)
Definition delete_flights (db : Db) : Db := mkDb [] [] [].

(** [DELETE FROM flights WHERE id = id], with the ON DELETE CASCADE of
    [audit_logs] and [flight_locks]. *)
Definition delete_flight (id : uuid) (db : Db) : Db :=
  mkDb (filter (fun r => negb (String.eqb (Flight.id r) id)) (flights db))
       (filter (fun a => negb (String.eqb (AuditLog.flight_id a) id)) (audit_logs db))
       (filter (fun l => negb (String.eqb (FlightLock.flight_id l) id)) (flight_locks db)).

(** [INSERT INTO audit_logs]: the foreign key to [flights], then the row
    with its defaults. *)
Definition insert_audit_log (id : uuid) (now : timestamptz)
           (a : AuditInput.t) (db : Db) : JsError + (AuditLog.t * Db) :=
  match find_flight (AuditInput.flight_id a) (flights db) with
  | None =>
      inl (pg_error "23503"
             "insert or update on table audit_logs violates foreign key constraint audit_logs_flight_id_fkey")
  | Some _ =>
      let row := AuditLog.mk id (AuditInput.flight_id a) (AuditInput.user_id a)
                             (AuditInput.action a) (AuditInput.changes a) now in
      inr (row, mkDb (flights db) (audit_logs db ++ [row]) (flight_locks db))
  end.

(** [interval '15 minutes'] *)
Definition fifteen_minutes : Z := 15 * 60 * 1000000.

(** [locked_at < now() - interval '15 minutes']; NULL compares to NULL,
    which a WHERE clause does not accept. *)
Definition stale (now : timestamptz) (l : FlightLock.t) : bool :=
  match FlightLock.locked_at l with
  | Some t => t <? now - fifteen_minutes
  | None => false
  end.

(** Who runs a statement: a signed-in user (the role [authenticated], on
    which the policies bear, with the [auth.uid()] of the user), or a role
    that row-level security does not bind (the owner of the tables, the
    service role). *)
Inductive Role : Type :=
| authenticated (uid : uuid)
| bypassrls.

(** The policy "Users can manage their own locks" of [flight_locks],
    [FOR ALL TO authenticated USING (auth.uid() = user_id)]: the rows a
    role may update or delete. *)
Definition manages (role : Role) (l : FlightLock.t) : bool :=
  match role with
  | authenticated uid => String.eqb uid (FlightLock.user_id l)
  | bypassrls => true
  end.

(** [cleanup_old_locks()], run by [role].  The function is not SECURITY
    DEFINER: its DELETE runs with the rights of the caller, and reaches
    the rows the policy lets the caller delete. *)
Definition cleanup_old_locks (role : Role) (now : timestamptz)
           (locks : list FlightLock.t) : list FlightLock.t :=
  filter (fun l => negb (stale now l && manages role l)) locks.

(** [cleanup_locks_trigger]: after an INSERT or UPDATE on [flight_locks]
    the cleanup runs on the table the statement left, as the role whose
    statement fired the trigger. *)
Definition trigger_cleanup_old_locks (role : Role) (now : timestamptz) (db : Db)
  : Db :=
  mkDb (flights db) (audit_logs db) (cleanup_old_locks role now (flight_locks db)).

(** [INSERT INTO flight_locks] by the signed-in user [uid]: the WITH CHECK
    [auth.uid() = user_id] of the policy, the primary key on [flight_id],
    the foreign key to [flights], then the statement trigger.  (The
    foreign key of [user_id] to [auth.users] holds of the id of a signed-in
    user, which the policy makes [user_id] be.) *)
Definition insert_flight_lock (uid : uuid) (now : timestamptz) (l : FlightLock.t)
           (db : Db) : JsError + Db :=
  if negb (String.eqb uid (FlightLock.user_id l)) then
    inl (pg_error "42501"
           "new row violates row-level security policy for table flight_locks")
  else if existsb (fun l' => String.eqb (FlightLock.flight_id l')
                                        (FlightLock.flight_id l))
                  (flight_locks db)
  then inl (pg_error "23505" "duplicate key value violates unique constraint flight_locks_pkey")
  else
    match find_flight (FlightLock.flight_id l) (flights db) with
    | None =>
        inl (pg_error "23503"
               "insert or update on table flight_locks violates foreign key constraint flight_locks_flight_id_fkey")
    | Some _ =>
        inr (trigger_cleanup_old_locks (authenticated uid) now
               (mkDb (flights db) (audit_logs db) (flight_locks db ++ [l])))
    end.

End Sql.

(* ===================================================================== *)
(** ** The client against the backend *)
(* ===================================================================== *)

Module Client.

(** How a request can fail on the way. *)
Inductive Failure : Type :=
| error_result (e : JsError)   (** the client resolves to [{data: null, error}] *)
| thrown (e : JsError)         (** the call throws *)
| hang.                        (** the call never settles *)

Inductive Fault : Type :=
| no_fault
| request_lost (f : Failure)   (** the statement never runs *)
| reply_lost (f : Failure).    (** the statement runs, its reply is lost *)

(** What the environment decides for one request: the fault, the value
    of [now()] and the uuid [gen_random_uuid()] gives. *)
Record Env : Type := mkEnv {
  fault : Fault;
  now : timestamptz;
  fresh : uuid
}.

(** The database, and the number of requests served so far. *)
Record World : Type := mkWorld {
  db : Sql.Db;
  served : nat
}.

Definition failure {A} (f : Failure) : Completion (QueryResult A) :=
  match f with
  | error_result e => Normal (mkResult None (Some e))
  | thrown e => Throw e
  | hang => Never
  end.

Section Requests.
Variable env : nat -> Env.

(** One request: a statement sent to the database.  [returning] is what
    the chain asks back of the row the statement gives: the row after
    [.select().single()], nothing without [.select()]. *)
Definition request {A B} (returning : A -> option B)
           (sql : uuid -> timestamptz -> Sql.Db -> JsError + (A * Sql.Db))
  : Async World (QueryResult B) :=
  fun w =>
    let e := env (served w) in
    let n := Datatypes.S (served w) in
    match fault e with
    | request_lost f => (failure f, mkWorld (db w) n)
    | no_fault =>
        match sql (fresh e) (now e) (db w) with
        | inl err => (Normal (mkResult None (Some err)), mkWorld (db w) n)
        | inr (a, db') => (Normal (mkResult (returning a) None), mkWorld db' n)
        end
    | reply_lost f =>
        match sql (fresh e) (now e) (db w) with
        | inl _ => (failure f, mkWorld (db w) n)
        | inr (_, db') => (failure f, mkWorld db' n)
        end
    end.

(** [supabase.from('flights').insert(flightData).select().single()] *)
Definition flights_insert (d : FlightData.t) : Async World (QueryResult Flight.t) :=
  request Some (fun id now => Sql.insert_flight id now d).

(** [supabase.from('audit_logs').insert(...)] *)
Definition audit_logs_insert (a : AuditInput.t) : Async World (QueryResult AuditLog.t) :=
  request (fun _ => None) (fun id now => Sql.insert_audit_log id now a).

(** [supabase.from('flights').insert(flightData)], awaited as it is: the
    row is inserted and none is asked back. *)
Definition flights_insert_only (d : FlightData.t)
  : Async World (QueryResult Flight.t) :=
  request (fun _ => None) (fun id now => Sql.insert_flight id now d).

(** [supabase.from('flights').update(values)], awaited as it is: a PATCH
    without filter, which the database of the migrations runs as the UPDATE
    of every row (the policy of [flights] lets a signed-in user update any
    flight, and nothing in the migrations refuses an UPDATE without
    WHERE). *)
Definition flights_update_unfiltered (a : Sql.Assignment)
  : Async World (QueryResult Flight.t) :=
  request (fun _ => None)
          (fun _ now db =>
             match Sql.update_flights now a db with
             | inl e => inl e
             | inr db' => inr (tt, db')
             end).

End Requests.

End Client.

(* ===================================================================== *)
(** ** Builder chains through the retrying proxy (src/types.ts, lines 131-213) *)
(* ===================================================================== *)

Module Chain.

(** The objects a chain passes through: the query builder of the SDK,
    wrapped by [createRetryProxy], and the native promise the proxied
    [async] function returns. *)
Inductive Receiver : Type :=
| ProxiedBuilder
| NativePromise.

(** [typeof target[prop] === 'function'] on a native promise, for the
    names the code writes in its chains: it has [then], [catch] and
    [finally], and none of the builder's methods.  (What every object
    inherits, [toString] and the like, no chain of the code calls.) *)
Definition promise_has (prop : string) : bool :=
  (String.eqb prop "then" || String.eqb prop "catch" ||
   String.eqb prop "finally")%bool.

(** The TypeError of a call on [undefined].  The wording of its message is
    the engine's; the model keeps the name of the property in it. *)
Definition not_a_function (prop : string) : JsError :=
  {| isTypeError := true;
     message := Some (prop ++ " is not a function")%string;
     code := None |}.

(** [typeof target[prop] === 'function'] on the query builder that
    [client.from(table)] gives, for the names the code writes in its
    chains: the methods the code starts its chains with are functions, the
    filters and modifiers that follow ([eq], [order], [single], ...) are
    methods of the builders those return, not of this one. *)
Definition builder_has (prop : string) : bool :=
  (String.eqb prop "select" || String.eqb prop "insert" ||
   String.eqb prop "upsert" || String.eqb prop "update" ||
   String.eqb prop "delete")%bool.

(** One method call of a chain, [receiver.prop(...)].  On the proxied
    builder the [get] trap returns the [async] wrapper for a method of the
    builder, and the call of the wrapper returns a native promise; what is
    not a function is returned as it is.  On a native promise a builder
    method is [undefined], and the call throws where the chain is
    written. *)
Definition call (receiver : Receiver) (prop : string) : JsError + Receiver :=
  match receiver with
  | ProxiedBuilder =>
      if builder_has prop then inr NativePromise
      else inl (not_a_function prop)
  | NativePromise =>
      if promise_has prop then inr NativePromise
      else inl (not_a_function prop)
  end.

(** The methods of a chain, called one after the other on
    [supabase.from(table)]. *)
Fixpoint evaluate (receiver : Receiver) (props : list string) : JsError + Receiver :=
  match props with
  | [] => inr receiver
  | prop :: rest =>
      match call receiver prop with
      | inl e => inl e
      | inr next => evaluate next rest
      end
  end.

(** [return dbQuery(supabase.from(table).m1(...).m2(...))] in an [async]
    method of [db]: the chain is evaluated first, outside the [try] of
    [dbQuery]; what it throws rejects the promise of the method. *)
Definition facade_method {T} (props : list string)
           (awaited : Completion (QueryResult T)) : Completion (DbResult T) :=
  match evaluate ProxiedBuilder props with
  | inl e => Throw e
  | inr _ => Facade.dbQuery awaited
  end.

(** The methods of the entity groups of [db] that are one [dbQuery]. *)
Inductive Method : Type :=
| flights_getAll | flights_getById | flights_create | flights_update
| flights_delete
| companies_getAll | companies_getById | companies_create | companies_update
| tasks_getByFlight | tasks_create | tasks_update | tasks_delete
| companyTails_create | companyTails_delete
| auditLogs_create.

(** The chain each of them writes after [supabase.from(table)]. *)
Definition chain (m : Method) : list string :=
  match m with
  | flights_getAll => ["select"; "order"]
  | flights_getById => ["select"; "eq"; "single"]
  | flights_create => ["insert"; "select"; "single"]
  | flights_update => ["update"; "eq"; "select"; "single"]
  | flights_delete => ["delete"; "eq"]
  | companies_getAll => ["select"; "order"]
  | companies_getById => ["select"; "eq"; "single"]
  | companies_create => ["insert"; "select"; "single"]
  | companies_update => ["update"; "eq"; "select"; "single"]
  | tasks_getByFlight => ["select"; "eq"; "order"]
  | tasks_create => ["insert"; "select"; "single"]
  | tasks_update => ["update"; "eq"; "select"; "single"]
  | tasks_delete => ["delete"; "eq"]
  | companyTails_create => ["insert"; "select"; "single"]
  | companyTails_delete => ["delete"; "eq"; "eq"]
  | auditLogs_create => ["insert"; "select"]
  end.

(** The method of the chain that is called on the native promise. *)
Definition second (m : Method) : string :=
  match chain m with
  | _ :: prop :: _ => prop
  | _ => EmptyString
  end.

Definition perform {T} (m : Method) (awaited : Completion (QueryResult T))
  : Completion (DbResult T) :=
  facade_method (chain m) awaited.

(** [db.companyTails.getByCompany(companyName)]: the lookup of the company
    ([select], [eq], [single]), then the tails ([select], [eq]). *)
Definition getByCompany {Company CompanyTail : Type}
           (lookup : Completion (QueryResult Company))
           (tails : Company -> Completion (QueryResult (list CompanyTail)))
  : Completion (DbResult (list CompanyTail)) :=
  (r <- facade_method ["select"; "eq"; "single"] lookup ;;
   match data r with
   | None => Normal (mkResult (Some []) None)
   | Some company => facade_method ["select"; "eq"] (tails company)
   end)%js.

(** [await supabase.from(table).m1(...).m2(...)] with what it does to the
    backend.  The proxied [m1] is an [async] function: once called it runs
    the retry loop on the request of [m1(...)] alone, whether or not
    anything awaits the promise it returned; [first] is that proxied
    request.  The rest of the chain is called on the promise.  A chain of
    the one method is awaited as it is; a chain that throws leaves the
    request of its first method behind, which is sent (and retried) all
    the same, its result dropped.  The world returned is the one that
    request leaves. *)
Definition through {W T} (props : list string) (first : Async W (QueryResult T))
  : Async W (QueryResult T) :=
  fun w =>
    match evaluate ProxiedBuilder props with
    | inr _ => first w
    | inl e =>
        match props with
        | m1 :: _ => if builder_has m1 then (Throw e, snd (first w)) else (Throw e, w)
        | [] => (Throw e, w)
        end
    end.

End Chain.

(* ===================================================================== *)
(** ** The flight form (src/components/FlightModal.tsx) *)
(* ===================================================================== *)

Module FlightModal.
Import Retrier Client.

(** The values of the form. *)
Record FormData : Type := mkForm {
  company : string;
  tail_number : string;
  start_date : timestamptz;
  end_date : timestamptz;
  start_airport : string;
  end_airport : string;
  notes : string
}.

Record User : Type := mkUser { id : uuid; email : string }.

(** What the form does that its user can see. *)
Inductive UiEvent : Type :=
| alert (msg : string)
| console_error (msg : string)
| onSuccess
| onClose.

(** [{...data, created_by: user.id, status: flight?.status || 'active'}] *)
Definition flightData (flight : option Flight.t) (user : User) (data : FormData)
  : FlightData.t :=
  FlightData.mk (company data) (tail_number data) (start_date data)
                (end_date data) (start_airport data) (end_airport data)
                (notes data) (id user)
                (match flight with
                 | Some f => if JsString.truthy (Some (Flight.status f))
                             then Flight.status f else "active"
                 | None => "active"
                 end).

(** The audit entry of the update branch. *)
Definition update_entry (flight : Flight.t) (user : User) (d : FlightData.t)
  : AuditInput.t :=
  AuditInput.mk (Flight.id flight) (id user) "update"
                (Changes.mk (Some flight) (inl d)).

(** A row of [audit_logs] that records an entry. *)
Definition records (a : AuditInput.t) (row : AuditLog.t) : Prop :=
  AuditLog.flight_id row = AuditInput.flight_id a /\
  AuditLog.user_id row = AuditInput.user_id a /\
  AuditLog.action row = AuditInput.action a /\
  AuditLog.changes row = AuditInput.changes a.

(** The audit entry of the create branch. *)
Definition create_entry (newFlight : Flight.t) (user : User) : AuditInput.t :=
  AuditInput.mk (Flight.id newFlight) (id user) "create"
                (Changes.mk None (inr newFlight)).

Definition saved : list UiEvent := [onSuccess; onClose].

(** The [catch] of [onSubmit]. *)
Definition save_failed : list UiEvent :=
  [console_error "Error saving flight:";
   alert "Error saving flight. Please try again."].

(** The [catch] of [handleCancel]. *)
Definition cancel_failed : list UiEvent :=
  [console_error "Error cancelling flight:";
   alert "Error cancelling flight. Please try again."].

Section Handlers.
Context {JS : JsString.Engine}.
Variable env : nat -> Env.

(** Connectivity during the request on [flights] and during that on
    [audit_logs]. *)
Variable net_flight net_audit : nat -> Connectivity.

(** The flight being edited ([null] for a new flight). *)
Variable flight : option Flight.t.

(** The queries of the form, through the proxy.  Of
    [.update(flightData).eq('id', flight.id)] and of
    [.update({ status: 'cancelled' }).eq('id', flight.id)] the request that
    is sent is that of [.update(...)] alone, which has no filter; of
    [.insert(flightData).select().single()] it is that of [.insert(...)]
    alone. *)
Definition update_query (d : FlightData.t) : Async World (QueryResult Flight.t) :=
  Chain.through ["update"; "eq"]
                (proxied (flights_update_unfiltered env (Sql.set_data d)) net_flight).

Definition insert_query (d : FlightData.t) : Async World (QueryResult Flight.t) :=
  Chain.through ["insert"; "select"; "single"]
                (proxied (flights_insert_only env d) net_flight).

Definition audit_query (a : AuditInput.t) : Async World (QueryResult AuditLog.t) :=
  Chain.through ["insert"] (proxied (audit_logs_insert env a) net_audit).

Definition cancel_query : Async World (QueryResult Flight.t) :=
  Chain.through ["update"; "eq"]
                (proxied (flights_update_unfiltered env (Sql.set_status "cancelled"))
                         net_flight).

(** The body of [try], once the user is known. *)
Definition save (u : User) (form : FormData) : Async World (list UiEvent) :=
  fun w =>
    let d := flightData flight u form in
    match flight with
    | Some f =>
        let (c, w1) := update_query d w in
        match c with
        | Normal r =>
            match error r with
            | Some updateError => (Throw updateError, w1)
            | None =>
                let (c2, w2) := audit_query (update_entry f u d) w1 in
                match c2 with
                | Normal _ => (Normal saved, w2)
                | Throw e => (Throw e, w2)
                | Never => (Never, w2)
                end
            end
        | Throw e => (Throw e, w1)
        | Never => (Never, w1)
        end
    | None =>
        let (c, w1) := insert_query d w in
        match c with
        | Normal r =>
            match error r with
            | Some insertError => (Throw insertError, w1)
            | None =>
                match data r with
                | Some newFlight =>
                    let (c2, w2) := audit_query (create_entry newFlight u) w1 in
                    match c2 with
                    | Normal _ => (Normal saved, w2)
                    | Throw e => (Throw e, w2)
                    | Never => (Never, w2)
                    end
                | None => (Normal saved, w1)
                end
            end
        | Throw e => (Throw e, w1)
        | Never => (Never, w1)
        end
    end.

(** [onSubmit(data)]; [getUser] is what
    [(await supabase.auth.getUser()).data.user] gives.  The two dates are
    compared as [Date] values. *)
Definition onSubmit (getUser : Completion (option User)) (data : FormData)
  : Async World (list UiEvent) :=
  fun w =>
    if JsDate.getTime (end_date data) <? JsDate.getTime (start_date data) then
      (Normal [alert "End date cannot be before start date"], w)
    else
      match getUser with
      | Normal None => (Normal [console_error "No user found"], w)
      | Normal (Some u) =>
          let (c, w') := save u data w in
          (try_catch c (fun _ => Normal save_failed), w')
      | Throw _ => (Normal save_failed, w)
      | Never => (Never, w)
      end.

(** [handleCancel()]; [confirmed] is what [confirm(...)] answers. *)
Definition handleCancel (confirmed : bool) : Async World (list UiEvent) :=
  fun w =>
    match flight with
    | None => (Normal [], w)
    | Some _ =>
        if negb confirmed then (Normal [], w)
        else
          let (c, w') := cancel_query w in
          (try_catch
             (r <- c ;;
              match error r with
              | Some updateError => Throw updateError
              | None => Normal saved
              end)%js
             (fun _ => Normal cancel_failed),
           w')
    end.

End Handlers.

End FlightModal.

(* ===================================================================== *)
(** ** Sample inputs *)
(* ===================================================================== *)

Module Examples.
Import Retrier.

(** An engine as far as texts of ASCII characters go, which the messages
    of the samples are. *)
Definition engine : JsString.Engine :=
  {| JsString.toLowerCase := JsString.ascii_toLowerCase |}.

(** A fetch that failed, as the client reports it. *)
Definition fetch_failed : JsError :=
  mkError false (Some "TypeError: Failed to fetch") (Some EmptyString).

(** A statement the row-level security refused. *)
Definition permission_denied : JsError :=
  mkError false (Some "permission denied for table flights") (Some "42501").

(** An operation that resolves to the same error at every execution; its
    state counts the executions. *)
Definition always (e : JsError) : nat -> Completion (QueryResult unit) * nat :=
  fun n => (Normal (mkResult None (Some e)), Datatypes.S n).

(** An operation that resolves to the error [e] at its first [n]
    executions and throws [t] at every later one. *)
Definition then_throws (n : nat) (e t : JsError)
  : nat -> Completion (QueryResult unit) * nat :=
  fun k =>
    (if (k <? n)%nat then Normal (mkResult None (Some e)) else Throw t,
     Datatypes.S k).

(** An operation that throws the same error at every execution. *)
Definition always_throws (e : JsError) : nat -> Completion (QueryResult unit) * nat :=
  fun n => (Throw e, Datatypes.S n).

(** The device stays online. *)
Definition online : nat -> Connectivity := fun _ => mkConn true true true.

(** What [.single()] reports when no row, or more than one, matches. *)
Definition no_rows : JsError :=
  mkError false (Some "JSON object requested, multiple (or no) rows returned")
          (Some "PGRST116").

(** A client of which every query resolves to the same error; the world
    counts the queries. *)
Definition failing_client (e : JsError) :
  forall T, @Facade.Query Flight.t FlightData.t Sql.Assignment
                          string unit unit unit unit unit string
                          AuditInput.t AuditLog.t T ->
            Async nat (QueryResult T) :=
  fun T _ w => (Normal (mkResult None (Some e)), Datatypes.S w).

End Examples.


(* ===================================================================== *)
(** ** The overlap constraint and the histories of the database *)
(* ===================================================================== *)

Module Overlap.

(** Two windows [start, end) share an instant. *)
Definition shares_instant (s1 e1 s2 e2 : timestamptz) : Prop :=
  exists t, (s1 <= t < e1) /\ (s2 <= t < e2).

(** No two active flights of one tail number have overlapping windows. *)
Definition no_overlap (fs : list Flight.t) : Prop :=
  forall f g,
    In f fs -> In g fs ->
    Flight.id f <> Flight.id g ->
    Flight.status f = "active" -> Flight.status g = "active" ->
    Flight.tail_number f = Flight.tail_number g ->
    ~ shares_instant (Flight.start_date f) (Flight.end_date f)
                     (Flight.start_date g) (Flight.end_date g).

(** The invariant of [flights]: the primary key and the overlap
    constraint. *)
Definition flights_ok (fs : list Flight.t) : Prop :=
  NoDup (map Flight.id fs) /\ no_overlap fs.

(** The statements the database receives. *)
Inductive Statement : Type :=
| InsertFlight (id : uuid) (now : timestamptz) (d : FlightData.t)
| UpdateFlight (id : uuid) (now : timestamptz) (a : Sql.Assignment)
| DeleteFlight (id : uuid)
| UpdateFlights (now : timestamptz) (a : Sql.Assignment)
| DeleteFlights
| InsertAuditLog (id : uuid) (now : timestamptz) (a : AuditInput.t)
| InsertFlightLock (uid : uuid) (now : timestamptz) (l : FlightLock.t).

(** A statement that raises leaves the database as it was. *)
Definition execute (db : Sql.Db) (s : Statement) : Sql.Db :=
  match s with
  | InsertFlight id now d =>
      match Sql.insert_flight id now d db with
      | inr (_, db') => db'
      | inl _ => db
      end
  | UpdateFlight id now a =>
      match Sql.update_flight id now a db with
      | inr (_, db') => db'
      | inl _ => db
      end
  | DeleteFlight id => Sql.delete_flight id db
  | UpdateFlights now a =>
      match Sql.update_flights now a db with
      | inr db' => db'
      | inl _ => db
      end
  | DeleteFlights => Sql.delete_flights db
  | InsertAuditLog id now a =>
      match Sql.insert_audit_log id now a db with
      | inr (_, db') => db'
      | inl _ => db
      end
  | InsertFlightLock uid now l =>
      match Sql.insert_flight_lock uid now l db with
      | inr db' => db'
      | inl _ => db
      end
  end.

(** The database after a history of statements, one after the other. *)
Definition history (ss : list Statement) (db : Sql.Db) : Sql.Db :=
  fold_left execute ss db.

Definition empty : Sql.Db := Sql.mkDb [] [] [].

End Overlap.


(* ===================================================================== *)
(** ** A sample backend *)
(* ===================================================================== *)

Module Samples.
Import Retrier Client.

(** A flight of N123AB from instant 100 to instant 200. *)
Definition booked : Flight.t :=
  Flight.mk "f-1" "N123AB" 100 200 "KJFK" "KLAX" EmptyString "Acme Air" "active"
            0 "u-1" 0.

(** A second flight of N123AB, from instant 150 to instant 250. *)
Definition second : FlightData.t :=
  FlightData.mk "Acme Air" "N123AB" 150 250 "KLAX" "KSFO" EmptyString "u-1" "active".

(** The form that moves the booked flight to the window 300 - 400. *)
Definition moved : FlightModal.FormData :=
  FlightModal.mkForm "Acme Air" "N123AB" 300 400 "KJFK" "KLAX" "moved".

Definition ann : FlightModal.User := FlightModal.mkUser "u-1" "ann@example.com".

(** A flight of another aircraft, and two locks: that of ann on the booked
    flight, taken at the instant 0, and that of bob on the other flight,
    taken 1000 seconds later. *)
Definition other : Flight.t :=
  Flight.mk "f-5" "N55XY" 100 200 "KBOS" "KORD" EmptyString "Acme Air" "active"
            0 "u-2" 0.

Definition ann_lock : FlightLock.t :=
  FlightLock.mk "f-1" "u-1" "ann@example.com" (Some 0).

Definition bob_lock : FlightLock.t :=
  FlightLock.mk "f-5" "u-2" "bob@example.com" (Some 1000000000).

Definition world : World := mkWorld (Sql.mkDb [booked] [] []) 0.

(** No request fails on the way. *)
Definition calm : nat -> Env := fun _ => mkEnv no_fault 1000 "f-2".

(** The first request goes through, every later fetch fails. *)
Definition cut_off : nat -> Env :=
  fun n =>
    match n with
    | O => mkEnv no_fault 1000 "f-2"
    | _ => mkEnv (request_lost (error_result Examples.fetch_failed)) 1000 "f-2"
    end.

(** A client that sends the INSERT of a flight through the retrying
    proxy to the database, and finds no row for every other query. *)
Definition client {JS : JsString.Engine} (env : nat -> Env)
           (net : nat -> Connectivity) :
  forall T, @Facade.Query Flight.t FlightData.t Sql.Assignment
                          string unit unit unit unit unit string
                          AuditInput.t AuditLog.t T ->
            Async World (QueryResult T) :=
  fun T q =>
    match q in Facade.Query T return Async World (QueryResult T) with
    | Facade.flights_insert_select_single d => proxied (flights_insert env d) net
    | _ => fun w => (Normal (mkResult None (Some Examples.no_rows)), w)
    end.

End Samples.




(* ===================================================================== *)
(** ** The clean-up of the data before the constraints
       (supabase/migrations/20250122210438_dusty_shrine.sql, lines 18-25) *)
(* ===================================================================== *)

Module Migration.





End Migration.

(* ===================================================================== *)
(** ** The tail numbers of the company dialog (CompanyModal, addTail and
       removeTail) *)
(* ===================================================================== *)

Module CompanyModal.

(** The state the two handlers touch: [tails] and [newTail]. *)
Record State : Type := mkState {
  tails : list string;
  newTail : string
}.

(** [tails.includes(x)] *)
Definition includes (tails : list string) (x : string) : bool :=
  existsb (String.eqb x) tails.

(** [addTail()] *)
Definition addTail (s : State) : State :=
  if (JsString.truthy (Some (newTail s)) && negb (includes (tails s) (newTail s)))%bool
  then mkState (tails s ++ [newTail s]) EmptyString
  else s.

(** [removeTail(tail)] *)
Definition removeTail (tail : string) (s : State) : State :=
  mkState (filter (fun t => negb (String.eqb t tail)) (tails s)) (newTail s).

End CompanyModal.

(* ===================================================================== *)
(** ** The main view (App: the second module of
       src/components/CompanyTable.tsx) *)
(* ===================================================================== *)

(** The [FlightTask] of types.ts. *)
Module FlightTask.
Record t : Type := mk {
  id : uuid;
  flight_id : uuid;
  description : string;
  completed : bool;
  created_at : timestamptz;
  created_by : uuid;
  due_date : option timestamptz
}.
End FlightTask.

Module App.

(** The filters of the view; an empty string, and an empty date, is no
    filter.  A date that is set is held as its [Date] value, in
    milliseconds. *)
Record Filters : Type := mkFilters {
  selectedCompanyFilter : string;
  selectedTailFilter : string;
  startDateFilter : option Z;
  endDateFilter : option Z
}.

(** The predicate of [flights.filter(...)]; the dates of the flight are
    compared as [new Date(...)] values. *)
Definition matches (f : Filters) (flight : Flight.t) : bool :=
  let matches := true in
  let matches :=
    if JsString.truthy (Some (selectedCompanyFilter f))
    then (matches && String.eqb (Flight.company flight) (selectedCompanyFilter f))%bool
    else matches in
  let matches :=
    if JsString.truthy (Some (selectedTailFilter f))
    then (matches && String.eqb (Flight.tail_number flight) (selectedTailFilter f))%bool
    else matches in
  let matches :=
    match startDateFilter f with
    | Some d => (matches && (d <=? JsDate.getTime (Flight.start_date flight)))%bool
    | None => matches
    end in
  let matches :=
    match endDateFilter f with
    | Some d => (matches && (JsDate.getTime (Flight.end_date flight) <=? d))%bool
    | None => matches
    end in
  matches.

Definition filteredFlights (f : Filters) (flights : list Flight.t) : list Flight.t :=
  filter (matches f) flights.

(** [getFlightStatus(flight)]: the label of the badge, [null] for none. *)
Definition getFlightStatus (tasks : list FlightTask.t) (flight : Flight.t)
  : option string :=
  if String.eqb (Flight.status flight) "cancelled" then Some "Cancelled"
  else
    let flightTasks :=
      filter (fun t => String.eqb (FlightTask.flight_id t) (Flight.id flight)) tasks in
    if (List.length flightTasks =? 0)%nat then None
    else if forallb FlightTask.completed flightTasks
         then Some "All Tasks Complete"
         else Some "Open Tasks".

(** What [fetchData] does to the state of the view. *)
Inductive ViewEvent (Company : Type) : Type :=
| SetError (msg : option string)
| SetLoadingData (b : bool)
| SetFlights (fs : list Flight.t)
| SetCompanies (cs : list Company)
| SetTasks (ts : list FlightTask.t).

Arguments SetError {Company} msg.
Arguments SetLoadingData {Company} b.
Arguments SetFlights {Company} fs.
Arguments SetCompanies {Company} cs.
Arguments SetTasks {Company} ts.

Section FetchData.
Context {Company : Type}.

(** What the three methods of [db] give when awaited; the calls of
    [db.tasks.getByFlight] are numbered in the order they are made. *)
Variable flights_getAll : Completion (DbResult (list Flight.t)).
Variable companies_getAll : Completion (DbResult (list Company)).
Variable tasks_getByFlight : nat -> uuid -> Completion (DbResult (list FlightTask.t)).

(** [data || []] *)
Definition or_empty {A} (d : option (list A)) : list A :=
  match d with Some xs => xs | None => [] end.

(** The [for ... of] loop that gathers the tasks. *)
Fixpoint fetch_tasks (n : nat) (fs : list Flight.t) (allTasks : list FlightTask.t)
  : Completion (list FlightTask.t) :=
  match fs with
  | [] => Normal allTasks
  | flight :: rest =>
      (r <- tasks_getByFlight n (Flight.id flight) ;;
       fetch_tasks (Datatypes.S n) rest
                   (match data r with
                    | Some taskData => allTasks ++ taskData
                    | None => allTasks
                    end))%js
  end.

(** The body of [try]: the state changes made, and how the body ends. *)
Definition try_block : list (ViewEvent Company) * Completion unit :=
  match flights_getAll with
  | Throw e => ([], Throw e)
  | Never => ([], Never)
  | Normal r1 =>
      if JsString.truthy (error r1) then ([SetError (error r1)], Normal tt)
      else
        let flightData := or_empty (data r1) in
        match companies_getAll with
        | Throw e => ([SetFlights flightData], Throw e)
        | Never => ([SetFlights flightData], Never)
        | Normal r2 =>
            if JsString.truthy (error r2)
            then ([SetFlights flightData; SetError (error r2)], Normal tt)
            else
              let companyData := or_empty (data r2) in
              match fetch_tasks 0 flightData [] with
              | Normal allTasks =>
                  ([SetFlights flightData; SetCompanies companyData;
                    SetTasks allTasks], Normal tt)
              | Throw e =>
                  ([SetFlights flightData; SetCompanies companyData], Throw e)
              | Never =>
                  ([SetFlights flightData; SetCompanies companyData], Never)
              end
        end
  end.

(** [fetchData()]: the state changes, and whether the call settles. *)
Definition fetchData : list (ViewEvent Company) * bool :=
  let started := [SetError None; SetLoadingData true] in
  match try_block with
  | (evs, Normal _) => (started ++ evs ++ [SetLoadingData false], true)
  | (evs, Throw err) =>
      (started ++ evs ++ [SetError (message err); SetLoadingData false], true)
  | (evs, Never) => (started ++ evs, false)
  end.

End FetchData.

(** What [supabase.auth.getSession()] resolves to. *)
Record SessionResult (Session : Type) : Type := mkSessionResult {
  session : option Session;
  session_error : option JsError
}.

Arguments mkSessionResult {Session} session session_error.
Arguments session {Session} s.
Arguments session_error {Session} s.

(** What one call of [initializeAuth] meets: whether the component is still
    mounted when the call starts, when [getSession] has settled, and when
    the timer of the retry would fire (the clean-up of the effect sets
    [mounted = false] and clears the timer); and how [getSession] settles.
    The registration [onAuthStateChange] is taken to return. *)
Record Attempt (Session : Type) : Type := mkAttempt {
  mounted_at_start : bool;
  getSession : Completion (SessionResult Session);
  mounted_after : bool;
  mounted_at_timer : bool
}.

Arguments mkAttempt {Session} mounted_at_start getSession mounted_after mounted_at_timer.
Arguments mounted_at_start {Session} a.
Arguments getSession {Session} a.
Arguments mounted_after {Session} a.
Arguments mounted_at_timer {Session} a.

(** What [initializeAuth] does that can be seen. *)
Inductive AuthEvent (Session : Type) : Type :=
| GetSession (retryCount : nat)
| SetLoading (b : bool)
| SetAuthError (msg : option string)
| SetSession (s : option Session)
| Subscribe
| ConsoleError (msg : string)
| SetTimeout (ms : Z).

Arguments GetSession {Session} retryCount.
Arguments SetLoading {Session} b.
Arguments SetAuthError {Session} msg.
Arguments SetSession {Session} s.
Arguments Subscribe {Session}.
Arguments ConsoleError {Session} msg.
Arguments SetTimeout {Session} ms.

Section InitializeAuth.
Context {Session : Type}.
Variable env : nat -> Attempt Session.

(** The [catch] of [initializeAuth]: [None] when it ends the whole, the
    delay when it sets the timer of the next call. *)
Definition on_failure (retryCount : nat) : list (AuthEvent Session) * option Z :=
  if negb (mounted_after (env retryCount)) then ([ConsoleError "Auth error:"], None)
  else if (retryCount <? 3)%nat then
    let delay := Z.min (1000 * 2 ^ Z.of_nat retryCount) 5000 in
    ([ConsoleError "Auth error:"; SetTimeout delay], Some delay)
  else
    ([ConsoleError "Auth error:"; SetLoading false; SetSession None;
      SetAuthError
        (Some "Unable to connect to authentication service. Please try again later.")],
     None).

(** [initializeAuth(retryCount)] and the calls its timers make.  [fuel]
    bounds the number of calls; [None] means the bound was too small. *)
Fixpoint initializeAuth (fuel retryCount : nat) : option (list (AuthEvent Session)) :=
  match fuel with
  | O => None
  | Datatypes.S fuel' =>
      let a := env retryCount in
      if negb (mounted_at_start a) then Some []
      else
        let started := [SetLoading true; SetAuthError None; GetSession retryCount] in
        let failed :=
          match on_failure retryCount with
          | (evs, Some _) =>
              if mounted_at_timer a then
                match initializeAuth fuel' (Datatypes.S retryCount) with
                | Some rest => Some (started ++ evs ++ rest)
                | None => None
                end
              else Some (started ++ evs)
          | (evs, None) => Some (started ++ evs)
          end in
        match getSession a with
        | Never => Some started
        | Throw _ => failed
        | Normal r =>
            match session_error r with
            | Some _ => failed
            | None =>
                if negb (mounted_after a) then Some started
                else Some (started ++
                           [SetSession (session r); SetLoading false; Subscribe])
            end
        end
  end.

End InitializeAuth.

(** Observations on the events. *)
Fixpoint attempts {Session} (evs : list (AuthEvent Session)) : nat :=
  match evs with
  | [] => 0
  | GetSession _ :: rest => Datatypes.S (attempts rest)
  | _ :: rest => attempts rest
  end.

Fixpoint timeouts {Session} (evs : list (AuthEvent Session)) : list Z :=
  match evs with
  | [] => []
  | SetTimeout ms :: rest => ms :: timeouts rest
  | _ :: rest => timeouts rest
  end.

(** [getSession] fails: it throws, or resolves to an error. *)
Definition fails {Session} (c : Completion (SessionResult Session)) : bool :=
  match c with
  | Throw _ => true
  | Normal r => match session_error r with Some _ => true | None => false end
  | Never => false
  end.

End App.

(* ===================================================================== *)
(** ** More sample data *)
(* ===================================================================== *)

Module Cases.
Import Retrier.

(** The device is offline and stays so. *)
Definition offline : nat -> Connectivity := fun _ => mkConn false false false.

(** An operation that resolves to the error [e] at its first [n]
    executions and to a row afterwards; its state counts the executions. *)
Definition recovers (n : nat) (e : JsError) : nat -> Completion (QueryResult unit) * nat :=
  fun k =>
    (if (k <? n)%nat then Normal (mkResult None (Some e))
     else Normal (mkResult (Some tt) None),
     Datatypes.S k).

End Cases.

(* ===================================================================== *)
(** ** The integrity of the stored rows *)
(* ===================================================================== *)

Module Integrity.

(** A row of [flights] satisfies the three CHECK constraints. *)
Definition checked (r : Flight.t) : Prop :=
  Sql.flights_dates_check r = true /\
  Sql.flights_airports_check r = true /\
  Sql.flights_status_check r = true.

(** Every row of [audit_logs] refers to a row of [flights]. *)
Definition audit_refs (db : Sql.Db) : Prop :=
  forall a, In a (Sql.audit_logs db) ->
            In (AuditLog.flight_id a) (map Flight.id (Sql.flights db)).

End Integrity.

Module AuthCases.

(** The session service throws at every call; the view stays mounted. *)
Definition auth_down : nat -> App.Attempt unit :=
  fun _ => App.mkAttempt true (Throw Examples.fetch_failed) true true.

(** Two tasks of the booked flight, one of them done, and a task of
    another flight. *)
Definition tasks : list FlightTask.t :=
  [FlightTask.mk "t-1" "f-1" "Fuel" true 0 "u-1" None;
   FlightTask.mk "t-2" "f-1" "Catering" false 0 "u-1" None;
   FlightTask.mk "t-3" "f-8" "Crew" true 0 "u-1" None].

End AuthCases.

(* ===================================================================== *)
(** ** The table of the companies (src/components/CompanyTable.tsx,
       fetchTails) *)
(* ===================================================================== *)

(** The [CompanyTail] of types.ts. *)
Module CompanyTail.
Record t : Type := mk {
  id : uuid;
  company_id : uuid;
  tail_number : string;
  created_at : timestamptz
}.
End CompanyTail.

Module CompanyTable.

(** The object [acc] of the [reduce]: its keys, which are ids of
    companies, in the order they were added, each with its array. *)
Definition Groups : Type := list (uuid * list CompanyTail.t).

(** [acc[k]] *)
Fixpoint get (acc : Groups) (k : uuid) : option (list CompanyTail.t) :=
  match acc with
  | [] => None
  | (k', ts) :: rest => if String.eqb k' k then Some ts else get rest k
  end.

(** [if (!acc[k]) { acc[k] = []; } acc[k].push(tail)] *)
Fixpoint push (acc : Groups) (k : uuid) (tail : CompanyTail.t) : Groups :=
  match acc with
  | [] => [(k, [tail])]
  | (k', ts) :: rest =>
      if String.eqb k' k then (k', ts ++ [tail]) :: rest
      else (k', ts) :: push rest k tail
  end.

(** [(data || []).reduce((acc, tail) => ..., {})] *)
Definition tailsByCompany (data : option (list CompanyTail.t)) : Groups :=
  fold_left (fun acc tail => push acc (CompanyTail.company_id tail) tail)
            (match data with Some rows => rows | None => [] end)
            [].

End CompanyTable.


(* ===================================================================== *)
(** * Properties *)
(* ===================================================================== *)

(** ** Strings *)

Section StringFacts.
Import JsString.

Lemma prefix_app (n post : string) : String.prefix n (n ++ post) = true.
Proof.
  induction n as [|c n IH]; simpl.
  - destruct post; reflexivity.
  - destruct (ascii_dec c c) as [_|ne]; [exact IH | contradiction].
Qed.

Lemma prefix_split (n h : string) :
  String.prefix n h = true -> exists post, h = (n ++ post)%string.
Proof.
  revert h; induction n as [|c n IH]; intros h H.
  - exists h. reflexivity.
  - destruct h as [|c' h]; simpl in H; [discriminate|].
    destruct (ascii_dec c c') as [->|_]; [|discriminate].
    destruct (IH h H) as [post ->]. exists post. reflexivity.
Qed.

Lemma includes_unfold (n h : string) :
  includes n h =
  if String.prefix n h then true
  else match h with
       | EmptyString => false
       | String _ rest => includes n rest
       end.
Proof. destruct h; reflexivity. Qed.

Lemma includes_here (n h : string) :
  String.prefix n h = true -> includes n h = true.
Proof. intros H. rewrite includes_unfold, H. reflexivity. Qed.

Lemma includes_later (n : string) (c : ascii) (h : string) :
  includes n h = true -> includes n (String c h) = true.
Proof.
  intros H. rewrite includes_unfold.
  destruct (String.prefix n (String c h)); [reflexivity|exact H].
Qed.

(** [includes] finds every occurrence... *)
Lemma includes_app (pre n post : string) :
  includes n (pre ++ n ++ post) = true.
Proof.
  induction pre as [|c pre IH]; cbn [append].
  - apply includes_here, prefix_app.
  - apply includes_later, IH.
Qed.

(** ... and only occurrences. *)
Lemma includes_split (n h : string) :
  includes n h = true -> exists pre post, h = (pre ++ n ++ post)%string.
Proof.
  induction h as [|c h IH]; rewrite includes_unfold.
  - destruct (String.prefix n EmptyString) eqn:P; [|discriminate].
    intros _. destruct (prefix_split _ _ P) as [post E].
    exists EmptyString, post. exact E.
  - destruct (String.prefix n (String c h)) eqn:P.
    + intros _. destruct (prefix_split _ _ P) as [post E].
      exists EmptyString, post. exact E.
    + intros H. destruct (IH H) as (pre & post & ->).
      exists (String c pre), post. reflexivity.
Qed.

Lemma toLowerCase_app (a b : string) :
  ascii_toLowerCase (a ++ b) = (ascii_toLowerCase a ++ ascii_toLowerCase b)%string.
Proof. induction a as [|c a IH]; simpl; [reflexivity | now rewrite IH]. Qed.

(** A needle already in lower case survives the lower-casing of an ASCII
    text. *)
Lemma includes_toLowerCase (n m : string) :
  ascii_toLowerCase n = n -> includes n m = true ->
  includes n (ascii_toLowerCase m) = true.
Proof.
  intros Hn H. destruct (includes_split _ _ H) as (pre & post & ->).
  rewrite !toLowerCase_app, Hn. apply includes_app.
Qed.

End StringFacts.

(** ** The error classifier *)

Section ClassifierFacts.
Import JsString Classifier.
Context {JS : Engine}.

(** A text in which a non-empty needle occurs is not empty. *)
Lemma includes_truthy (n m : string) :
  n <> EmptyString -> includes n m = true -> truthy (Some m) = true.
Proof.
  intros Hn H. destruct m as [|c m]; [|reflexivity].
  destruct n as [|d n]; [contradiction | discriminate H].
Qed.

(** A message in which one of the transient substrings occurs makes the
    error retryable, whatever the rest of the error and the connectivity. *)
Lemma retryable_message (onLine : bool) (e : JsError) (m needle : string) :
  keeps_phrases JS ->
  message e = Some m ->
  In needle retryableMessages ->
  includes needle m = true ->
  isRetryableError onLine (Some e) = true.
Proof.
  intros Hkeeps Hm Hin Hinc. unfold isRetryableError.
  destruct (isTypeError e || negb onLine)%bool; [reflexivity|].
  rewrite Hm.
  assert (Hne : needle <> EmptyString).
  { intros ->. simpl in Hin. intuition discriminate. }
  rewrite (includes_truthy _ _ Hne Hinc). cbn [andb].
  assert (Hsome : some (fun msg => includes msg (toLowerCase m)) retryableMessages = true).
  { apply existsb_exists. exists needle. split; [exact Hin|].
    now apply Hkeeps. }
  rewrite Hsome. reflexivity.
Qed.

(** When the classifier gets past the connectivity test, the message and
    the code decide alone. *)
Lemma terminal_when (e : JsError) :
  isTypeError e = false ->
  match message e with
  | Some m => forallb (fun msg => negb (includes msg (toLowerCase m))) retryableMessages = true
  | None => True
  end ->
  match code e with
  | Some c => array_includes retryableCodes c = false
  | None => True
  end ->
  isRetryableError true (Some e) = false.
Proof.
  intros Ht Hm Hc. unfold isRetryableError. rewrite Ht. cbn [orb negb].
  destruct (message e) as [m|].
  - assert (Hsome : some (fun msg => includes msg (toLowerCase m)) retryableMessages = false).
    { unfold some. apply not_true_is_false. intros Hex.
      apply existsb_exists in Hex. destruct Hex as (msg & Hin & Hinc).
      rewrite forallb_forall in Hm. specialize (Hm msg Hin).
      rewrite Hinc in Hm. discriminate. }
    rewrite Hsome, andb_false_r.
    destruct (code e) as [c|]; [rewrite Hc; apply andb_false_r | reflexivity].
  - destruct (code e) as [c|]; [rewrite Hc; apply andb_false_r | reflexivity].
Qed.

End ClassifierFacts.

(** The sample engine leaves the phrases of the classifier in place. *)
Lemma engine_keeps_phrases : Classifier.keeps_phrases Examples.engine.
Proof.
  intros n m Hin H. cbn [JsString.toLowerCase Examples.engine].
  apply includes_toLowerCase; [|exact H].
  cbn [Classifier.retryableMessages In] in Hin.
  repeat (destruct Hin as [<-|Hin]; [reflexivity|]). contradiction.
Qed.

(** C2, as the code has it: an error whose message contains "timeout",
    "network error" or "failed to fetch" is retryable; an error whose
    message contains "permission denied" or "not found" is terminal when
    the device is online, the error is not a TypeError, its lower-cased
    message holds none of the transient substrings and its code is none of
    the retryable codes.  The lower-casing is the engine's: the second part
    holds of every engine, the first of every engine whose [toLowerCase]
    leaves the lower-case ASCII phrases of a text in place, as that of
    Unicode does. *)
Theorem isRetryableError_by_message {JS : JsString.Engine} (e : JsError) (m : string) :
  message e = Some m ->
  (Classifier.keeps_phrases JS ->
   JsString.includes "timeout" m = true \/
   JsString.includes "network error" m = true \/
   JsString.includes "failed to fetch" m = true ->
   forall onLine, Classifier.isRetryableError onLine (Some e) = true) /\
  (JsString.includes "permission denied" m = true \/
   JsString.includes "not found" m = true ->
   isTypeError e = false ->
   forallb (fun msg => negb (JsString.includes msg (JsString.toLowerCase m)))
           Classifier.retryableMessages = true ->
   match code e with
   | Some c => JsString.array_includes Classifier.retryableCodes c = false
   | None => True
   end ->
   Classifier.isRetryableError true (Some e) = false).
Proof.
  intros Hm. split.
  - intros Hkeeps H onLine.
    destruct H as [H|[H|H]];
      eapply retryable_message; try exact Hkeeps; try exact Hm; try exact H;
      simpl; tauto.
  - intros _ Ht Hnone Hcode. apply terminal_when; [exact Ht| |exact Hcode].
    rewrite Hm. exact Hnone.
Qed.

(** The theorem at two errors of the backend: a request that timed out, and
    a permission error. *)
Lemma isRetryableError_by_message_witness :
  Classifier.isRetryableError (JS := Examples.engine) true
    (Some (mkError false (Some "canceling statement due to statement timeout") (Some "57014"))) = true /\
  Classifier.isRetryableError (JS := Examples.engine) true
    (Some (mkError false (Some "permission denied for table flights") (Some "42501"))) = false.
Proof.
  split.
  - refine (proj1 (isRetryableError_by_message (JS := Examples.engine)
                     (mkError false (Some "canceling statement due to statement timeout")
                              (Some "57014"))
                     "canceling statement due to statement timeout" eq_refl)
                  engine_keeps_phrases _ true).
    left. vm_compute. reflexivity.
  - refine (proj2 (isRetryableError_by_message (JS := Examples.engine)
                     (mkError false (Some "permission denied for table flights") (Some "42501"))
                     "permission denied for table flights" eq_refl) _ _ _ _).
    + left. vm_compute. reflexivity.
    + reflexivity.
    + vm_compute. reflexivity.
    + vm_compute. reflexivity.
Defined.

(** C2 as stated fails: a message containing "permission denied" is
    retryable when the device is offline, and a message containing
    "not found" is retryable when it also mentions a timeout. *)
Lemma isRetryableError_terminal_message_counterexample :
  (JsString.includes "permission denied" "permission denied for table flights" = true /\
   Classifier.isRetryableError (JS := Examples.engine) false
     (Some (mkError false (Some "permission denied for table flights") (Some "42501"))) = true) /\
  (JsString.includes "not found" "upstream not found: gateway timeout" = true /\
   Classifier.isRetryableError (JS := Examples.engine) true
     (Some (mkError false (Some "upstream not found: gateway timeout") None)) = true).
Proof. vm_compute. repeat split; reflexivity. Qed.

(** C9: offline, or on a TypeError, every non-null error is retryable,
    whatever its message and code. *)
Theorem isRetryableError_offline_or_TypeError {JS : JsString.Engine}
        (onLine : bool) (e : JsError) :
  onLine = false \/ isTypeError e = true ->
  Classifier.isRetryableError onLine (Some e) = true.
Proof.
  intros [-> | H]; unfold Classifier.isRetryableError.
  - rewrite orb_true_r. reflexivity.
  - rewrite H. reflexivity.
Qed.

Lemma isRetryableError_offline_or_TypeError_witness :
  Classifier.isRetryableError (JS := Examples.engine) false
    (Some (mkError false (Some "permission denied") (Some "42501"))) = true /\
  Classifier.isRetryableError (JS := Examples.engine) true
    (Some (mkError true (Some "record not found") None)) = true.
Proof.
  split.
  - apply (isRetryableError_offline_or_TypeError (JS := Examples.engine)).
    left. reflexivity.
  - apply (isRetryableError_offline_or_TypeError (JS := Examples.engine)).
    right. reflexivity.
Defined.

(** ** The backoff retrier *)

Section RetrierFacts.
Import Classifier Retrier.
Context {JS : JsString.Engine} {S D : Type}.
Variable op : S -> Completion (QueryResult D) * S.
Variable net : nat -> Connectivity.

Lemma executions_app (a b : list Event) :
  executions (a ++ b) = (executions a + executions b)%nat.
Proof.
  induction a as [|ev a IH]; [reflexivity|].
  destruct ev; simpl; rewrite IH; reflexivity.
Qed.

Lemma delays_app (a b : list Event) : delays (a ++ b) = delays a ++ delays b.
Proof.
  induction a as [|ev a IH]; [reflexivity|].
  destruct ev; simpl; rewrite IH; reflexivity.
Qed.

(** What a pass that goes on to the next attempt has done. *)
Lemma pass_Continue (k : nat) (st : S) (tr : list Event) le st' tr' :
  pass op net k st tr = Continue le st' tr' ->
  (k < MAX_RETRIES - 1)%nat /\
  st' = snd (op st) /\
  (exists e, le = Some e /\ failure (fst (op st)) = Some e /\
             isRetryableError (onLine_after (net k)) (Some e) = true) /\
  executions tr' = Datatypes.S (executions tr) /\
  delays tr' = delays tr ++ [retry_delay k].
Proof.
  unfold pass, entry, try_body, bind.
  destruct (op st) as [out st1]; cbn [fst snd].
  destruct (negb (onLine_before (net k)) && negb (comes_online (net k)))%bool;
    [discriminate|].
  destruct out as [r|e|]; [destruct (error r) as [e|] eqn:Er;
    [destruct (isRetryableError (onLine_after (net k)) (Some e)) eqn:R|]|..];
    try discriminate.
  all: destruct (k <? MAX_RETRIES - 1)%nat eqn:K; cbn [andb]; try discriminate.
  all: try rewrite R.
  all: try (destruct (isRetryableError (onLine_after (net k)) (Some e)) eqn:R';
            [|discriminate]).
  all: intros H; injection H as <- <- <-.
  all: apply Nat.ltb_lt in K.
  all: repeat split; try exact K.
  all: try (eexists; repeat split; try eassumption; reflexivity).
  all: destruct (onLine_before (net k));
    rewrite ?executions_app, ?delays_app; simpl;
    rewrite ?app_nil_r, ?Nat.add_0_r; try lia; reflexivity.
Qed.

(** What a pass that leaves the loop by [break] has done. *)
Lemma pass_Break (k : nat) (st : S) (tr : list Event) le st' tr' :
  pass op net k st tr = Break le st' tr' ->
  st' = snd (op st) /\
  (exists e, le = Some e /\ failure (fst (op st)) = Some e /\
             ((k <? MAX_RETRIES - 1)%nat &&
              isRetryableError (onLine_after (net k)) (Some e))%bool = false /\
             (fst (op st) = Throw e \/
              isRetryableError (onLine_after (net k)) (Some e) = true)) /\
  executions tr' = Datatypes.S (executions tr) /\
  delays tr' = delays tr.
Proof.
  unfold pass, entry, try_body, bind.
  destruct (op st) as [out st1]; cbn [fst snd].
  destruct (negb (onLine_before (net k)) && negb (comes_online (net k)))%bool;
    [discriminate|].
  destruct out as [r|e|]; [destruct (error r) as [e|] eqn:Er;
    [destruct (isRetryableError (onLine_after (net k)) (Some e)) eqn:R|]|..];
    try discriminate.
  all: destruct ((k <? MAX_RETRIES - 1)%nat &&
                 isRetryableError (onLine_after (net k)) (Some e))%bool eqn:K;
    try discriminate.
  all: intros H; injection H as <- <- <-.
  all: repeat split.
  all: try (eexists; repeat split; try eassumption; try reflexivity; tauto).
  all: destruct (onLine_before (net k));
    rewrite ?executions_app, ?delays_app; simpl;
    rewrite ?app_nil_r, ?Nat.add_0_r; try lia; reflexivity.
Qed.

(** What a pass that returns has done. *)
Lemma pass_Return (k : nat) (st : S) (tr : list Event) run :
  pass op net k st tr = Return run ->
  delays (trace run) = delays tr /\
  (executions (trace run) <= Datatypes.S (executions tr))%nat /\
  (settled run = Never \/
   exists r, settled run = Normal r /\ fst (op st) = Normal r /\
             final run = snd (op st) /\
             executions (trace run) = Datatypes.S (executions tr) /\
             (error r = None \/
              exists e, error r = Some e /\
                        isRetryableError (onLine_after (net k)) (Some e) = false)).
Proof.
  unfold pass, entry, try_body, bind.
  destruct (op st) as [out st1]; cbn [fst snd].
  destruct (negb (onLine_before (net k)) && negb (comes_online (net k)))%bool.
  { intros H; injection H as <-. cbn [trace settled].
    rewrite delays_app, executions_app. simpl. rewrite app_nil_r.
    repeat split; [lia | left; reflexivity]. }
  destruct out as [r|e|]; [destruct (error r) as [e|] eqn:Er;
    [destruct (isRetryableError (onLine_after (net k)) (Some e)) eqn:R|]|..].
  all: try (destruct ((k <? MAX_RETRIES - 1)%nat &&
                      isRetryableError (onLine_after (net k)) (Some e))%bool;
            discriminate).
  all: intros H; injection H as <-; cbn [trace settled final].
  all: assert (Hd : delays ((if onLine_before (net k) then tr else tr ++ [AwaitOnline])
                              ++ [Execute k]) = delays tr)
    by (destruct (onLine_before (net k)); rewrite !delays_app; simpl;
        rewrite ?app_nil_r; reflexivity).
  all: assert (He : executions ((if onLine_before (net k) then tr else tr ++ [AwaitOnline])
                                  ++ [Execute k]) = Datatypes.S (executions tr))
    by (destruct (onLine_before (net k)); rewrite !executions_app; simpl; lia).
  all: rewrite Hd, He; repeat split; try lia.
  - right. exists r. repeat split. right. exists e. split; assumption.
  - right. exists r. repeat split. left. assumption.
  - left. reflexivity.
Qed.

(** The loop never runs out of fuel when it is given a pass more than the
    attempts that are left. *)
Lemma retry_loop_total (fuel : nat) :
  forall attempt lastError st tr,
    (MAX_RETRIES - attempt < fuel)%nat ->
    exists run, retry_loop op net fuel attempt lastError st tr = Some run.
Proof.
  induction fuel as [|fuel IH]; intros attempt lastError st tr Hf; [lia|].
  cbn [retry_loop].
  destruct (attempt <? MAX_RETRIES)%nat eqn:A; [|eauto].
  apply Nat.ltb_lt in A.
  destruct (pass op net attempt st tr) as [run|le st' tr'|le st' tr']; eauto.
  apply IH. lia.
Qed.

Lemma wrapped_fuel (st : S) :
  retry_loop op net (Datatypes.S MAX_RETRIES) 0 None st [] = Some (wrapped op net st).
Proof.
  unfold wrapped.
  destruct (retry_loop_total (Datatypes.S MAX_RETRIES) 0 None st []) as [run E].
  { unfold MAX_RETRIES. lia. }
  rewrite E. reflexivity.
Qed.

(** Every run of the loop: it does not throw, it executes the operation
    once per attempt left at most, and it waits the delays of the
    schedule, in order. *)
Lemma retry_loop_run (fuel : nat) :
  forall attempt lastError st tr run,
    retry_loop op net fuel attempt lastError st tr = Some run ->
    (forall e, settled run <> Throw e) /\
    (executions (trace run) <= executions tr + (MAX_RETRIES - attempt))%nat /\
    exists n, (n = 0 \/ attempt + n <= MAX_RETRIES - 1)%nat /\
              delays (trace run) = delays tr ++ map retry_delay (seq attempt n).
Proof.
  induction fuel as [|fuel IH]; intros attempt lastError st tr run; [discriminate|].
  cbn [retry_loop].
  destruct (attempt <? MAX_RETRIES)%nat eqn:A.
  - apply Nat.ltb_lt in A.
    destruct (pass op net attempt st tr) as [run'|le st' tr'|le st' tr'] eqn:P.
    + intros H; injection H as <-.
      destruct (pass_Return _ _ _ _ P) as (Hd & He & Hs).
      repeat split.
      * intros e E. destruct Hs as [Hs|(r & Hs & _)]; rewrite Hs in E; discriminate.
      * lia.
      * exists 0%nat. split; [left; reflexivity|]. rewrite Hd, app_nil_r. reflexivity.
    + intros H. destruct (pass_Continue _ _ _ _ _ _ P) as (Hk & _ & _ & He & Hd).
      destruct (IH _ _ _ _ _ H) as (Ht & Hx & n & Hn & Hdel).
      repeat split; [exact Ht | lia |].
      exists (Datatypes.S n). split; [right; lia|].
      rewrite Hdel, Hd, <- app_assoc. reflexivity.
    + intros H; injection H as <-. cbn [settled trace].
      destruct (pass_Break _ _ _ _ _ _ P) as (_ & _ & He & Hd).
      repeat split; [discriminate | lia |].
      exists 0%nat. split; [left; reflexivity|]. rewrite Hd, app_nil_r. reflexivity.
  - intros H; injection H as <-. cbn [settled trace].
    repeat split; [discriminate | lia |].
    exists 0%nat. split; [left; reflexivity|]. rewrite app_nil_r. reflexivity.
Qed.


(** Where a result the loop gives comes from: it is the failure object
    built after the loop, or a result of the operation itself, returned
    as it was: one without error, or one whose error is terminal. *)
Lemma retry_loop_settled (fuel : nat) :
  forall attempt lastError st tr run,
    retry_loop op net fuel attempt lastError st tr = Some run ->
    forall r, settled run = Normal r ->
      (exists e, r = after_loop (Some e)) \/
      ((MAX_RETRIES <= attempt)%nat /\ r = after_loop lastError) \/
      (exists st0 k, fst (op st0) = Normal r /\
         (error r = None \/
          exists e, error r = Some e /\
                    isRetryableError (onLine_after (net k)) (Some e) = false)).
Proof.
  induction fuel as [|fuel IH]; intros attempt lastError st tr run; [discriminate|].
  cbn [retry_loop].
  destruct (attempt <? MAX_RETRIES)%nat eqn:A.
  - destruct (pass op net attempt st tr) as [run'|le st' tr'|le st' tr'] eqn:P.
    + intros H r Hr; injection H as <-.
      destruct (pass_Return _ _ _ _ P) as (_ & _ & [Hs|(r' & Hs & Hop & _ & _ & Hk)]);
        rewrite Hs in Hr; [discriminate|]. injection Hr as <-.
      right. right. exists st, attempt. split; [exact Hop|].
      destruct Hk as [Hk|(e & He & Hk)]; [left; exact Hk|].
      right. exists e. split; assumption.
    + intros H r Hr.
      destruct (pass_Continue _ _ _ _ _ _ P) as (_ & _ & (e & -> & _) & _).
      destruct (IH _ _ _ _ _ H r Hr) as [Hn|[[_ Hn]|Hn]].
      * left. exact Hn.
      * left. exists e. exact Hn.
      * right. right. exact Hn.
    + intros H r Hr; injection H as <-. cbn [settled] in Hr. injection Hr as <-.
      destruct (pass_Break _ _ _ _ _ _ P) as (_ & (e & -> & _) & _).
      left. exists e. reflexivity.
  - intros H r Hr; injection H as <-. cbn [settled] in Hr. injection Hr as <-.
    apply Nat.ltb_ge in A. right. left. split; [exact A | reflexivity].
Qed.

Lemma executions_entry (k : nat) (tr : list Event) :
  executions (entry net k tr) = executions tr.
Proof.
  unfold entry. destruct (onLine_before (net k)); [reflexivity|].
  rewrite executions_app. simpl. lia.
Qed.

Lemma delays_entry (k : nat) (tr : list Event) :
  delays (entry net k tr) = delays tr.
Proof.
  unfold entry. destruct (onLine_before (net k)); [reflexivity|].
  rewrite delays_app. simpl. apply app_nil_r.
Qed.

(** The pass of an execution that fails with a retryable error. *)
Lemma pass_fails_retryably (k : nat) (st : S) (tr : list Event) :
  reaches (net k) = true ->
  fails_retryably (net k) (fst (op st)) = true ->
  exists e, failure (fst (op st)) = Some e /\
    pass op net k st tr =
    if (k <? MAX_RETRIES - 1)%nat
    then Continue (Some e) (snd (op st))
                  ((entry net k tr ++ [Execute k]) ++ [Wait (retry_delay k)])
    else Break (Some e) (snd (op st)) (entry net k tr ++ [Execute k]).
Proof.
  unfold reaches, fails_retryably, pass, try_body, bind, failure.
  destruct (op st) as [out st1]; cbn [fst snd]. intros Hr Hf.
  assert (Hn : (negb (onLine_before (net k)) && negb (comes_online (net k)))%bool = false).
  { rewrite <- negb_orb, Hr. reflexivity. }
  rewrite Hn.
  destruct out as [r|e|]; [destruct (error r) as [e|] eqn:Er|..]; try discriminate.
  - exists e. split; [reflexivity|].
    rewrite Hf. cbv beta iota. rewrite Hf, andb_true_r. reflexivity.
  - exists e. split; [reflexivity|]. rewrite Hf, andb_true_r. reflexivity.
Qed.

(** The pass of an execution that fails with a terminal error: a thrown
    error leaves the loop, a result is returned as it is. *)
Lemma pass_fails_terminally (k : nat) (st : S) (tr : list Event) :
  reaches (net k) = true ->
  fails_terminally (net k) (fst (op st)) = true ->
  pass op net k st tr =
  match fst (op st) with
  | Throw e => Break (Some e) (snd (op st)) (entry net k tr ++ [Execute k])
  | out => Return (mkRun out (snd (op st)) (entry net k tr ++ [Execute k]))
  end.
Proof.
  unfold reaches, fails_terminally, pass, try_body, bind, failure.
  destruct (op st) as [out st1]; cbn [fst snd]. intros Hr Hf.
  assert (Hn : (negb (onLine_before (net k)) && negb (comes_online (net k)))%bool = false).
  { rewrite <- negb_orb, Hr. reflexivity. }
  rewrite Hn.
  destruct out as [r|e|]; [destruct (error r) as [e|] eqn:Er|..]; try discriminate.
  - apply negb_true_iff in Hf. rewrite Hf. reflexivity.
  - apply negb_true_iff in Hf. rewrite Hf, andb_false_r. reflexivity.
Qed.

(** The run of an operation whose first execution fails with a terminal
    error. *)
Lemma wrapped_terminal (st : S) :
  reaches (net 0) = true ->
  fails_terminally (net 0) (fst (op st)) = true ->
  wrapped op net st =
  mkRun (match fst (op st) with
         | Throw e => Normal (after_loop (Some e))
         | out => out
         end)
        (snd (op st)) (entry net 0 [] ++ [Execute 0]).
Proof.
  intros Hr Hf. unfold wrapped. cbn [retry_loop].
  change (0 <? MAX_RETRIES)%nat with true. cbv iota.
  rewrite (pass_fails_terminally 0 st [] Hr Hf).
  destruct (fst (op st)); reflexivity.
Qed.

(** The run of an operation of which every execution fails with a
    retryable error. *)
Lemma wrapped_exhausted (st : S) :
  (forall k, (k < MAX_RETRIES)%nat ->
      reaches (net k) = true /\
      fails_retryably (net k) (fst (op (Nat.iter k (fun s => snd (op s)) st))) = true) ->
  let st1 := snd (op st) in
  let st2 := snd (op st1) in
  exists e,
    failure (fst (op st2)) = Some e /\
    wrapped op net st =
    mkRun (Normal (after_loop (Some e))) (snd (op st2))
          (entry net 2 ((entry net 1 ((entry net 0 [] ++ [Execute 0]) ++ [Wait (retry_delay 0)])
                       ++ [Execute 1]) ++ [Wait (retry_delay 1)])
             ++ [Execute 2]).
Proof.
  intros H st1 st2. unfold wrapped.
  change (Datatypes.S MAX_RETRIES) with 4%nat. cbn [retry_loop].
  assert (H0 : (0 < MAX_RETRIES)%nat) by (unfold MAX_RETRIES; lia).
  assert (H1 : (1 < MAX_RETRIES)%nat) by (unfold MAX_RETRIES; lia).
  assert (H2 : (2 < MAX_RETRIES)%nat) by (unfold MAX_RETRIES; lia).
  destruct (H 0%nat H0) as [R0 F0].
  destruct (H 1%nat H1) as [R1 F1].
  destruct (H 2%nat H2) as [R2 F2].
  cbn [Nat.iter nat_rect] in F0, F1, F2. fold st1 in F1, F2. fold st2 in F2.
  destruct (pass_fails_retryably 0 st [] R0 F0) as (e0 & _ & P0).
  change (0 <? MAX_RETRIES)%nat with true. cbv iota.
  rewrite P0. change (0 <? MAX_RETRIES - 1)%nat with true. cbv iota.
  cbn [retry_loop]. change (1 <? MAX_RETRIES)%nat with true. cbv iota.
  set (tr1 := (entry net 0 [] ++ [Execute 0]) ++ [Wait (retry_delay 0)]).
  destruct (pass_fails_retryably 1 st1 tr1 R1 F1) as (e1 & _ & P1).
  fold st1. rewrite P1. change (1 <? MAX_RETRIES - 1)%nat with true. cbv iota.
  cbn [retry_loop]. change (2 <? MAX_RETRIES)%nat with true. cbv iota.
  set (tr2 := (entry net 1 tr1 ++ [Execute 1]) ++ [Wait (retry_delay 1)]).
  destruct (pass_fails_retryably 2 st2 tr2 R2 F2) as (e2 & E2 & P2).
  fold st2. rewrite P2. change (2 <? MAX_RETRIES - 1)%nat with false. cbv iota.
  exists e2. split; [exact E2 | reflexivity].
Qed.

End RetrierFacts.

(** The schedule of delays. *)
Lemma retry_delay_formula (attempt : nat) :
  Retrier.retry_delay attempt = Z.min (1000 * 2 ^ Z.of_nat attempt) 5000.
Proof. reflexivity. Qed.

Lemma retry_delay_mono (attempt : nat) :
  Retrier.retry_delay attempt <= Retrier.retry_delay (Datatypes.S attempt).
Proof.
  unfold Retrier.retry_delay, Retrier.INITIAL_RETRY_DELAY, Retrier.MAX_RETRY_DELAY.
  apply Z.min_le_compat_r.
  apply Z.mul_le_mono_nonneg_l; [lia|].
  apply Z.pow_le_mono_r; lia.
Qed.

Lemma retry_delay_capped (attempt : nat) :
  (3 <= attempt)%nat -> Retrier.retry_delay attempt = 5000.
Proof.
  intros H.
  unfold Retrier.retry_delay, Retrier.INITIAL_RETRY_DELAY, Retrier.MAX_RETRY_DELAY.
  apply Z.min_r.
  assert (2 ^ 3 <= 2 ^ Z.of_nat attempt) by (apply Z.pow_le_mono_r; lia).
  change (2 ^ 3) with 8 in *. lia.
Qed.

(** C1, as the code has it: the retrier executes the operation 3 times at
    most; the delays it waits are those of the schedule
    [min(1000 * 2^attempt, 5000)], from attempt 0 on, two at most, and the
    schedule never decreases (1000, 2000, 4000, then 5000); when every
    execution fails with a retryable error there are exactly 3 executions and
    the delays waited are 1000 and 2000: no delay follows the last
    attempt. *)
Theorem retry_schedule {JS : JsString.Engine} {S D : Type}
        (op : S -> Completion (QueryResult D) * S)
        (net : nat -> Retrier.Connectivity) (st : S) :
  let run := Retrier.wrapped op net st in
  (Retrier.executions (Retrier.trace run) <= 3)%nat /\
  (exists n, (n <= 2)%nat /\
             Retrier.delays (Retrier.trace run) = map Retrier.retry_delay (seq 0 n)) /\
  (forall attempt,
     Retrier.retry_delay attempt = Z.min (1000 * 2 ^ Z.of_nat attempt) 5000 /\
     Retrier.retry_delay attempt <= Retrier.retry_delay (Datatypes.S attempt)) /\
  (Retrier.retry_delay 0 = 1000 /\ Retrier.retry_delay 1 = 2000 /\
   Retrier.retry_delay 2 = 4000 /\
   forall attempt, (3 <= attempt)%nat -> Retrier.retry_delay attempt = 5000) /\
  ((forall k, (k < Retrier.MAX_RETRIES)%nat ->
      Retrier.reaches (net k) = true /\
      Retrier.fails_retryably (net k)
        (fst (op (Nat.iter k (fun s => snd (op s)) st))) = true) ->
   Retrier.executions (Retrier.trace run) = 3%nat /\
   Retrier.delays (Retrier.trace run) = [1000; 2000]).
Proof.
  intros run.
  destruct (retry_loop_run op net _ _ _ _ _ _ (wrapped_fuel op net st))
    as (_ & Hx & n & Hn & Hd).
  fold run in Hx, Hd.
  split; [exact Hx|].
  split.
  { exists n. split; [|exact Hd].
    unfold Retrier.MAX_RETRIES in Hn. lia. }
  split.
  { intros attempt. split; [apply retry_delay_formula | apply retry_delay_mono]. }
  split.
  { repeat split; try reflexivity. apply retry_delay_capped. }
  intros H. destruct (wrapped_exhausted op net st H) as (e & _ & E).
  unfold run. rewrite E. cbn [Retrier.trace].
  rewrite !executions_app, !delays_app, !executions_entry, !delays_entry.
  rewrite !executions_app, !delays_app, !executions_entry, !delays_entry.
  rewrite !executions_app, !delays_app, !executions_entry, !delays_entry.
  split; reflexivity.
Qed.

(** The theorem at a query whose fetch fails every time, online. *)
Lemma retry_schedule_witness :
  Retrier.executions
    (Retrier.trace (Retrier.wrapped (JS := Examples.engine) (Examples.always Examples.fetch_failed)
                                    Examples.online 0%nat)) = 3%nat /\
  Retrier.delays
    (Retrier.trace (Retrier.wrapped (JS := Examples.engine) (Examples.always Examples.fetch_failed)
                                    Examples.online 0%nat)) = [1000; 2000].
Proof.
  apply (retry_schedule (JS := Examples.engine) (Examples.always Examples.fetch_failed) Examples.online 0%nat).
  intros k _. split; reflexivity.
Defined.

(** C1 as stated fails: with every execution failing on a retryable error
    the delays waited are 1000 and 2000 alone; neither 4000 nor the cap of
    5000 is ever waited. *)
Lemma retry_schedule_counterexample :
  let run := Retrier.wrapped (JS := Examples.engine) (Examples.always Examples.fetch_failed)
                             Examples.online 0%nat in
  Retrier.fails_retryably (JS := Examples.engine) (Examples.online 0%nat)
    (fst (Examples.always Examples.fetch_failed 0%nat)) = true /\
  Retrier.executions (Retrier.trace run) = 3%nat /\
  Retrier.delays (Retrier.trace run) = [1000; 2000] /\
  Retrier.delays (Retrier.trace run) <> [1000; 2000; 4000] /\
  Retrier.delays (Retrier.trace run) <> [1000; 2000; 5000].
Proof. vm_compute. repeat split; discriminate. Qed.

(** C3: when the first execution fails with a terminal error, the
    operation is executed exactly once: nothing is waited, and the state the
    run leaves is the state that one execution left. *)
Theorem terminal_error_not_retried {JS : JsString.Engine} {S D : Type}
        (op : S -> Completion (QueryResult D) * S)
        (net : nat -> Retrier.Connectivity) (st : S) :
  Retrier.reaches (net 0%nat) = true ->
  Retrier.fails_terminally (net 0%nat) (fst (op st)) = true ->
  let run := Retrier.wrapped op net st in
  Retrier.executions (Retrier.trace run) = 1%nat /\
  Retrier.delays (Retrier.trace run) = [] /\
  Retrier.final run = snd (op st).
Proof.
  intros Hr Hf run. unfold run. rewrite (wrapped_terminal op net st Hr Hf).
  cbn [Retrier.trace Retrier.final].
  rewrite executions_app, delays_app, executions_entry, delays_entry.
  repeat split; reflexivity.
Qed.

Lemma terminal_error_not_retried_witness :
  let run := Retrier.wrapped (JS := Examples.engine) (Examples.always_throws Examples.permission_denied)
                             Examples.online 0%nat in
  Retrier.executions (Retrier.trace run) = 1%nat /\
  Retrier.delays (Retrier.trace run) = [] /\
  Retrier.final run = 1%nat.
Proof.
  apply (terminal_error_not_retried (JS := Examples.engine)
           (Examples.always_throws Examples.permission_denied) Examples.online 0%nat);
    reflexivity.
Defined.

Section RetrierFailures.
Import Classifier Retrier.
Context {JS : JsString.Engine} {S D : Type}.
Variable op : S -> Completion (QueryResult D) * S.
Variable net : nat -> Connectivity.

(** The loop after [k] executions that failed with retryable errors, none
    of them the last the loop allows: it goes on with the attempt
    [attempt + k], on the state those executions left. *)
Lemma retry_loop_failures (k : nat) :
  forall fuel attempt lastError st tr,
    (attempt + k < MAX_RETRIES)%nat ->
    (forall j, (j < k)%nat ->
       reaches (net (attempt + j)) = true /\
       fails_retryably (net (attempt + j))
         (fst (op (Nat.iter j (fun s => snd (op s)) st))) = true) ->
    exists lastError' tr',
      retry_loop op net (k + fuel) attempt lastError st tr =
      retry_loop op net fuel (attempt + k) lastError'
                 (Nat.iter k (fun s => snd (op s)) st) tr'.
Proof.
  induction k as [|k IH]; intros fuel attempt lastError st tr Hlt Hfail.
  - exists lastError, tr. rewrite Nat.add_0_r. reflexivity.
  - cbn [Nat.add retry_loop].
    replace (attempt <? MAX_RETRIES)%nat with true
      by (symmetry; apply Nat.ltb_lt; lia).
    destruct (Hfail 0%nat ltac:(lia)) as [Hr0 Hf0].
    rewrite Nat.add_0_r in Hr0, Hf0. cbn [Nat.iter nat_rect] in Hf0.
    destruct (pass_fails_retryably op net attempt st tr Hr0 Hf0) as [e [_ Hp]].
    rewrite Hp.
    replace (attempt <? MAX_RETRIES - 1)%nat with true
      by (symmetry; apply Nat.ltb_lt; unfold MAX_RETRIES in *; lia).
    destruct (IH fuel (Datatypes.S attempt) (Some e) (snd (op st))
                 ((entry net attempt tr ++ [Execute attempt]) ++
                  [Wait (retry_delay attempt)])) as [le' [tr' Hl]].
    + lia.
    + intros j Hj. destruct (Hfail (Datatypes.S j) ltac:(lia)) as [Ha Hb].
      rewrite Nat.iter_succ_r in Hb.
      replace (attempt + Datatypes.S j)%nat with (Datatypes.S attempt + j)%nat
        in Ha, Hb by lia.
      split; assumption.
    + exists le', tr'. rewrite Hl.
      replace (Datatypes.S attempt + k)%nat with (attempt + Datatypes.S k)%nat by lia.
      rewrite (Nat.iter_succ_r k). reflexivity.
Qed.

(** A terminal failure of the execution [k], after [k] retryable ones. *)
Lemma wrapped_terminal_at (st : S) (k : nat) :
  (k < MAX_RETRIES)%nat ->
  (forall j, (j < k)%nat ->
     reaches (net j) = true /\
     fails_retryably (net j)
       (fst (op (Nat.iter j (fun s => snd (op s)) st))) = true) ->
  reaches (net k) = true ->
  fails_terminally (net k) (fst (op (Nat.iter k (fun s => snd (op s)) st))) = true ->
  settled (wrapped op net st) =
  match fst (op (Nat.iter k (fun s => snd (op s)) st)) with
  | Throw e => Normal (after_loop (Some e))
  | out => out
  end.
Proof.
  intros Hk Hfail Hr Hf. unfold wrapped.
  destruct (retry_loop_failures k (Datatypes.S (MAX_RETRIES - k)) 0%nat None st [])
    as [le' [tr' Hl]]; [lia|exact Hfail|].
  replace (Datatypes.S MAX_RETRIES) with (k + Datatypes.S (MAX_RETRIES - k))%nat by lia.
  rewrite Hl. cbn [Nat.add retry_loop].
  replace (k <? MAX_RETRIES)%nat with true by (symmetry; apply Nat.ltb_lt; lia).
  rewrite (pass_fails_terminally op net k _ tr' Hr Hf).
  destruct (fst (op (Nat.iter k (fun s => snd (op s)) st))); reflexivity.
Qed.

End RetrierFailures.

(** C7, as the code has it: the retrier never throws.  Whichever of the
    three executions it is, after executions that failed with retryable
    errors: an execution that throws a terminal error gives the failure
    object built after the loop, [{data: null, error: new Error("Database
    operation failed: ...")}], with the message of that error, and an
    execution that resolves to a result whose error is terminal gives that
    result, unchanged.  Three executions that fail with retryable errors
    give the failure object with the message of the third.  Every result
    the retrier gives is the failure object or a result of the operation
    itself. *)
Theorem retrier_failure_result {JS : JsString.Engine} {S D : Type}
        (op : S -> Completion (QueryResult D) * S)
        (net : nat -> Retrier.Connectivity) (st : S) :
  let run := Retrier.wrapped op net st in
  let out := fun k => fst (op (Nat.iter k (fun s => snd (op s)) st)) in
  (forall e, Retrier.settled run <> Throw e) /\
  (forall lastError,
     @Retrier.after_loop D lastError =
     mkResult None
       (Some (newError ("Database operation failed: " ++
                        Retrier.errorMessage lastError ++
                        ". Please check your connection and try again.")%string))) /\
  (forall r, Retrier.settled run = Normal r ->
     (exists e, r = Retrier.after_loop (Some e)) \/
     (exists st0 k, fst (op st0) = Normal r /\
        (error r = None \/
         exists e, error r = Some e /\
           Classifier.isRetryableError (Retrier.onLine_after (net k)) (Some e) = false))) /\
  (forall k, (k < Retrier.MAX_RETRIES)%nat ->
     (forall j, (j < k)%nat ->
        Retrier.reaches (net j) = true /\
        Retrier.fails_retryably (net j) (out j) = true) ->
     Retrier.reaches (net k) = true ->
     Retrier.fails_terminally (net k) (out k) = true ->
     (forall e, out k = Throw e ->
                Retrier.settled run = Normal (Retrier.after_loop (Some e))) /\
     (forall r, out k = Normal r -> Retrier.settled run = Normal r)) /\
  ((forall k, (k < Retrier.MAX_RETRIES)%nat ->
      Retrier.reaches (net k) = true /\
      Retrier.fails_retryably (net k) (out k) = true) ->
   exists e, Retrier.failure (out 2%nat) = Some e /\
             Retrier.settled run = Normal (Retrier.after_loop (Some e))).
Proof.
  intros run out.
  destruct (retry_loop_run op net _ _ _ _ _ _ (wrapped_fuel op net st)) as (Ht & _).
  split; [exact Ht|].
  split; [reflexivity|].
  split.
  { intros r Hr.
    destruct (retry_loop_settled op net _ _ _ _ _ _ (wrapped_fuel op net st) r Hr)
      as [H|[[H _]|H]].
    - left. exact H.
    - unfold Retrier.MAX_RETRIES in H. lia.
    - right. exact H. }
  split.
  { intros k Hk Hfail Hr Hf. unfold run.
    rewrite (wrapped_terminal_at op net st k Hk Hfail Hr Hf). fold (out k).
    split.
    - intros e ->. reflexivity.
    - intros r ->. reflexivity. }
  intros H. destruct (wrapped_exhausted op net st H) as (e & He & Eq).
  exists e. split; [exact He|]. unfold run. rewrite Eq. reflexivity.
Qed.

(** The theorem at a query whose first fetch fails and whose second
    execution throws a permission error, and at a query of which every
    fetch fails. *)
Lemma retrier_failure_result_witness :
  Retrier.settled (Retrier.wrapped (JS := Examples.engine)
                     (Examples.then_throws 1 Examples.fetch_failed
                                           Examples.permission_denied)
                     Examples.online 0%nat) =
  Normal (Retrier.after_loop (Some Examples.permission_denied)) /\
  exists e,
    Retrier.settled (Retrier.wrapped (JS := Examples.engine)
                       (Examples.always Examples.fetch_failed)
                       Examples.online 0%nat) =
    Normal (Retrier.after_loop (Some e)).
Proof.
  split.
  - refine (proj1 (proj1 (proj2 (proj2 (proj2
             (retrier_failure_result (JS := Examples.engine)
                (Examples.then_throws 1 Examples.fetch_failed
                                      Examples.permission_denied)
                Examples.online 0%nat)))) 1%nat _ _ _ _) _ _).
    + unfold Retrier.MAX_RETRIES. lia.
    + intros j Hj. assert (j = 0%nat) as -> by lia. split; reflexivity.
    + reflexivity.
    + reflexivity.
    + reflexivity.
  - destruct (proj2 (proj2 (proj2 (proj2
             (retrier_failure_result (JS := Examples.engine)
                (Examples.always Examples.fetch_failed)
                Examples.online 0%nat))))) as (e & _ & H).
    + intros k _. split; reflexivity.
    + exists e. exact H.
Defined.

(** C7 as stated fails: a query that resolves to a terminal error gets its
    own result back, with the error object of the backend, and not the
    failure object of the retrier. *)
Lemma retrier_failure_result_counterexample :
  let run := Retrier.wrapped (JS := Examples.engine) (Examples.always Examples.permission_denied)
                             Examples.online 0%nat in
  Retrier.fails_terminally (JS := Examples.engine) (Examples.online 0%nat)
    (fst (Examples.always Examples.permission_denied 0%nat)) = true /\
  Retrier.settled run = Normal (mkResult None (Some Examples.permission_denied)) /\
  forall lastError, Retrier.settled run <> Normal (Retrier.after_loop lastError).
Proof.
  cbv zeta. split; [reflexivity|]. split; [reflexivity|].
  intros lastError H. vm_compute in H. discriminate H.
Qed.

(** ** The facade *)

Section FacadeFacts.
Import Facade.

(** [dbQuery] on the three outcomes of the awaited query. *)
Lemma dbQuery_success {T} (r : QueryResult T) :
  error r = None -> dbQuery (Normal r) = Normal (mkResult (data r) None).
Proof. intros H. unfold dbQuery. cbn. rewrite H. reflexivity. Qed.

Lemma dbQuery_error {T} (r : QueryResult T) (e : JsError) :
  error r = Some e ->
  dbQuery (Normal r) = Normal (mkResult None (Some (fst (handleDbError (Some e))))).
Proof. intros H. unfold dbQuery. cbn. rewrite H. reflexivity. Qed.

Lemma dbQuery_thrown {T} (err : JsError) :
  @dbQuery T (Throw err) = Normal (mkResult None (Some (fst (handleDbError (Some err))))).
Proof. reflexivity. Qed.

Lemma dbQuery_never_throws {T} (q : Completion (QueryResult T)) (e : JsError) :
  dbQuery q <> Throw e.
Proof.
  destruct q as [r|err|]; [destruct (error r) eqn:E|..].
  - rewrite (dbQuery_error _ _ E). discriminate.
  - rewrite (dbQuery_success _ E). discriminate.
  - rewrite dbQuery_thrown. discriminate.
  - discriminate.
Qed.

Lemma dbQuery_settles {T} (q : Completion (QueryResult T)) :
  q <> Never -> exists r, dbQuery q = Normal r /\ (data r = None \/ error r = None).
Proof.
  intros Hq. destruct q as [r|err|]; [destruct (error r) eqn:E|..].
  - rewrite (dbQuery_error _ _ E). eexists. split; [reflexivity|left; reflexivity].
  - rewrite (dbQuery_success _ E). eexists. split; [reflexivity|right; reflexivity].
  - rewrite dbQuery_thrown. eexists. split; [reflexivity|left; reflexivity].
  - contradiction.
Qed.

Context {W : Type}.
Context {Flight FlightInput FlightPatch : Type}.
Context {Company CompanyInput CompanyPatch : Type}.
Context {FlightTask TaskInput TaskPatch : Type}.
Context {CompanyTail AuditInput AuditLog : Type}.
Variable company_id : Company -> string.

Local Abbreviation Q :=
  (@Query Flight FlightInput FlightPatch Company CompanyInput CompanyPatch
          FlightTask TaskInput TaskPatch CompanyTail AuditInput AuditLog).

Variable supabase : forall T, Q T -> Async W (QueryResult T).

Lemma query_never_throws {T} (q : Q T) (w : W) (e : JsError) :
  fst (query supabase q w) <> Throw e.
Proof.
  unfold query. destruct (supabase T q w) as [c w']. cbn [fst].
  apply dbQuery_never_throws.
Qed.

Lemma query_settles {T} (q : Q T) (w : W) :
  fst (supabase T q w) <> Never ->
  exists r, fst (query supabase q w) = Normal r /\ (data r = None \/ error r = None).
Proof.
  unfold query. destruct (supabase T q w) as [c w']. cbn [fst].
  apply dbQuery_settles.
Qed.

Lemma getByCompany_never_throws (companyName : string) (w : W) (e : JsError) :
  fst (companyTails_getByCompany company_id supabase companyName w) <> Throw e.
Proof.
  unfold companyTails_getByCompany.
  pose proof (query_never_throws (companies_select_eq_name_single companyName) w) as H1.
  destruct (query supabase (companies_select_eq_name_single companyName) w) as [c w1].
  cbn [fst] in H1.
  destruct c as [r|e'|]; [destruct (data r) as [company|]|..]; cbn [fst].
  - apply query_never_throws.
  - discriminate.
  - intros E. injection E as ->. exact (H1 e eq_refl).
  - discriminate.
Qed.

Lemma getByCompany_settles (companyName : string) (w : W) :
  (forall T (q : Q T) w, fst (supabase T q w) <> Never) ->
  exists r, fst (companyTails_getByCompany company_id supabase companyName w) = Normal r /\
            (data r = None \/ error r = None).
Proof.
  intros Hs. unfold companyTails_getByCompany.
  destruct (query_settles (companies_select_eq_name_single companyName) w (Hs _ _ _))
    as (r & Hr & _).
  destruct (query supabase (companies_select_eq_name_single companyName) w) as [c w1].
  cbn [fst] in Hr. subst c.
  destruct (data r) as [company|].
  - apply query_settles, Hs.
  - cbn [fst]. eexists. split; [reflexivity|]. right. reflexivity.
Qed.


(** Given the awaitable of its chain, an operation of the facade does not
    throw, and when the awaitables settle it returns a [{data, error}]
    object, one of the two being [null]: [dbQuery] turns a result without
    error into [{data, error: null}], a result with an error and a thrown
    exception into [{data: null, error: message}]. *)
Lemma awaited_operation_total {T} (o : Operation T) (w : W) :
  (forall e, fst (perform company_id supabase o w) <> Throw e) /\
  ((forall T' (q : Q T') w', fst (supabase T' q w') <> Never) ->
   exists r : DbResult T,
     fst (perform company_id supabase o w) = Normal r /\
     (data r = None \/ error r = None)) /\
  (forall r : QueryResult T,
     error r = None -> dbQuery (Normal r) = Normal (mkResult (data r) None)) /\
  (forall (r : QueryResult T) e,
     error r = Some e ->
     dbQuery (Normal r) = Normal (mkResult None (Some (fst (handleDbError (Some e)))))) /\
  (forall err,
     @dbQuery T (Throw err) =
     Normal (mkResult None (Some (fst (handleDbError (Some err)))))).
Proof.
  split; [|split; [|split; [|split]]].
  - intros e. destruct o; cbn [perform];
      first [apply query_never_throws | apply getByCompany_never_throws].
  - intros Hs. destruct o; cbn [perform];
      first [apply query_settles, Hs | apply getByCompany_settles, Hs].
  - apply @dbQuery_success.
  - apply @dbQuery_error.
  - apply @dbQuery_thrown.
Qed.

(** Given the awaitable of the lookup, when it gives no row (its [data] is
    [null], as when it fails), [getByCompany] returns [{data: [], error:
    null}] and sends no second query. *)
Lemma awaited_getByCompany_without_company (companyName : string) (w : W) :
  match fst (supabase _ (companies_select_eq_name_single companyName) w) with
  | Normal r => data r = None \/ error r <> None
  | Throw _ => True
  | Never => False
  end ->
  companyTails_getByCompany company_id supabase companyName w =
  (Normal (mkResult (Some []) None),
   snd (supabase _ (companies_select_eq_name_single companyName) w)).
Proof.
  unfold companyTails_getByCompany, query.
  destruct (supabase _ (companies_select_eq_name_single companyName) w) as [c w1].
  cbn [fst snd]. intros H.
  destruct c as [r|e|]; [destruct (error r) as [e|] eqn:E|..].
  - rewrite (dbQuery_error _ _ E). reflexivity.
  - destruct H as [H|H]; [|contradiction].
    rewrite (dbQuery_success _ E), H. reflexivity.
  - rewrite dbQuery_thrown. reflexivity.
  - contradiction.
Qed.

End FacadeFacts.

Lemma awaited_operation_total_example :
  exists r : DbResult (list Flight.t),
    fst (Facade.perform (fun name : string => name)
                        (Examples.failing_client Examples.permission_denied)
                        Facade.op_flights_getAll 0%nat) = Normal r /\
    (data r = None \/ error r = None).
Proof.
  apply (awaited_operation_total (fun name : string => name)
                             (Examples.failing_client Examples.permission_denied)
                             Facade.op_flights_getAll 0%nat).
  intros T' q w'. discriminate.
Defined.

Lemma awaited_getByCompany_example :
  Facade.companyTails_getByCompany (fun name : string => name)
    (Examples.failing_client Examples.no_rows) "Acme Air" 0%nat =
  (Normal (mkResult (Some []) None), 1%nat).
Proof.
  apply (awaited_getByCompany_without_company (fun name : string => name)
           (Examples.failing_client Examples.no_rows) "Acme Air" 0%nat).
  left. reflexivity.
Defined.

(** ** The cleanup of the locks *)

Lemma cleanup_old_locks_keeps (role : Sql.Role) (now : timestamptz)
      (locks : list FlightLock.t) (l : FlightLock.t) :
  In l (Sql.cleanup_old_locks role now locks) <->
  In l locks /\ (Sql.stale now l = false \/ Sql.manages role l = false).
Proof.
  unfold Sql.cleanup_old_locks.
  rewrite filter_In, negb_true_iff, andb_false_iff. reflexivity.
Qed.

(** C8 fails on the code.  The function deletes every lock older than 15
    minutes, and run by a role that row-level security does not bind it
    leaves none.  But nothing calls it except the trigger, which runs it
    with the rights of the user whose INSERT or UPDATE fired it, and the
    policy of [flight_locks] lets a user delete the locks of that user
    only: such a pass removes the stale locks of the user and leaves every
    other lock, stale or not.  At the failing input bob locks a flight
    1000 seconds after ann locked another: the lock of ann, older than 15
    minutes, remains. *)
Theorem cleanup_leaves_stale_locks_of_others :
  (forall role now locks l,
     In l (Sql.cleanup_old_locks role now locks) <->
     In l locks /\ (Sql.stale now l = false \/ Sql.manages role l = false)) /\
  (forall now locks l t,
     In l (Sql.cleanup_old_locks Sql.bypassrls now locks) ->
     FlightLock.locked_at l = Some t ->
     now - 15 * 60 * 1000000 <= t) /\
  (forall uid now locks l,
     In l locks -> FlightLock.user_id l <> uid ->
     In l (Sql.cleanup_old_locks (Sql.authenticated uid) now locks)) /\
  (Sql.stale 1000000000 Samples.ann_lock = true /\
   Sql.insert_flight_lock "u-2" 1000000000 Samples.bob_lock
     (Sql.mkDb [Samples.booked; Samples.other] [] [Samples.ann_lock]) =
   inr (Sql.mkDb [Samples.booked; Samples.other] []
                 [Samples.ann_lock; Samples.bob_lock]) /\
   Sql.cleanup_old_locks (Sql.authenticated "u-2") 1000000000
     [Samples.ann_lock; Samples.bob_lock] =
   [Samples.ann_lock; Samples.bob_lock] /\
   Sql.cleanup_old_locks Sql.bypassrls 1000000000
     [Samples.ann_lock; Samples.bob_lock] =
   [Samples.bob_lock]).
Proof.
  split; [apply cleanup_old_locks_keeps|]. split; [|split].
  - intros now locks l t Hin Ht. apply cleanup_old_locks_keeps in Hin.
    destruct Hin as [_ [Hs|Hm]]; [|discriminate].
    unfold Sql.stale in Hs. rewrite Ht in Hs. apply Z.ltb_ge in Hs. exact Hs.
  - intros uid now locks l Hin Hne. apply cleanup_old_locks_keeps.
    split; [exact Hin|]. right. cbn [Sql.manages].
    apply String.eqb_neq. congruence.
  - repeat split; reflexivity.
Qed.

(** ** The overlap trigger *)

Section OverlapFacts.
Import Sql Overlap.

(** PostgreSQL's OVERLAPS accepts every pair of windows that share an
    instant. *)
Lemma overlaps_complete (s1 e1 s2 e2 : timestamptz) :
  shares_instant s1 e1 s2 e2 -> overlaps s1 e1 s2 e2 = true.
Proof.
  intros (t & H1 & H2). unfold overlaps.
  destruct (e1 <? s1) eqn:A; [apply Z.ltb_lt in A; lia|].
  destruct (e2 <? s2) eqn:B; [apply Z.ltb_lt in B; lia|].
  destruct (s2 <? s1) eqn:C; [apply Z.ltb_lt; lia|].
  destruct (s1 <? s2) eqn:C'; [apply Z.ltb_lt; lia|reflexivity].
Qed.

(** The row that shares an instant with [NEW] makes the trigger raise. *)
Lemma conflicts_complete (NEW r : Flight.t) :
  Flight.tail_number r = Flight.tail_number NEW ->
  Flight.id r <> Flight.id NEW ->
  Flight.status r = "active" ->
  shares_instant (Flight.start_date NEW) (Flight.end_date NEW)
                 (Flight.start_date r) (Flight.end_date r) ->
  conflicts NEW r = true.
Proof.
  intros Ht Hid Hs Ho. unfold conflicts.
  rewrite (proj2 (String.eqb_eq _ _) Ht).
  rewrite (proj2 (String.eqb_neq _ _) Hid).
  rewrite (proj2 (String.eqb_eq _ _) Hs).
  rewrite (overlaps_complete _ _ _ _ Ho). reflexivity.
Qed.

Lemma validate_flight_dates_raises (fs : list Flight.t) (NEW r : Flight.t) :
  In r fs -> conflicts NEW r = true ->
  validate_flight_dates fs NEW =
  inl (pg_error "P0001"
         ("Flight dates overlap with existing flight for tail number " ++
          Flight.tail_number NEW)%string).
Proof.
  intros Hin Hc. unfold validate_flight_dates.
  assert (H : existsb (conflicts NEW) fs = true)
    by (apply existsb_exists; exists r; split; assumption).
  rewrite H. reflexivity.
Qed.

Lemma validate_flight_dates_passes (fs : list Flight.t) (NEW NEW' : Flight.t) :
  validate_flight_dates fs NEW = inr NEW' ->
  NEW' = NEW /\ forall r, In r fs -> conflicts NEW r = false.
Proof.
  unfold validate_flight_dates.
  destruct (existsb (conflicts NEW) fs) eqn:E; [discriminate|].
  intros H; injection H as <-. split; [reflexivity|].
  intros r Hin. apply not_true_is_false. intros Hc.
  assert (existsb (conflicts NEW) fs = true)
    by (apply existsb_exists; exists r; split; assumption).
  congruence.
Qed.

Lemma flights_checks_same (r r' : Flight.t) : flights_checks r = inr r' -> r' = r.
Proof.
  unfold flights_checks.
  destruct (negb (flights_dates_check r)); [discriminate|].
  destruct (negb (flights_airports_check r)); [discriminate|].
  destruct (negb (flights_status_check r)); [discriminate|].
  intros H; injection H as <-. reflexivity.
Qed.

Lemma flights_pkey_fresh (fs : list Flight.t) (r r' : Flight.t) :
  flights_pkey fs r = inr r' -> r' = r /\ ~ In (Flight.id r) (map Flight.id fs).
Proof.
  unfold flights_pkey.
  destruct (existsb _ fs) eqn:E; [discriminate|].
  intros H; injection H as <-. split; [reflexivity|].
  intros Hin. apply in_map_iff in Hin. destruct Hin as (g & Hg & Hin).
  assert (existsb (fun r' => String.eqb (Flight.id r') (Flight.id r)) fs = true).
  { apply existsb_exists. exists g. split; [exact Hin|]. apply String.eqb_eq. exact Hg. }
  congruence.
Qed.

(** A row the trigger accepted shares no instant with an active row of
    the same tail number. *)
Lemma accepted_apart (fs : list Flight.t) (NEW g : Flight.t) :
  (forall r, In r fs -> conflicts NEW r = false) ->
  In g fs ->
  Flight.id g <> Flight.id NEW ->
  Flight.status g = "active" ->
  Flight.tail_number g = Flight.tail_number NEW ->
  ~ shares_instant (Flight.start_date NEW) (Flight.end_date NEW)
                   (Flight.start_date g) (Flight.end_date g).
Proof.
  intros Hall Hin Hid Hs Ht Ho.
  specialize (Hall g Hin).
  rewrite (conflicts_complete NEW g Ht Hid Hs Ho) in Hall. discriminate.
Qed.

Lemma shares_instant_sym (s1 e1 s2 e2 : timestamptz) :
  shares_instant s1 e1 s2 e2 -> shares_instant s2 e2 s1 e1.
Proof. intros (t & H1 & H2). exists t. split; assumption. Qed.


Lemma find_flight_Some (id : uuid) (fs : list Flight.t) (r : Flight.t) :
  find_flight id fs = Some r -> In r fs /\ Flight.id r = id.
Proof.
  induction fs as [|g fs IH]; simpl; [discriminate|].
  destruct (String.eqb (Flight.id g) id) eqn:E.
  - intros H; injection H as <-. split; [left; reflexivity | apply String.eqb_eq, E].
  - intros H. destruct (IH H) as [Hin Hid]. split; [right; exact Hin | exact Hid].
Qed.

Lemma replace_flight_ids (NEW : Flight.t) (fs : list Flight.t) :
  map Flight.id (replace_flight NEW fs) = map Flight.id fs.
Proof.
  induction fs as [|g fs IH]; simpl; [reflexivity|].
  destruct (String.eqb (Flight.id g) (Flight.id NEW)) eqn:E; simpl.
  - apply String.eqb_eq in E. rewrite E. reflexivity.
  - rewrite IH. reflexivity.
Qed.

Lemma replace_flight_In (NEW : Flight.t) (fs : list Flight.t) (g : Flight.t) :
  In g (replace_flight NEW fs) -> g = NEW \/ In g fs.
Proof.
  induction fs as [|h fs IH]; simpl; [tauto|].
  destruct (String.eqb (Flight.id h) (Flight.id NEW)); simpl.
  - intros [<-|H]; [left; reflexivity | right; right; exact H].
  - intros [<-|H]; [right; left; reflexivity|].
    destruct (IH H) as [->|H']; [left; reflexivity | right; right; exact H'].
Qed.

Lemma assign_id (a : Assignment) (old : Flight.t) :
  Flight.id (assign a old) = Flight.id old.
Proof. destruct a; reflexivity. Qed.

(** The overlap constraint survives a row the trigger accepted, added
    to the table or put in the place of a row of the same id. *)
Lemma no_overlap_accepted (fs fs' : list Flight.t) (NEW : Flight.t) :
  no_overlap fs ->
  (forall r, In r fs -> conflicts NEW r = false) ->
  (forall g, In g fs' -> g = NEW \/ In g fs) ->
  no_overlap fs'.
Proof.
  intros Hno Hall Hsub f g Hf Hg Hid Hsf Hsg Ht Ho.
  destruct (Hsub f Hf) as [->|Hf']; destruct (Hsub g Hg) as [->|Hg'].
  - apply Hid. reflexivity.
  - apply (accepted_apart fs NEW g Hall Hg'); auto.
  - apply (accepted_apart fs NEW f Hall Hf'); auto.
    apply shares_instant_sym. exact Ho.
  - apply (Hno f g Hf' Hg' Hid Hsf Hsg Ht Ho).
Qed.

Lemma insert_flight_ok (id : uuid) (now : timestamptz) (d : FlightData.t)
      (db db' : Db) (NEW : Flight.t) :
  flights_ok (flights db) ->
  insert_flight id now d db = inr (NEW, db') ->
  flights_ok (flights db').
Proof.
  intros [Hnd Hno]. unfold insert_flight.
  destruct (validate_flight_dates (flights db) (new_flight id now d)) as [e|N1] eqn:V;
    [discriminate|].
  destruct (validate_flight_dates_passes _ _ _ V) as [-> Hall].
  destruct (flights_checks (new_flight id now d)) as [e|N2] eqn:C; [discriminate|].
  apply flights_checks_same in C. subst N2.
  destruct (flights_pkey (flights db) (new_flight id now d)) as [e|N3] eqn:K;
    [discriminate|].
  destruct (flights_pkey_fresh _ _ _ K) as [-> Hfresh].
  intros H; injection H as <- <-. cbn [flights]. split.
  - rewrite map_app. simpl.
    apply NoDup_app; [exact Hnd | constructor; [intros [] | constructor] |].
    intros x Hx [<-|[]]. exact (Hfresh Hx).
  - apply (no_overlap_accepted (flights db) _ (new_flight id now d) Hno Hall).
    intros g Hg. apply in_app_or in Hg. destruct Hg as [Hg|[<-|[]]]; auto.
Qed.

Lemma update_flight_ok (id : uuid) (now : timestamptz) (a : Assignment)
      (db db' : Db) (res : option Flight.t) :
  flights_ok (flights db) ->
  update_flight id now a db = inr (res, db') ->
  flights_ok (flights db').
Proof.
  intros [Hnd Hno]. unfold update_flight.
  destruct (find_flight id (flights db)) as [old|] eqn:F.
  2:{ intros H; injection H as <- <-. split; assumption. }
  destruct (validate_flight_dates (flights db) (set_updated_at now (assign a old)))
    as [e|N1] eqn:V; [discriminate|].
  destruct (validate_flight_dates_passes _ _ _ V) as [-> Hall].
  destruct (flights_checks (set_updated_at now (assign a old))) as [e|N2] eqn:C;
    [discriminate|].
  apply flights_checks_same in C. subst N2.
  intros H; injection H as <- <-. cbn [flights]. split.
  - rewrite replace_flight_ids. exact Hnd.
  - apply (no_overlap_accepted (flights db) _ _ Hno Hall).
    apply replace_flight_In.
Qed.

Lemma delete_flight_ok (id : uuid) (db : Db) :
  flights_ok (flights db) -> flights_ok (flights (delete_flight id db)).
Proof.
  intros [Hnd Hno]. cbn [delete_flight flights]. split.
  - clear Hno. induction (flights db) as [|g fs IH]; simpl; [constructor|].
    inversion Hnd as [|x l Hx Hl]; subst.
    destruct (negb (String.eqb (Flight.id g) id)); simpl; [|apply IH, Hl].
    constructor; [|apply IH, Hl].
    intros Hin. apply Hx. apply in_map_iff in Hin.
    destruct Hin as (h & Hh & Hin). apply filter_In in Hin.
    apply in_map_iff. exists h. tauto.
  - intros f g Hf Hg. apply filter_In in Hf, Hg.
    apply Hno; tauto.
Qed.

Lemma empty_ok : flights_ok (flights empty).
Proof. split; [constructor | intros f g []]. Qed.

Lemma update_each_ok (ids : list uuid) (now : timestamptz) (a : Assignment) :
  forall db db',
    flights_ok (flights db) ->
    update_each ids now a db = inr db' ->
    flights_ok (flights db').
Proof.
  induction ids as [|id ids IH]; intros db db' H; cbn [update_each].
  - intros E; injection E as <-. exact H.
  - destruct (update_flight id now a db) as [e|[res db1]] eqn:E; [discriminate|].
    apply IH. exact (update_flight_ok _ _ _ _ _ _ H E).
Qed.

Lemma execute_ok (db : Db) (s : Statement) :
  flights_ok (flights db) -> flights_ok (flights (execute db s)).
Proof.
  intros H. destruct s as [id now d|id now a|id|now a| |id now a|uid now l]; cbn [execute].
  - destruct (insert_flight id now d db) as [e|[NEW db']] eqn:E; [exact H|].
    exact (insert_flight_ok _ _ _ _ _ _ H E).
  - destruct (update_flight id now a db) as [e|[res db']] eqn:E; [exact H|].
    exact (update_flight_ok _ _ _ _ _ _ H E).
  - apply delete_flight_ok, H.
  - destruct (update_flights now a db) as [e|db'] eqn:E; [exact H|].
    exact (update_each_ok _ _ _ _ _ H E).
  - exact empty_ok.
  - unfold insert_audit_log.
    destruct (find_flight _ _); [exact H | exact H].
  - unfold insert_flight_lock.
    destruct (negb _); [exact H|]. destruct (existsb _ _); [exact H|].
    destruct (find_flight _ _); exact H.
Qed.

Lemma history_ok (ss : list Statement) :
  forall db, flights_ok (flights db) -> flights_ok (flights (history ss db)).
Proof.
  induction ss as [|s ss IH]; intros db H; [exact H|].
  apply IH, execute_ok, H.
Qed.

End OverlapFacts.

Section RetrierInvariant.
Import Classifier Retrier.
Context {JS : JsString.Engine} {S D : Type}.
Variable op : S -> Completion (QueryResult D) * S.
Variable net : nat -> Connectivity.

(** The pass, by cases on what the execution gives. *)
Lemma pass_eq (k : nat) (st : S) (tr : list Event) :
  pass op net k st tr =
  if negb (reaches (net k)) then Return (mkRun Never st (tr ++ [AwaitOnline]))
  else
    let tr' := entry net k tr ++ [Execute k] in
    let st' := snd (op st) in
    match fst (op st) with
    | Never => Return (mkRun Never st' tr')
    | Normal r =>
        match error r with
        | None => Return (mkRun (Normal r) st' tr')
        | Some e =>
            if isRetryableError (onLine_after (net k)) (Some e) then
              if (k <? MAX_RETRIES - 1)%nat
              then Continue (Some e) st' (tr' ++ [Wait (retry_delay k)])
              else Break (Some e) st' tr'
            else Return (mkRun (Normal r) st' tr')
        end
    | Throw e =>
        if ((k <? MAX_RETRIES - 1)%nat &&
            isRetryableError (onLine_after (net k)) (Some e))%bool
        then Continue (Some e) st' (tr' ++ [Wait (retry_delay k)])
        else Break (Some e) st' tr'
    end.
Proof.
  unfold pass, reaches, try_body, bind. rewrite negb_orb.
  destruct (op st) as [out st1]; cbn [fst snd].
  destruct (negb (onLine_before (net k)) && negb (comes_online (net k)))%bool;
    [reflexivity|].
  destruct out as [r|e|]; [destruct (error r) as [e|]|..]; try reflexivity.
  destruct (isRetryableError (onLine_after (net k)) (Some e)) eqn:R; [|reflexivity].
  rewrite R, andb_true_r. reflexivity.
Qed.

Variable P : S -> Prop.
Variable Q : Completion (QueryResult D) -> Prop.
Hypothesis op_keeps : forall st, P st -> P (snd (op st)) /\ Q (fst (op st)).

(** A property of the state that every execution keeps holds after the
    run, and what the run gives comes from an execution in such a state. *)
Lemma retry_loop_invariant (fuel : nat) :
  forall attempt lastError st tr run,
    P st ->
    retry_loop op net fuel attempt lastError st tr = Some run ->
    P (final run) /\
    match settled run with
    | Normal r =>
        Q (Normal r) \/
        ((MAX_RETRIES <= attempt)%nat /\ r = after_loop lastError) \/
        (exists e out, Q out /\ failure out = Some e /\ r = after_loop (Some e))
    | Throw _ => False
    | Never => Q Never \/ exists k, reaches (net k) = false
    end.
Proof.
  induction fuel as [|fuel IH]; intros attempt lastError st tr run HP; [discriminate|].
  cbn [retry_loop].
  destruct (attempt <? MAX_RETRIES)%nat eqn:A.
  2:{ intros H; injection H as <-. cbn [final settled]. split; [exact HP|].
      apply Nat.ltb_ge in A. right. left. split; [exact A | reflexivity]. }
  destruct (op_keeps st HP) as [HP' HQ].
  rewrite pass_eq. cbv zeta.
  destruct (reaches (net attempt)) eqn:R; cbn [negb].
  2:{ intros H; injection H as <-. cbn [final settled]. split; [exact HP|].
      right. exists attempt. exact R. }
  assert (Hgo : forall e,
             failure (fst (op st)) = Some e ->
             forall tr',
               retry_loop op net fuel (Datatypes.S attempt) (Some e) (snd (op st)) tr'
               = Some run ->
               P (final run) /\
               match settled run with
               | Normal r =>
                   Q (Normal r) \/
                   ((MAX_RETRIES <= attempt)%nat /\ r = after_loop lastError) \/
                   (exists e out, Q out /\ failure out = Some e /\ r = after_loop (Some e))
               | Throw _ => False
               | Never => Q Never \/ exists k, reaches (net k) = false
               end).
  { intros e He tr' H. destruct (IH _ _ _ _ _ HP' H) as [HF HS].
    split; [exact HF|].
    destruct (settled run) as [r| |]; [|exact HS|exact HS].
    destruct HS as [HS|[[_ HS]|HS]]; [left; exact HS| |right; right; exact HS].
    right. right. exists e, (fst (op st)). repeat split; assumption. }
  assert (Hstop : forall e,
             failure (fst (op st)) = Some e ->
             Q (Normal (@after_loop D (Some e))) \/
             ((MAX_RETRIES <= attempt)%nat /\
              @after_loop D (Some e) = after_loop lastError) \/
             (exists e' out, Q out /\ failure out = Some e' /\
                             @after_loop D (Some e) = after_loop (Some e'))).
  { intros e He. right. right. exists e, (fst (op st)). repeat split; assumption. }
  destruct (fst (op st)) as [r|e|] eqn:O.
  - destruct (error r) as [e|] eqn:E.
    + destruct (isRetryableError (onLine_after (net attempt)) (Some e)).
      * destruct (attempt <? MAX_RETRIES - 1)%nat.
        -- apply Hgo. exact E.
        -- intros H; injection H as <-. cbn [final settled].
           split; [exact HP' | apply Hstop; exact E].
      * intros H; injection H as <-. cbn [final settled].
        split; [exact HP' | left; exact HQ].
    + intros H; injection H as <-. cbn [final settled].
      split; [exact HP' | left; exact HQ].
  - destruct ((attempt <? MAX_RETRIES - 1)%nat &&
              isRetryableError (onLine_after (net attempt)) (Some e))%bool.
    + apply Hgo. reflexivity.
    + intros H; injection H as <-. cbn [final settled].
      split; [exact HP' | apply Hstop; reflexivity].
  - intros H; injection H as <-. cbn [final settled].
    split; [exact HP' | left; exact HQ].
Qed.

(** The same, for the proxied function. *)
Lemma wrapped_invariant (st : S) :
  P st ->
  P (final (wrapped op net st)) /\
  match settled (wrapped op net st) with
  | Normal r =>
      Q (Normal r) \/
      (exists e out, Q out /\ failure out = Some e /\ r = after_loop (Some e))
  | Throw _ => False
  | Never => Q Never \/ exists k, reaches (net k) = false
  end.
Proof.
  intros HP.
  destruct (retry_loop_invariant _ _ _ _ _ _ HP (wrapped_fuel op net st)) as [HF HS].
  split; [exact HF|].
  destruct (settled (wrapped op net st)) as [r| |]; [|exact HS|exact HS].
  destruct HS as [HS|[[HS _]|HS]]; [left; exact HS| |right; exact HS].
  unfold MAX_RETRIES in HS. lia.
Qed.

End RetrierInvariant.

(** ** The overlap error at the facade *)

Section OverlapAtFacade.
Import JsString Facade Sql Client Retrier Overlap.
Context {JS : JsString.Engine}.

Lemma string_app_assoc (a b c : string) :
  ((a ++ b) ++ c)%string = (a ++ b ++ c)%string.
Proof. induction a as [|x a IH]; simpl; [reflexivity | now rewrite IH]. Qed.

(** What occurs in a text occurs in every text around it. *)
Lemma includes_inside (n pre m post : string) :
  includes n m = true -> includes n (pre ++ m ++ post) = true.
Proof.
  intros H. destruct (includes_split _ _ H) as (p & q & ->).
  rewrite !string_app_assoc, <- (string_app_assoc pre p).
  apply includes_app.
Qed.

(** The text of the exception [validate_flight_dates] raises. *)
Lemma raised_includes (tail : string) :
  includes "dates overlap"
    ("Flight dates overlap with existing flight for tail number " ++ tail) = true.
Proof.
  apply (includes_app "Flight " "dates overlap"
                      (" with existing flight for tail number " ++ tail)).
Qed.

Lemma handleDbError_overlap (e : JsError) (m : string) :
  message e = Some m ->
  includes "dates overlap" m = true ->
  fst (handleDbError (Some e)) =
  "This flight overlaps with another flight for the same aircraft."%string.
Proof.
  intros Hm Hi. unfold handleDbError. cbn [fst]. rewrite Hm.
  rewrite (includes_truthy "dates overlap" m); [|discriminate|exact Hi].
  rewrite Hi. reflexivity.
Qed.

(** The failure object of the retrier keeps the text of the error. *)
Lemma formattedError_includes (e : JsError) (m n : string) :
  message e = Some m -> n <> EmptyString -> includes n m = true ->
  exists m', message (formattedError (Some e)) = Some m' /\ includes n m' = true.
Proof.
  intros Hm Hn Hi. eexists. split; [reflexivity|].
  unfold errorMessage. rewrite Hm, (includes_truthy n m Hn Hi).
  apply includes_inside. exact Hi.
Qed.

Variable env : nat -> Env.
Variable d : FlightData.t.
Variable db0 : Db.
Variable e : JsError.

(** The INSERT is refused with [e] in the database [db0], whatever the
    request brings. *)
Hypothesis refused :
  forall n, insert_flight (fresh (env n)) (now (env n)) d db0 = inl e.

Lemma flights_insert_refused (w : World) :
  db w = db0 ->
  db (snd (flights_insert env d w)) = db0 /\
  match fst (flights_insert env d w) with
  | Normal r => data r = None /\ error r <> None
  | _ => True
  end /\
  (fault (env (served w)) = no_fault ->
   fst (flights_insert env d w) = Normal (mkResult None (Some e))).
Proof.
  intros Hw. unfold flights_insert, request. rewrite Hw, refused.
  destruct (fault (env (served w))) as [|f|f]; cbn [fst snd db].
  - repeat split; discriminate.
  - repeat split; [|discriminate]. destruct f; cbn; repeat split; discriminate.
  - repeat split; [|discriminate]. destruct f; cbn; repeat split; discriminate.
Qed.

Variable net : nat -> Connectivity.

(** The retried INSERT leaves the database as it was and gives no row. *)
Lemma proxied_insert_refused (w : World) :
  db w = db0 ->
  db (snd (proxied (flights_insert env d) net w)) = db0 /\
  match fst (proxied (flights_insert env d) net w) with
  | Normal r => data r = None /\ error r <> None
  | Throw _ => False
  | Never => True
  end.
Proof.
  intros Hw. unfold proxied. cbn [fst snd].
  destruct (wrapped_invariant (flights_insert env d) net
              (fun w' => db w' = db0)
              (fun out => match out with
                          | Normal r => data r = None /\ error r <> None
                          | _ => True
                          end)) with (st := w) as [HF HS].
  { intros st Hst. destruct (flights_insert_refused st Hst) as (H1 & H2 & _).
    split; assumption. }
  { exact Hw. }
  split; [exact HF|].
  destruct (settled (wrapped (flights_insert env d) net w)) as [r|x|];
    [|exact HS|exact I].
  destruct HS as [HS|(e' & out & _ & _ & ->)]; [exact HS|].
  split; [reflexivity | discriminate].
Qed.

(** When no request fails on the way and the device gets online, the
    retried INSERT gives the error of the database, as it is or in the
    failure object of the retrier. *)
Lemma proxied_insert_error (w : World) :
  db w = db0 ->
  (forall n, fault (env n) = no_fault) ->
  (forall k, reaches (net k) = true) ->
  exists r, fst (proxied (flights_insert env d) net w) = Normal r /\
            (error r = Some e \/ error r = Some (formattedError (Some e))).
Proof.
  intros Hw Hcalm Hon. unfold proxied. cbn [fst].
  destruct (wrapped_invariant (flights_insert env d) net
              (fun w' => db w' = db0)
              (fun out => out = Normal (mkResult None (Some e)))) with (st := w)
    as [_ HS].
  { intros st Hst. destruct (flights_insert_refused st Hst) as (H1 & _ & H3).
    split; [exact H1 | apply H3, Hcalm]. }
  { exact Hw. }
  destruct (settled (wrapped (flights_insert env d) net w)) as [r|x|].
  - exists r. split; [reflexivity|].
    destruct HS as [HS|(e' & out & -> & Hf & ->)].
    + injection HS as ->. left. reflexivity.
    + cbn in Hf. injection Hf as <-. right. reflexivity.
  - contradiction.
  - destruct HS as [HS|[k Hk]]; [discriminate|].
    rewrite Hon in Hk. discriminate.
Qed.

End OverlapAtFacade.

(** An INSERT of a flight whose window [start, end) shares an instant with
    that of an active flight of the same tail number is refused by
    [validate_flight_dates] with its "Flight dates overlap ..." exception;
    given the awaitable of its chain, [db.flights.create] then creates
    nothing, returns no flight, and, when no request fails on the way,
    returns the error "This flight overlaps with another flight for the same
    aircraft."; and along every history of statements, run one after the
    other from a table that satisfies it, no two active flights of one tail
    number have overlapping windows. *)
Lemma overlap_refused_and_mapped :
  (forall (db : Sql.Db) (id : uuid) (now : timestamptz) (d : FlightData.t)
          (existing : Flight.t),
     In existing (Sql.flights db) ->
     Flight.status existing = "active" ->
     Flight.tail_number existing = FlightData.tail_number d ->
     Flight.id existing <> id ->
     Overlap.shares_instant (FlightData.start_date d) (FlightData.end_date d)
                            (Flight.start_date existing) (Flight.end_date existing) ->
     Sql.insert_flight id now d db =
     inl (Sql.pg_error "P0001"
            ("Flight dates overlap with existing flight for tail number " ++
             FlightData.tail_number d)%string)) /\
  (forall (JS : JsString.Engine)
          (FlightPatch Company CompanyInput CompanyPatch FlightTask TaskInput
           TaskPatch CompanyTail AuditInput AuditLog : Type)
          (supabase : forall T,
              @Facade.Query Flight.t FlightData.t FlightPatch Company CompanyInput
                            CompanyPatch FlightTask TaskInput TaskPatch CompanyTail
                            AuditInput AuditLog T ->
              Async Client.World (QueryResult T))
          (env : nat -> Client.Env) (net : nat -> Retrier.Connectivity)
          (d : FlightData.t) (w : Client.World) (existing : Flight.t),
     In existing (Sql.flights (Client.db w)) ->
     Flight.status existing = "active" ->
     Flight.tail_number existing = FlightData.tail_number d ->
     (forall n, Flight.id existing <> Client.fresh (env n)) ->
     Overlap.shares_instant (FlightData.start_date d) (FlightData.end_date d)
                            (Flight.start_date existing) (Flight.end_date existing) ->
     (forall w', supabase _ (Facade.flights_insert_select_single d) w' =
                 Retrier.proxied (Client.flights_insert env d) net w') ->
     Client.db (snd (Facade.flights_create supabase d w)) = Client.db w /\
     (forall err, fst (Facade.flights_create supabase d w) <> Throw err) /\
     (forall r, fst (Facade.flights_create supabase d w) = Normal r ->
                data r = None /\ error r <> None) /\
     ((forall n, Client.fault (env n) = Client.no_fault) ->
      (forall k, Retrier.reaches (net k) = true) ->
      fst (Facade.flights_create supabase d w) =
      Normal (mkResult None
                (Some "This flight overlaps with another flight for the same aircraft."%string)))) /\
  (forall (ss : list Overlap.Statement) (db : Sql.Db),
     Overlap.flights_ok (Sql.flights db) ->
     Overlap.no_overlap (Sql.flights (Overlap.history ss db))) /\
  (forall ss : list Overlap.Statement,
     Overlap.no_overlap (Sql.flights (Overlap.history ss Overlap.empty))).
Proof.
  assert (Hback : forall (db : Sql.Db) (id : uuid) (now : timestamptz)
                         (d : FlightData.t) (existing : Flight.t),
             In existing (Sql.flights db) ->
             Flight.status existing = "active" ->
             Flight.tail_number existing = FlightData.tail_number d ->
             Flight.id existing <> id ->
             Overlap.shares_instant (FlightData.start_date d) (FlightData.end_date d)
               (Flight.start_date existing) (Flight.end_date existing) ->
             Sql.insert_flight id now d db =
             inl (Sql.pg_error "P0001"
                    ("Flight dates overlap with existing flight for tail number " ++
                     FlightData.tail_number d)%string)).
  { intros db id now d existing Hin Hs Ht Hid Ho. unfold Sql.insert_flight.
    rewrite (validate_flight_dates_raises _ (Sql.new_flight id now d) existing Hin).
    - reflexivity.
    - apply conflicts_complete; assumption. }
  split; [exact Hback|]. split; [|split].
  - intros JS FP C CI CP FT TI TP CT AI AL supabase env net d w existing
           Hin Hs Ht Hid Ho Hsup.
    set (e := Sql.pg_error "P0001"
                ("Flight dates overlap with existing flight for tail number " ++
                 FlightData.tail_number d)%string).
    assert (Href : forall n, Sql.insert_flight (Client.fresh (env n)) (Client.now (env n))
                                                d (Client.db w) = inl e).
    { intros n. apply (Hback _ _ _ _ existing); auto. }
    unfold Facade.flights_create, Facade.query. rewrite Hsup.
    destruct (proxied_insert_refused env d (Client.db w) e Href net w eq_refl)
      as [Hdb Hres].
    pose proof (proxied_insert_error env d (Client.db w) e Href net w eq_refl) as Hcalm.
    destruct (Retrier.proxied (Client.flights_insert env d) net w) as [c w1].
    cbn [fst snd] in *.
    split; [exact Hdb|]. split; [apply dbQuery_never_throws|]. split.
    + intros r Hr. destruct c as [r0|x|]; [|contradiction|discriminate].
      destruct Hres as [_ Herr]. destruct (error r0) as [e0|] eqn:E; [|contradiction].
      rewrite (dbQuery_error _ _ E) in Hr. injection Hr as <-.
      split; [reflexivity | discriminate].
    + intros Hnf Hon. destruct (Hcalm Hnf Hon) as (r & -> & [E|E]).
      * rewrite (dbQuery_error _ _ E).
        rewrite (handleDbError_overlap e _ eq_refl (raised_includes _)). reflexivity.
      * rewrite (dbQuery_error _ _ E).
        destruct (formattedError_includes e _ "dates overlap" eq_refl)
          as (m' & Hm' & Hi'); [discriminate | apply raised_includes |].
        rewrite (handleDbError_overlap _ _ Hm' Hi'). reflexivity.
  - intros ss db H. apply (history_ok ss db H).
  - intros ss. apply (history_ok ss Overlap.empty empty_ok).
Qed.

(** At a second flight of N123AB that starts while the booked one is under
    way. *)
Lemma overlap_refused_and_mapped_example :
  Sql.insert_flight "f-2" 1000 Samples.second (Client.db Samples.world) =
  inl (Sql.pg_error "P0001"
         "Flight dates overlap with existing flight for tail number N123AB") /\
  fst (Facade.flights_create
         (Samples.client (JS := Examples.engine) Samples.calm Examples.online)
         Samples.second Samples.world) =
  Normal (mkResult None
            (Some "This flight overlaps with another flight for the same aircraft."%string)).
Proof.
  assert (Ho : Overlap.shares_instant 150 250 100 200) by (exists 150; lia).
  split.
  - apply (proj1 overlap_refused_and_mapped
                 (Client.db Samples.world) "f-2"%string 1000 Samples.second Samples.booked).
    + left. reflexivity.
    + reflexivity.
    + reflexivity.
    + discriminate.
    + exact Ho.
  - refine (proj2 (proj2 (proj2
             (proj1 (proj2 overlap_refused_and_mapped)
                    Examples.engine _ _ _ _ _ _ _ _ _ _
                    (Samples.client (JS := Examples.engine) Samples.calm Examples.online)
                    Samples.calm Examples.online Samples.second Samples.world
                    Samples.booked _ _ _ _ _ _))) _ _).
    + left. reflexivity.
    + reflexivity.
    + reflexivity.
    + intros n. discriminate.
    + exact Ho.
    + intros w'. reflexivity.
    + intros n. reflexivity.
    + intros k. reflexivity.
Defined.

(** ** The states a run passes through *)

Section RetrierStates.
Import Retrier.
Context {JS : JsString.Engine} {S D : Type}.
Variable op : S -> Completion (QueryResult D) * S.
Variable net : nat -> Connectivity.

(** The state a run leaves is the state after some executions, one per
    attempt at most. *)
Lemma retry_loop_final (fuel : nat) :
  forall attempt lastError st tr run,
    retry_loop op net fuel attempt lastError st tr = Some run ->
    exists k, (k <= MAX_RETRIES - attempt)%nat /\
              final run = Nat.iter k (fun s => snd (op s)) st.
Proof.
  induction fuel as [|fuel IH]; intros attempt lastError st tr run; [discriminate|].
  cbn [retry_loop].
  destruct (attempt <? MAX_RETRIES)%nat eqn:A.
  2:{ intros H; injection H as <-. exists 0%nat. split; [lia | reflexivity]. }
  apply Nat.ltb_lt in A.
  assert (Hone : exists k, (k <= MAX_RETRIES - attempt)%nat /\
                           snd (op st) = Nat.iter k (fun s => snd (op s)) st).
  { exists 1%nat. split; [lia | reflexivity]. }
  assert (Hgo : forall le' tr',
             retry_loop op net fuel (Datatypes.S attempt) le' (snd (op st)) tr' = Some run ->
             exists k, (k <= MAX_RETRIES - attempt)%nat /\
                       final run = Nat.iter k (fun s => snd (op s)) st).
  { intros le' tr' H. destruct (IH _ _ _ _ _ H) as (k & Hk & ->).
    exists (Datatypes.S k). split; [lia|]. rewrite Nat.iter_succ_r. reflexivity. }
  rewrite pass_eq. cbv zeta.
  destruct (reaches (net attempt)); cbn [negb].
  2:{ intros H; injection H as <-. exists 0%nat. split; [lia | reflexivity]. }
  destruct (fst (op st)) as [r|e|].
  - destruct (error r) as [e|].
    + destruct (Classifier.isRetryableError (onLine_after (net attempt)) (Some e)).
      * destruct (attempt <? MAX_RETRIES - 1)%nat.
        -- apply Hgo.
        -- intros H; injection H as <-. exact Hone.
      * intros H; injection H as <-. exact Hone.
    + intros H; injection H as <-. exact Hone.
  - destruct ((attempt <? MAX_RETRIES - 1)%nat &&
              Classifier.isRetryableError (onLine_after (net attempt)) (Some e))%bool.
    + apply Hgo.
    + intros H; injection H as <-. exact Hone.
  - intros H; injection H as <-. exact Hone.
Qed.

Lemma wrapped_final (st : S) :
  exists k, (k <= MAX_RETRIES)%nat /\
            final (wrapped op net st) = Nat.iter k (fun s => snd (op s)) st.
Proof.
  destruct (retry_loop_final _ _ _ _ _ _ (wrapped_fuel op net st)) as (k & Hk & H).
  exists k. split; [lia | exact H].
Qed.

(** The run of an operation whose first execution succeeds. *)
Lemma wrapped_success (st : S) (r : QueryResult D) :
  reaches (net 0%nat) = true ->
  fst (op st) = Normal r -> error r = None ->
  wrapped op net st = mkRun (Normal r) (snd (op st)) (entry net 0 [] ++ [Execute 0]).
Proof.
  intros Hr Ho He. unfold wrapped. cbn [retry_loop].
  change (0 <? MAX_RETRIES)%nat with true. cbv iota.
  rewrite pass_eq, Hr. cbn [negb]. cbv zeta. rewrite Ho, He. reflexivity.
Qed.

End RetrierStates.

Section AuditFacts.
Import Sql Client Retrier FlightModal.
Context {JS : JsString.Engine}.
Variable env : nat -> Env.

(** The database after one request. *)
Lemma request_db {A B} (returning : A -> option B)
      (sql : uuid -> timestamptz -> Db -> JsError + (A * Db)) (w : World) :
  db (snd (request env returning sql w)) = db w \/
  exists a, sql (fresh (env (served w))) (now (env (served w))) (db w) =
            inr (a, db (snd (request env returning sql w))).
Proof.
  unfold request.
  destruct (fault (env (served w))) as [|f|f];
    destruct (sql (fresh (env (served w))) (now (env (served w))) (db w))
      as [err|[a db']] eqn:E; cbn [snd db]; eauto.
Qed.

(** An UPDATE of a flight keeps the audit log and the ids of the flights. *)
Lemma update_flight_keeps (id : uuid) (t : timestamptz) (a : Assignment)
      (d d' : Db) (res : option Flight.t) :
  update_flight id t a d = inr (res, d') ->
  audit_logs d' = audit_logs d /\
  map Flight.id (flights d') = map Flight.id (flights d).
Proof.
  unfold update_flight.
  destruct (find_flight id (flights d)) as [old|].
  2:{ intros H; injection H as <- <-. split; reflexivity. }
  destruct (validate_flight_dates _ _) as [e|N1]; [discriminate|].
  destruct (flights_checks N1) as [e|N2]; [discriminate|].
  intros H; injection H as <- <-. cbn [audit_logs flights].
  split; [reflexivity | apply replace_flight_ids].
Qed.

(** An INSERT into the audit log adds the row of the entry, and needs the
    flight. *)
Lemma insert_audit_log_adds (id : uuid) (t : timestamptz) (a : AuditInput.t)
      (d d' : Db) (row : AuditLog.t) :
  insert_audit_log id t a d = inr (row, d') ->
  audit_logs d' = audit_logs d ++ [row] /\ records a row /\ flights d' = flights d.
Proof.
  unfold insert_audit_log.
  destruct (find_flight _ _); [|discriminate].
  intros H; injection H as <- <-. cbn [audit_logs flights].
  repeat split; reflexivity.
Qed.

Lemma proxied_never_throws {S D : Type}
      (op : S -> Completion (QueryResult D) * S) (net : nat -> Connectivity)
      (st : S) (e : JsError) :
  fst (proxied op net st) <> Throw e.
Proof.
  unfold proxied. cbn [fst].
  destruct (retry_loop_run op net _ _ _ _ _ _ (wrapped_fuel op net st)) as (H & _).
  apply H.
Qed.

Lemma find_flight_known (id : uuid) (fs : list Flight.t) :
  In id (map Flight.id fs) -> exists r, find_flight id fs = Some r.
Proof.
  induction fs as [|g fs IH]; simpl; [intros []|].
  destruct (String.eqb (Flight.id g) id) eqn:E; [eauto|].
  intros [H|H]; [|exact (IH H)].
  apply String.eqb_neq in E. contradiction.
Qed.

End AuditFacts.

(** ** Chains through the proxy *)

(** A chain of one method reaches the query; a second builder method is
    called on a native promise and throws a TypeError. *)
Lemma chain_of_two_throws (first second : string) (rest : list string) :
  Chain.builder_has first = true ->
  Chain.promise_has second = false ->
  Chain.evaluate Chain.ProxiedBuilder (first :: second :: rest) =
  inl (Chain.not_a_function second).
Proof. intros Hb Hp. cbn. rewrite Hb. cbn. rewrite Hp. reflexivity. Qed.

(** A chain of one builder method goes through: the proxied call is the
    retried query. *)
Lemma chain_of_one_settles {T} (first : string)
      (awaited : Completion (QueryResult T)) :
  Chain.builder_has first = true ->
  Chain.facade_method [first] awaited = Facade.dbQuery awaited.
Proof. intros Hb. unfold Chain.facade_method. cbn. rewrite Hb. reflexivity. Qed.

Lemma facade_method_throws {T} (first second : string) (rest : list string)
      (awaited : Completion (QueryResult T)) :
  Chain.builder_has first = true ->
  Chain.promise_has second = false ->
  Chain.facade_method (first :: second :: rest) awaited =
  Throw (Chain.not_a_function second).
Proof.
  intros Hb Hp. unfold Chain.facade_method.
  rewrite (chain_of_two_throws first second rest Hb Hp). reflexivity.
Qed.

(** C6, at the code: every method of the entity groups of [db] writes two
    builder methods or more after [supabase.from(table)].  Through the
    retrying proxy the second one is called on a native promise, so the
    method throws a TypeError to its caller whatever the backend call gives,
    where the claim has it return a [{data, error}] object; [dbQuery] itself,
    once it is given an awaitable, never throws. *)
Theorem facade_method_raises {T : Type} (m : Chain.Method)
        (awaited : Completion (QueryResult T)) :
  Chain.perform m awaited = Throw (Chain.not_a_function (Chain.second m)) /\
  isTypeError (Chain.not_a_function (Chain.second m)) = true /\
  (forall e, Facade.dbQuery awaited <> Throw e).
Proof.
  split; [destruct m; reflexivity|].
  split; [reflexivity | intros e; apply dbQuery_never_throws].
Qed.

(** C10, at the code: the lookup of the company is the chain [select], [eq],
    [single]; through the retrying proxy [eq] is called on a native promise,
    so [getByCompany] throws a TypeError whatever the lookup gives, where the
    claim has it return [{data: [], error: null}]. *)
Theorem getByCompany_raises {Company CompanyTail : Type}
        (lookup : Completion (QueryResult Company))
        (tails : Company -> Completion (QueryResult (list CompanyTail))) :
  Chain.getByCompany lookup tails = Throw (Chain.not_a_function "eq").
Proof. reflexivity. Qed.

(** C4, at the code: the INSERT of a second flight of N123AB that starts
    while the booked one is under way is refused by [validate_flight_dates],
    and [handleDbError] maps the text of the exception to the overlap
    message; but [db.flights.create] writes the chain [insert], [select],
    [single], and through the retrying proxy [select] is called on a native
    promise: the method throws a TypeError, and the overlap message does not
    reach the caller. *)
Theorem overlap_message_not_surfaced :
  Sql.insert_flight "f-2" 1000 Samples.second (Client.db Samples.world) =
  inl (Sql.pg_error "P0001"
         "Flight dates overlap with existing flight for tail number N123AB") /\
  fst (Facade.handleDbError
         (Some (Sql.pg_error "P0001"
                  "Flight dates overlap with existing flight for tail number N123AB"))) =
  "This flight overlaps with another flight for the same aircraft."%string /\
  forall awaited : Completion (QueryResult Flight.t),
    Chain.perform Chain.flights_create awaited =
    Throw (Chain.not_a_function "select").
Proof.
  split; [reflexivity|]. split; [reflexivity|]. intros awaited. reflexivity.
Qed.

(** ** The flight form through the proxy *)

Section FormFacts.
Import Sql Client Retrier FlightModal.
Context {JS : JsString.Engine}.
Variable env : nat -> Env.

(** The chain throws at its second method; the request of the first one
    has been sent. *)
Lemma through_two_throws {W T} (first second : string) (rest : list string)
      (q : Async W (QueryResult T)) (w : W) :
  Chain.builder_has first = true ->
  Chain.promise_has second = false ->
  Chain.through (first :: second :: rest) q w =
  (Throw (Chain.not_a_function second), snd (q w)).
Proof.
  intros Hb Hp. unfold Chain.through.
  rewrite (chain_of_two_throws first second rest Hb Hp), Hb. reflexivity.
Qed.

(** What every execution keeps, the proxied call keeps. *)
Lemma proxied_keeps {S D : Type} (op : S -> Completion (QueryResult D) * S)
      (net : nat -> Connectivity) (P : S -> Prop) :
  (forall st, P st -> P (snd (op st))) ->
  forall st, P st -> P (snd (proxied op net st)).
Proof.
  intros Hop st HP. unfold proxied. cbn [snd].
  apply (wrapped_invariant op net P (fun _ => True)); [|exact HP].
  intros st' H. split; [now apply Hop | exact I].
Qed.

Lemma update_each_audit (ids : list uuid) (t : timestamptz) (a : Assignment) :
  forall d d', update_each ids t a d = inr d' ->
               audit_logs d' = audit_logs d /\
               map Flight.id (flights d') = map Flight.id (flights d).
Proof.
  induction ids as [|id ids IH]; intros d d'; cbn [update_each].
  - intros H; injection H as <-. split; reflexivity.
  - destruct (update_flight id t a d) as [e|[res d1]] eqn:E; [discriminate|].
    intros H. apply IH in H. apply update_flight_keeps in E.
    destruct H as [H1 H2], E as [E1 E2]. split; congruence.
Qed.

(** The UPDATE without filter keeps the audit log and the ids of the
    flights, and so do the requests that carry it, retried or not. *)
Lemma unfiltered_update_keeps (a : Assignment) (w : World) :
  audit_logs (db (snd (flights_update_unfiltered env a w))) = audit_logs (db w) /\
  map Flight.id (flights (db (snd (flights_update_unfiltered env a w)))) =
  map Flight.id (flights (db w)).
Proof.
  unfold flights_update_unfiltered.
  destruct (request_db env (fun _ : unit => @None Flight.t)
              (fun _ now db => match update_flights now a db with
                               | inl e => inl e
                               | inr db' => inr (tt, db')
                               end) w) as [-> | [u H]]; [split; reflexivity|].
  destruct (update_flights _ a (db w)) as [e|d'] eqn:E; [discriminate|].
  injection H as _ <-. exact (update_each_audit _ _ _ _ _ E).
Qed.

Lemma proxied_update_keeps (a : Assignment) (net : nat -> Connectivity) (w : World) :
  audit_logs (db (snd (proxied (flights_update_unfiltered env a) net w))) =
  audit_logs (db w) /\
  map Flight.id (flights (db (snd (proxied (flights_update_unfiltered env a) net w)))) =
  map Flight.id (flights (db w)).
Proof.
  apply (proxied_keeps (flights_update_unfiltered env a) net
           (fun w' => audit_logs (db w') = audit_logs (db w) /\
                      map Flight.id (flights (db w')) = map Flight.id (flights (db w)))).
  - intros st [H1 H2]. destruct (unfiltered_update_keeps a st) as [H3 H4].
    split; congruence.
  - split; reflexivity.
Qed.

(** The INSERT of a flight keeps the audit log. *)
Lemma insert_flight_audit (id : uuid) (t : timestamptz) (d : FlightData.t)
      (b b' : Db) (NEW : Flight.t) :
  insert_flight id t d b = inr (NEW, b') -> audit_logs b' = audit_logs b.
Proof.
  unfold insert_flight.
  destruct (validate_flight_dates _ _) as [e|N1]; [discriminate|].
  destruct (flights_checks N1) as [e|N2]; [discriminate|].
  destruct (flights_pkey _ N2) as [e|N3]; [discriminate|].
  intros H; injection H as _ <-. reflexivity.
Qed.

Lemma proxied_insert_keeps (d : FlightData.t) (net : nat -> Connectivity) (w : World) :
  audit_logs (db (snd (proxied (flights_insert_only env d) net w))) = audit_logs (db w).
Proof.
  apply (proxied_keeps (flights_insert_only env d) net
           (fun w' => audit_logs (db w') = audit_logs (db w))); [|reflexivity].
  intros st H. rewrite <- H. unfold flights_insert_only.
  destruct (request_db env (fun _ : Flight.t => @None Flight.t)
              (fun id now => insert_flight id now d) st) as [-> | [NEW E]];
    [reflexivity|].
  exact (insert_flight_audit _ _ _ _ _ _ E).
Qed.

(** A request that meets no fault and a statement that goes through. *)
Lemma request_served {A B} (returning : A -> option B)
      (sql : uuid -> timestamptz -> Db -> JsError + (A * Db)) (w : World)
      (a : A) (b' : Db) :
  fault (env (served w)) = no_fault ->
  sql (fresh (env (served w))) (now (env (served w))) (db w) = inr (a, b') ->
  request env returning sql w =
  (Normal (mkResult (returning a) None), mkWorld b' (Datatypes.S (served w))).
Proof. intros Hf Hs. unfold request. rewrite Hf, Hs. reflexivity. Qed.

End FormFacts.

(** C5, at the code: the update branch of [onSubmit] writes the chain
    [update], [eq].  Through the retrying proxy [.update(flightData)] is
    sent as it is, without its filter, and [.eq] is called on a native
    promise: the branch throws a TypeError, [onSubmit] ends in its [catch]
    and the insert into [audit_logs] that follows in the source is never
    reached.  So no submission of an edited flight reports the save, and
    none writes an audit row, whatever the backend does with the update.
    At the sample: the stored flight carries the submitted data, the user
    is told that the save failed, and [audit_logs] is empty, where the claim
    has one row with action 'update'. *)
Theorem update_leaves_no_audit_entry :
  (forall (JS : JsString.Engine) (env : nat -> Client.Env)
          (net_flight net_audit : nat -> Retrier.Connectivity)
          (flight : Flight.t) (user : FlightModal.User)
          (data : FlightModal.FormData) (w : Client.World),
     let d := FlightModal.flightData (Some flight) user data in
     let result := FlightModal.onSubmit env net_flight net_audit (Some flight)
                                        (Normal (Some user)) data w in
     fst result <> Normal FlightModal.saved /\
     Sql.audit_logs (Client.db (snd result)) = Sql.audit_logs (Client.db w) /\
     result =
     if JsDate.getTime (FlightModal.end_date data) <?
        JsDate.getTime (FlightModal.start_date data)
     then (Normal [FlightModal.alert "End date cannot be before start date"], w)
     else (Normal FlightModal.save_failed,
           snd (Retrier.proxied
                  (Client.flights_update_unfiltered env (Sql.set_data d))
                  net_flight w))) /\
  FlightModal.onSubmit (JS := Examples.engine) Samples.calm Examples.online
                       Examples.online (Some Samples.booked)
                       (Normal (Some Samples.ann)) Samples.moved Samples.world =
  (Normal FlightModal.save_failed,
   Client.mkWorld
     (Sql.mkDb
        [Flight.mk "f-1" "N123AB" 300 400 "KJFK" "KLAX" "moved" "Acme Air" "active"
                   0 "u-1" 1000]
        [] [])
     1).
Proof.
  split; [|reflexivity].
  intros JS env net_flight net_audit flight user data w d result.
  assert (Hres : result =
     if JsDate.getTime (FlightModal.end_date data) <?
        JsDate.getTime (FlightModal.start_date data)
     then (Normal [FlightModal.alert "End date cannot be before start date"], w)
     else (Normal FlightModal.save_failed,
           snd (Retrier.proxied
                  (Client.flights_update_unfiltered env (Sql.set_data d))
                  net_flight w))).
  { subst result. unfold FlightModal.onSubmit.
    destruct (JsDate.getTime (FlightModal.end_date data) <?
              JsDate.getTime (FlightModal.start_date data)); [reflexivity|].
    unfold FlightModal.save, FlightModal.update_query.
    rewrite through_two_throws by reflexivity. reflexivity. }
  rewrite Hres.
  destruct (JsDate.getTime (FlightModal.end_date data) <?
            JsDate.getTime (FlightModal.start_date data)).
  - cbn [fst snd]. repeat split. discriminate.
  - cbn [fst snd]. split; [discriminate|]. split; [|reflexivity].
    apply proxied_update_keeps.
Qed.

(* ===================================================================== *)
(** * Further properties *)
(* ===================================================================== *)

(** ** The retrier and the connectivity *)

Section RetrierOnline.
Import Classifier Retrier.
Context {JS : JsString.Engine} {S D : Type}.
Variable op : S -> Completion (QueryResult D) * S.
Variable net : nat -> Connectivity.

Lemma In_Execute_entry (k j : nat) (tr : list Event) :
  In (Execute j) (entry net k tr) -> In (Execute j) tr.
Proof.
  unfold entry. destruct (onLine_before (net k)); [tauto|].
  intros H. apply in_app_or in H. destruct H as [H|[H|[]]]; [exact H|discriminate].
Qed.

Lemma In_Execute_pass (k j : nat) (tr : list Event) :
  In (Execute j) (entry net k tr ++ [Execute k]) -> In (Execute j) tr \/ j = k.
Proof.
  intros H. apply in_app_or in H. destruct H as [H|[H|[]]].
  - left. eapply In_Execute_entry; eauto.
  - right. congruence.
Qed.

Lemma In_Execute_wait (k j : nat) (tr : list Event) (ms : Z) :
  In (Execute j) ((entry net k tr ++ [Execute k]) ++ [Wait ms]) ->
  In (Execute j) tr \/ j = k.
Proof.
  intros H. apply in_app_or in H. destruct H as [H|[H|[]]].
  - now apply In_Execute_pass.
  - discriminate.
Qed.

Lemma retry_loop_executes (fuel : nat) :
  forall attempt lastError st tr run,
    retry_loop op net fuel attempt lastError st tr = Some run ->
    forall j, In (Execute j) (trace run) ->
      In (Execute j) tr \/
      ((attempt <= j < MAX_RETRIES)%nat /\ reaches (net j) = true).
Proof.
  induction fuel as [|fuel IH]; intros attempt lastError st tr run H j Hin;
    [discriminate|].
  cbn [retry_loop] in H.
  destruct (attempt <? MAX_RETRIES)%nat eqn:Hlt.
  2: { injection H as <-. cbn in Hin. now left. }
  apply Nat.ltb_lt in Hlt.
  assert (Hhere : reaches (net attempt) = true ->
                  In (Execute j) tr \/ j = attempt ->
                  In (Execute j) tr \/
                  ((attempt <= j < MAX_RETRIES)%nat /\ reaches (net j) = true)).
  { intros Hr [Hl | ->]; [now left|right]. split; [lia|exact Hr]. }
  rewrite pass_eq in H.
  destruct (reaches (net attempt)) eqn:Hr; cbn [negb] in H; cbv zeta in H.
  2: { injection H as <-. cbn in Hin. apply in_app_or in Hin.
       destruct Hin as [?|[?|[]]]; [now left|discriminate]. }
  assert (Hnext : forall le st' ms run',
             retry_loop op net fuel (Datatypes.S attempt) le st'
               ((entry net attempt tr ++ [Execute attempt]) ++ [Wait ms]) = Some run' ->
             In (Execute j) (trace run') ->
             In (Execute j) tr \/
             ((attempt <= j < MAX_RETRIES)%nat /\ reaches (net j) = true)).
  { intros le st' ms run' Hl Hj.
    destruct (IH _ _ _ _ _ Hl j Hj) as [Hk|[Hk Hk']].
    - apply Hhere; [reflexivity|]. now apply In_Execute_wait in Hk.
    - right. split; [lia|exact Hk']. }
  destruct (fst (op st)) as [r|e|].
  - destruct (error r) as [e|].
    + destruct (isRetryableError (onLine_after (net attempt)) (Some e)).
      * destruct (attempt <? MAX_RETRIES - 1)%nat.
        -- eapply Hnext; eauto.
        -- injection H as <-. cbn in Hin. apply Hhere; [reflexivity|].
           now apply In_Execute_pass.
      * injection H as <-. cbn in Hin. apply Hhere; [reflexivity|].
        now apply In_Execute_pass.
    + injection H as <-. cbn in Hin. apply Hhere; [reflexivity|].
      now apply In_Execute_pass.
  - destruct ((attempt <? MAX_RETRIES - 1)%nat &&
              isRetryableError (onLine_after (net attempt)) (Some e))%bool.
    + eapply Hnext; eauto.
    + injection H as <-. cbn in Hin. apply Hhere; [reflexivity|].
      now apply In_Execute_pass.
  - injection H as <-. cbn in Hin. apply Hhere; [reflexivity|].
    now apply In_Execute_pass.
Qed.

Lemma wrapped_offline (st : S) :
  reaches (net 0%nat) = false -> wrapped op net st = mkRun Never st [AwaitOnline].
Proof.
  intros Hr. unfold wrapped. cbn [retry_loop].
  change (0 <? MAX_RETRIES)%nat with true. cbv iota.
  rewrite pass_eq, Hr. reflexivity.
Qed.

(** The loop from any attempt on: the executions fail retryably until the
    [k]-th, which succeeds. *)
Lemma retry_loop_recovers (r : QueryResult D) (k : nat) :
  forall fuel attempt lastError st tr,
    (attempt + k < MAX_RETRIES)%nat -> (k < fuel)%nat ->
    (forall j, (j < k)%nat ->
       reaches (net (attempt + j)) = true /\
       fails_retryably (net (attempt + j))
         (fst (op (Nat.iter j (fun s => snd (op s)) st))) = true) ->
    reaches (net (attempt + k)) = true ->
    fst (op (Nat.iter k (fun s => snd (op s)) st)) = Normal r ->
    error r = None ->
    exists tr',
      retry_loop op net fuel attempt lastError st tr =
      Some (mkRun (Normal r) (Nat.iter (Datatypes.S k) (fun s => snd (op s)) st) tr') /\
      executions tr' = (executions tr + Datatypes.S k)%nat /\
      delays tr' = delays tr ++ map retry_delay (seq attempt k).
Proof.
  induction k as [|k IH]; intros fuel attempt lastError st tr Hlt Hfuel Hfail Hr Hok He.
  - destruct fuel as [|fuel]; [lia|]. cbn [retry_loop].
    replace (attempt <? MAX_RETRIES)%nat with true
      by (symmetry; apply Nat.ltb_lt; lia).
    rewrite Nat.add_0_r in Hr. cbn [Nat.iter nat_rect] in Hok.
    rewrite pass_eq, Hr. cbn [negb]. cbv zeta. rewrite Hok, He.
    eexists. split; [reflexivity|].
    rewrite executions_app, executions_entry, delays_app, delays_entry.
    cbn. rewrite !app_nil_r. split; [lia|reflexivity].
  - destruct fuel as [|fuel]; [lia|]. cbn [retry_loop].
    replace (attempt <? MAX_RETRIES)%nat with true
      by (symmetry; apply Nat.ltb_lt; lia).
    destruct (Hfail 0%nat ltac:(lia)) as [Hr0 Hf0].
    rewrite Nat.add_0_r in Hr0, Hf0. cbn [Nat.iter nat_rect] in Hf0.
    destruct (pass_fails_retryably op net attempt st tr Hr0 Hf0) as [e [_ Hp]].
    rewrite Hp.
    replace (attempt <? MAX_RETRIES - 1)%nat with true
      by (symmetry; apply Nat.ltb_lt; unfold MAX_RETRIES in *; lia).
    destruct (IH fuel (Datatypes.S attempt) (Some e) (snd (op st))
                 ((entry net attempt tr ++ [Execute attempt]) ++
                  [Wait (retry_delay attempt)])) as [tr' [Hl [Hx Hd]]].
    + lia.
    + lia.
    + intros j Hj. destruct (Hfail (Datatypes.S j) ltac:(lia)) as [Ha Hb].
      rewrite Nat.iter_succ_r in Hb.
      replace (attempt + Datatypes.S j)%nat with (Datatypes.S attempt + j)%nat in Ha, Hb by lia.
      split; assumption.
    + replace (Datatypes.S attempt + k)%nat with (attempt + Datatypes.S k)%nat by lia.
      exact Hr.
    + rewrite Nat.iter_succ_r in Hok. exact Hok.
    + exact He.
    + exists tr'. split.
      * rewrite Hl. rewrite (Nat.iter_succ_r (Datatypes.S k)). reflexivity.
      * rewrite Hx, Hd. rewrite !executions_app, !delays_app, executions_entry, delays_entry.
        cbn. rewrite !app_nil_r. split; [lia|].
        rewrite <- app_assoc. reflexivity.
Qed.

End RetrierOnline.

(** X2: The wrapped operation is executed only by a pass that found the device
    online, or saw it come back online: never while it is offline.  When
    the device is offline at the call and stays so, the operation is not
    executed at all, the backend is left as it was, and the promise of the
    call never settles: the wait for the ['online'] event has no time
    limit. *)
Theorem executes_only_when_online {JS : JsString.Engine} {S D : Type}
        (op : S -> Completion (QueryResult D) * S)
        (net : nat -> Retrier.Connectivity) (st : S) :
  let run := Retrier.wrapped op net st in
  (forall k, In (Retrier.Execute k) (Retrier.trace run) ->
             (k < 3)%nat /\ Retrier.reaches (net k) = true) /\
  (Retrier.reaches (net 0%nat) = false ->
   run = Retrier.mkRun Never st [Retrier.AwaitOnline]).
Proof.
  cbv zeta. split.
  - intros k Hin.
    destruct (retry_loop_executes op net _ _ _ _ _ _ (wrapped_fuel op net st) k Hin)
      as [ [] | [Hk Hr] ].
    split; [unfold Retrier.MAX_RETRIES in Hk; lia|exact Hr].
  - apply wrapped_offline.
Qed.

Lemma executes_only_when_online_witness :
  Retrier.wrapped (JS := Examples.engine) (Examples.always Examples.fetch_failed) Cases.offline 0%nat =
  Retrier.mkRun Never 0%nat [Retrier.AwaitOnline].
Proof.
  apply (executes_only_when_online (JS := Examples.engine) (Examples.always Examples.fetch_failed)
                                   Cases.offline 0%nat).
  reflexivity.
Defined.

(** X3: The retry recovers: when the first [k] executions ([k] at most 2) fail
    with retryable errors and the next one succeeds, the caller receives the
    result of that execution unchanged, the operation has run [k + 1] times
    and the waits were those of the attempts 0 to [k - 1]. *)
Theorem retry_recovers {JS : JsString.Engine} {S D : Type}
        (op : S -> Completion (QueryResult D) * S)
        (net : nat -> Retrier.Connectivity) (st : S)
        (k : nat) (r : QueryResult D) :
  (k < Retrier.MAX_RETRIES)%nat ->
  (forall j, (j < k)%nat ->
     Retrier.reaches (net j) = true /\
     Retrier.fails_retryably (net j)
       (fst (op (Nat.iter j (fun s => snd (op s)) st))) = true) ->
  Retrier.reaches (net k) = true ->
  fst (op (Nat.iter k (fun s => snd (op s)) st)) = Normal r ->
  error r = None ->
  let run := Retrier.wrapped op net st in
  Retrier.settled run = Normal r /\
  Retrier.final run = Nat.iter (Datatypes.S k) (fun s => snd (op s)) st /\
  Retrier.executions (Retrier.trace run) = Datatypes.S k /\
  Retrier.delays (Retrier.trace run) = map Retrier.retry_delay (seq 0 k).
Proof.
  intros Hk Hfail Hr Hok He. cbv zeta.
  destruct (retry_loop_recovers op net r k (Datatypes.S Retrier.MAX_RETRIES)
              0%nat None st []) as [tr' [Hl [Hx Hd]]]; try assumption.
  - unfold Retrier.MAX_RETRIES in *. lia.
  - rewrite (wrapped_fuel op net st) in Hl. injection Hl as ->.
    cbn [Retrier.settled Retrier.final Retrier.trace].
    repeat split; assumption.
Qed.

Lemma retry_recovers_witness :
  let run := Retrier.wrapped (JS := Examples.engine) (Cases.recovers 2 Examples.fetch_failed)
                             Examples.online 0%nat in
  Retrier.settled run = Normal (mkResult (Some tt) None) /\
  Retrier.final run = 3%nat /\
  Retrier.executions (Retrier.trace run) = 3%nat /\
  Retrier.delays (Retrier.trace run) = [1000; 2000].
Proof.
  apply (retry_recovers (JS := Examples.engine) (Cases.recovers 2 Examples.fetch_failed) Examples.online
                        0%nat 2%nat (mkResult (Some tt) None)).
  - unfold Retrier.MAX_RETRIES. lia.
  - intros j Hj. destruct j as [|[|j]]; [split; reflexivity|split; reflexivity|lia].
  - reflexivity.
  - reflexivity.
  - reflexivity.
Defined.

(** ** The messages of the facade *)

Section MessageFacts.
Import JsString Facade Retrier.

(** A needle without the character [d] does not end inside what starts
    with [d]. *)
Lemma prefix_before (d : ascii) (b : string) (n : string) :
  ~ In d (list_ascii_of_string n) ->
  forall m, String.prefix n (m ++ String d b) = String.prefix n m.
Proof.
  induction n as [|c n IH]; intros Hd m; [destruct m; reflexivity|].
  cbn [list_ascii_of_string] in Hd.
  destruct m as [|c' m]; cbn [append String.prefix].
  - destruct (ascii_dec c d) as [->|_]; [|reflexivity].
    exfalso. apply Hd. now left.
  - destruct (ascii_dec c c'); [|reflexivity].
    apply IH. intros H. apply Hd. now right.
Qed.

Lemma includes_before (d : ascii) (b : string) (n : string) :
  n <> EmptyString ->
  ~ In d (list_ascii_of_string n) ->
  forall m, includes n (m ++ String d b) = (includes n m || includes n (String d b))%bool.
Proof.
  intros Hn Hd. induction m as [|c m IH].
  - cbn [append]. rewrite (includes_unfold n EmptyString).
    destruct n; [congruence|]. reflexivity.
  - rewrite (includes_unfold n (String c m)).
    change (String c m ++ String d b)%string with (String c (m ++ String d b)).
    rewrite (includes_unfold n (String c (m ++ String d b))).
    change (String c (m ++ String d b)) with (String c m ++ String d b)%string.
    rewrite (prefix_before d b n Hd (String c m)).
    destruct (String.prefix n (String c m)); [reflexivity|].
    exact IH.
Qed.

(** The text the retrier puts around a message holds none of the four
    phrases the facade looks for, and none straddles its ends. *)
Lemma includes_formatted (n m : string) :
  In n ["dates overlap"; "not found"; "permission denied"; "network"]%string ->
  includes n ("Database operation failed: " ++ m ++
              ". Please check your connection and try again.") =
  includes n m.
Proof.
  intros Hn.
  assert (Hpre : includes n ("Database operation failed: " ++ m ++
                             ". Please check your connection and try again.") =
                 includes n (m ++ ". Please check your connection and try again.")).
  { cbn [In] in Hn.
    destruct Hn as [<-|[<-|[<-|[<-|[]]]]];
      cbn [append];
      repeat (rewrite includes_unfold; cbn [String.prefix];
              match goal with
              | |- context [ascii_dec ?a ?b] =>
                  let v := eval vm_compute in (if ascii_dec a b then true else false) in
                  match v with
                  | true => replace (ascii_dec a b) with (@left (a = b) (a <> b) eq_refl)
                              by (vm_compute; reflexivity)
                  | false => destruct (ascii_dec a b) as [Hab|_]; [discriminate Hab|]
                  end
              | _ => idtac
              end);
      reflexivity. }
  rewrite Hpre.
  change ". Please check your connection and try again."%string
    with (String "."%char " Please check your connection and try again.").
  rewrite includes_before.
  - cbn [In] in Hn.
    destruct Hn as [<-|[<-|[<-|[<-|[]]]]];
      (replace (includes _ (String "."%char _)) with false by (vm_compute; reflexivity));
      apply orb_false_r.
  - cbn [In] in Hn. destruct Hn as [<-|[<-|[<-|[<-|[]]]]]; discriminate.
  - cbn [In] in Hn.
    destruct Hn as [<-|[<-|[<-|[<-|[]]]]]; cbn; intuition discriminate.
Qed.

End MessageFacts.

(** X4: The facade classifies the failure object of the retrier as it would
    the error the retrier caught: the text put around the message,
    ["Database operation failed: ... Please check your connection and try
    again."], changes nothing of the message the user is shown. *)
Theorem handleDbError_after_retrier (lastError : option JsError) :
  fst (Facade.handleDbError (Some (Retrier.formattedError lastError))) =
  fst (Facade.handleDbError lastError).
Proof.
  unfold Facade.handleDbError, Retrier.formattedError, newError.
  cbn [fst message].
  set (pre := "Database operation failed: "%string).
  set (post := ". Please check your connection and try again."%string).
  assert (Ht : JsString.truthy (Some (pre ++ Retrier.errorMessage lastError ++ post)%string) = true)
    by reflexivity.
  rewrite Ht.
  rewrite !(includes_formatted _ (Retrier.errorMessage lastError))
    by (cbn [In]; tauto).
  unfold Retrier.errorMessage.
  destruct lastError as [e|]; [|reflexivity].
  destruct (message e) as [m|]; [|reflexivity].
  destruct (JsString.truthy (Some m)); reflexivity.
Qed.

(** X5: Whatever the query gives, an error the facade returns is one of its
    five fixed messages, and comes without data: no text of the backend
    reaches the caller. *)
Theorem dbQuery_error_messages {T : Type} (q : Completion (QueryResult T))
        (r : DbResult T) (msg : string) :
  Facade.dbQuery q = Normal r -> error r = Some msg ->
  data r = None /\
  In msg [ "This flight overlaps with another flight for the same aircraft.";
           "The requested record was not found.";
           "You do not have permission to perform this action.";
           "Unable to connect to the database. Please check your internet connection.";
           "An error occurred while accessing the database." ]%string.
Proof.
  assert (Hm : forall e,
             In (fst (Facade.handleDbError e))
                [ "This flight overlaps with another flight for the same aircraft.";
                  "The requested record was not found.";
                  "You do not have permission to perform this action.";
                  "Unable to connect to the database. Please check your internet connection.";
                  "An error occurred while accessing the database." ]%string).
  { intros e. unfold Facade.handleDbError. cbn [fst].
    destruct e as [e|]; [|cbn; tauto].
    destruct (message e) as [m|]; [|cbn; tauto].
    destruct (JsString.truthy (Some m)); [|cbn; tauto].
    destruct (JsString.includes "dates overlap" m); [cbn; tauto|].
    destruct (JsString.includes "not found" m); [cbn; tauto|].
    destruct (JsString.includes "permission denied" m); [cbn; tauto|].
    destruct (JsString.includes "network" m); cbn; tauto. }
  intros Hq Hr. destruct q as [qr|err|].
  - destruct (error qr) as [e|] eqn:He.
    + rewrite (dbQuery_error qr e He) in Hq. injection Hq as <-.
      cbn [error data] in *. injection Hr as <-. split; [reflexivity|exact (Hm (Some e))].
    + rewrite (dbQuery_success qr He) in Hq. injection Hq as <-.
      cbn [error] in Hr. discriminate.
  - rewrite dbQuery_thrown in Hq. injection Hq as <-.
    cbn [error data] in *. injection Hr as <-. split; [reflexivity|exact (Hm (Some err))].
  - discriminate.
Qed.

Lemma dbQuery_error_messages_witness :
  data (mkResult (@None unit)
          (Some "You do not have permission to perform this action."%string)) = None /\
  In "You do not have permission to perform this action."%string
     [ "This flight overlaps with another flight for the same aircraft.";
       "The requested record was not found.";
       "You do not have permission to perform this action.";
       "Unable to connect to the database. Please check your internet connection.";
       "An error occurred while accessing the database." ]%string.
Proof.
  apply (dbQuery_error_messages (T := unit) (Throw Examples.permission_denied)
           (mkResult None (Some "You do not have permission to perform this action."%string))
           "You do not have permission to perform this action.");
    reflexivity.
Defined.

(** ** The overlap trigger, exactly *)

Section TriggerFacts.
Import Sql Overlap.

Lemma overlaps_sound (s1 e1 s2 e2 : timestamptz) :
  s1 < e1 -> s2 < e2 ->
  overlaps s1 e1 s2 e2 = true -> shares_instant s1 e1 s2 e2.
Proof.
  intros H1 H2. unfold overlaps, shares_instant.
  destruct (e1 <? s1) eqn:A; [apply Z.ltb_lt in A; lia|].
  destruct (e2 <? s2) eqn:B; [apply Z.ltb_lt in B; lia|].
  destruct (s2 <? s1) eqn:C.
  - intros H. apply Z.ltb_lt in C, H. exists s1. lia.
  - destruct (s1 <? s2) eqn:E.
    + intros H. apply Z.ltb_lt in E, H. exists s2. lia.
    + intros _. apply Z.ltb_ge in C, E. exists s1. lia.
Qed.

Lemma conflicts_sound (NEW r : Flight.t) :
  Flight.start_date NEW < Flight.end_date NEW ->
  Flight.start_date r < Flight.end_date r ->
  conflicts NEW r = true ->
  Flight.tail_number r = Flight.tail_number NEW /\
  Flight.id r <> Flight.id NEW /\
  Flight.status r = "active"%string /\
  shares_instant (Flight.start_date NEW) (Flight.end_date NEW)
                 (Flight.start_date r) (Flight.end_date r).
Proof.
  intros H1 H2 H. unfold conflicts in H.
  apply andb_prop in H. destruct H as [H Ho].
  apply andb_prop in H. destruct H as [H Hs].
  apply andb_prop in H. destruct H as [Ht Hi].
  apply String.eqb_eq in Ht, Hs.
  apply negb_true_iff, String.eqb_neq in Hi.
  repeat split; try assumption.
  now apply overlaps_sound.
Qed.

End TriggerFacts.

(** X6: For flights that end after they start, the trigger refuses a row
    exactly when an active flight of the same tail number, other than the
    row itself, shares an instant with it, the windows read as
    [start <= t < end]; a flight that starts when another ends is
    accepted.  What the trigger accepts it returns unchanged. *)
Theorem validate_flight_dates_exact (fs : list Flight.t) (NEW : Flight.t) :
  Flight.start_date NEW < Flight.end_date NEW ->
  (forall r, In r fs -> Flight.start_date r < Flight.end_date r) ->
  ((exists e, Sql.validate_flight_dates fs NEW = inl e) <->
   (exists r, In r fs /\
              Flight.tail_number r = Flight.tail_number NEW /\
              Flight.id r <> Flight.id NEW /\
              Flight.status r = "active"%string /\
              Overlap.shares_instant (Flight.start_date NEW) (Flight.end_date NEW)
                                     (Flight.start_date r) (Flight.end_date r))) /\
  (Sql.validate_flight_dates fs NEW = inr NEW \/
   Sql.validate_flight_dates fs NEW =
   inl (Sql.pg_error "P0001"
          ("Flight dates overlap with existing flight for tail number " ++
           Flight.tail_number NEW)%string)).
Proof.
  intros HN Hfs. split.
  - split.
    + intros [e He]. unfold Sql.validate_flight_dates in He.
      destruct (existsb (Sql.conflicts NEW) fs) eqn:Hex; [|discriminate].
      apply existsb_exists in Hex. destruct Hex as [r [Hin Hc]].
      exists r. split; [exact Hin|].
      apply conflicts_sound; auto.
    + intros [r [Hin [Ht [Hi [Hs Hsh]]]]].
      eexists. apply (validate_flight_dates_raises fs NEW r Hin).
      now apply conflicts_complete.
  - unfold Sql.validate_flight_dates.
    destruct (existsb (Sql.conflicts NEW) fs); [now right|now left].
Qed.

Lemma validate_flight_dates_exact_witness :
  ((exists e, Sql.validate_flight_dates [Samples.booked]
                (Sql.new_flight "f-2" 1000 Samples.second) = inl e) <->
   (exists r, In r [Samples.booked] /\
              Flight.tail_number r = "N123AB"%string /\
              Flight.id r <> "f-2"%string /\
              Flight.status r = "active"%string /\
              Overlap.shares_instant 150 250
                                     (Flight.start_date r) (Flight.end_date r))).
Proof.
  apply (validate_flight_dates_exact [Samples.booked]
           (Sql.new_flight "f-2" 1000 Samples.second)).
  - reflexivity.
  - intros r [<-|[]]. reflexivity.
Defined.

(** ** Insert, update and lookup *)

Section RowFacts.
Import Sql Overlap.

Lemma find_flight_app (id : uuid) (fs : list Flight.t) (r : Flight.t) :
  find_flight id (fs ++ [r]) =
  match find_flight id fs with
  | Some x => Some x
  | None => if String.eqb (Flight.id r) id then Some r else None
  end.
Proof.
  induction fs as [|x fs IH]; cbn [app find_flight]; [reflexivity|].
  destruct (String.eqb (Flight.id x) id); [reflexivity|exact IH].
Qed.

Lemma find_flight_unknown (id : uuid) (fs : list Flight.t) :
  ~ In id (map Flight.id fs) -> find_flight id fs = None.
Proof.
  intros H. destruct (find_flight id fs) as [r|] eqn:E; [|reflexivity].
  apply find_flight_Some in E. destruct E as [Hin <-].
  exfalso. apply H. now apply in_map.
Qed.

Lemma find_replace_flight (NEW old : Flight.t) (fs : list Flight.t) :
  find_flight (Flight.id NEW) fs = Some old ->
  find_flight (Flight.id NEW) (replace_flight NEW fs) = Some NEW.
Proof.
  induction fs as [|x fs IH]; cbn [find_flight replace_flight]; [discriminate|].
  destruct (String.eqb (Flight.id x) (Flight.id NEW)) eqn:E.
  - intros _. cbn [find_flight]. now rewrite String.eqb_refl.
  - intros H. cbn [find_flight]. rewrite E. now apply IH.
Qed.

Lemma find_replace_other (NEW : Flight.t) (id' : uuid) (fs : list Flight.t) :
  id' <> Flight.id NEW ->
  find_flight id' (replace_flight NEW fs) = find_flight id' fs.
Proof.
  intros Hne. induction fs as [|x fs IH]; cbn [find_flight replace_flight];
    [reflexivity|].
  destruct (String.eqb (Flight.id x) (Flight.id NEW)) eqn:E.
  - apply String.eqb_eq in E. cbn [find_flight].
    replace (String.eqb (Flight.id NEW) id') with false
      by (symmetry; apply String.eqb_neq; congruence).
    replace (String.eqb (Flight.id x) id') with false
      by (symmetry; apply String.eqb_neq; congruence).
    reflexivity.
  - cbn [find_flight]. destruct (String.eqb (Flight.id x) id'); [reflexivity|exact IH].
Qed.

Lemma replace_flight_length (NEW : Flight.t) (fs : list Flight.t) :
  List.length (replace_flight NEW fs) = List.length fs.
Proof.
  induction fs as [|x fs IH]; cbn [replace_flight]; [reflexivity|].
  destruct (String.eqb (Flight.id x) (Flight.id NEW)); cbn [List.length]; congruence.
Qed.

Lemma replace_flight_other (NEW : Flight.t) (fs : list Flight.t) (g : Flight.t) :
  NoDup (map Flight.id fs) ->
  In g (replace_flight NEW fs) ->
  g = NEW \/ (In g fs /\ Flight.id g <> Flight.id NEW).
Proof.
  induction fs as [|x fs IH]; cbn [replace_flight map]; intros Hnd Hin; [destruct Hin|].
  inversion Hnd as [|? ? Hx Hnd']; subst.
  destruct (String.eqb (Flight.id x) (Flight.id NEW)) eqn:E.
  - apply String.eqb_eq in E. destruct Hin as [<-|Hin]; [now left|].
    right. split; [now right|]. intros Heq. apply Hx. rewrite E, <- Heq.
    now apply in_map.
  - apply String.eqb_neq in E. destruct Hin as [<-|Hin].
    + right. split; [now left|exact E].
    + destruct (IH Hnd' Hin) as [->|[Hg Hne]]; [now left|].
      right. split; [now right|exact Hne].
Qed.

Lemma update_flight_found (id : uuid) (now : timestamptz) (a : Assignment)
      (db db' : Db) (NEW : Flight.t) :
  update_flight id now a db = inr (Some NEW, db') ->
  exists old,
    find_flight id (flights db) = Some old /\
    NEW = set_updated_at now (assign a old) /\
    Flight.id NEW = id /\
    db' = mkDb (replace_flight NEW (flights db)) (audit_logs db) (flight_locks db).
Proof.
  unfold update_flight. intros H.
  destruct (find_flight id (flights db)) as [old|] eqn:Hf; [|discriminate].
  destruct (validate_flight_dates (flights db) (set_updated_at now (assign a old)))
    as [e|N1] eqn:Hv; [discriminate|].
  apply validate_flight_dates_passes in Hv. destruct Hv as [-> _].
  destruct (flights_checks (set_updated_at now (assign a old))) as [e|N2] eqn:Hc;
    [discriminate|].
  apply flights_checks_same in Hc. subst N2.
  injection H as <- <-.
  exists old. repeat split.
  apply find_flight_Some in Hf. destruct Hf as [_ Hid].
  cbn [set_updated_at Flight.id]. rewrite assign_id. exact Hid.
Qed.

End RowFacts.

(** X7: A flight that was inserted is found under its id, with the submitted
    values, the id and the timestamps of the defaults; every other id finds
    what it found before, and the other tables are untouched. *)
Theorem insert_then_find (id : uuid) (now : timestamptz) (d : FlightData.t)
        (db db' : Sql.Db) (NEW : Flight.t) :
  Sql.insert_flight id now d db = inr (NEW, db') ->
  NEW = Sql.new_flight id now d /\
  Sql.find_flight id (Sql.flights db) = None /\
  Sql.find_flight id (Sql.flights db') = Some NEW /\
  (forall id', id' <> id ->
     Sql.find_flight id' (Sql.flights db') = Sql.find_flight id' (Sql.flights db)) /\
  Sql.audit_logs db' = Sql.audit_logs db /\
  Sql.flight_locks db' = Sql.flight_locks db.
Proof.
  unfold Sql.insert_flight. intros H.
  destruct (Sql.validate_flight_dates (Sql.flights db) (Sql.new_flight id now d))
    as [e|N1] eqn:Hv; [discriminate|].
  apply validate_flight_dates_passes in Hv. destruct Hv as [-> _].
  destruct (Sql.flights_checks (Sql.new_flight id now d)) as [e|N2] eqn:Hc;
    [discriminate|].
  apply flights_checks_same in Hc. subst N2.
  destruct (Sql.flights_pkey (Sql.flights db) (Sql.new_flight id now d))
    as [e|N3] eqn:Hp; [discriminate|].
  apply flights_pkey_fresh in Hp. destruct Hp as [-> Hfresh].
  injection H as <- <-. cbn [Sql.flights Sql.audit_logs Sql.flight_locks].
  cbn [Sql.new_flight Flight.id] in Hfresh.
  assert (Hnone : Sql.find_flight id (Sql.flights db) = None)
    by now apply find_flight_unknown.
  repeat split.
  - exact Hnone.
  - rewrite find_flight_app, Hnone. cbn [Sql.new_flight Flight.id].
    now rewrite String.eqb_refl.
  - intros id' Hne. rewrite find_flight_app.
    destruct (Sql.find_flight id' (Sql.flights db)); [reflexivity|].
    cbn [Sql.new_flight Flight.id].
    replace (String.eqb id id') with false
      by (symmetry; apply String.eqb_neq; congruence).
    reflexivity.
Qed.

Lemma insert_then_find_witness :
  exists NEW db',
    Sql.insert_flight "f-9" 1000
      (FlightData.mk "Acme Air" "N123AB" 300 400 "KLAX" "KSFO" EmptyString "u-1" "active")
      (Client.db Samples.world) = inr (NEW, db') /\
    Sql.find_flight "f-9" (Sql.flights db') = Some NEW /\
    Sql.find_flight "f-1" (Sql.flights db') = Some Samples.booked.
Proof.
  eexists. eexists. split; [reflexivity|].
  split.
  - apply (insert_then_find "f-9" 1000
             (FlightData.mk "Acme Air" "N123AB" 300 400 "KLAX" "KSFO" EmptyString "u-1" "active")
             (Client.db Samples.world)).
    reflexivity.
  - reflexivity.
Defined.

(** X8: An update that found its row leaves under the id the row the SET list
    gives, with the id and [created_at] of the old row and [updated_at]
    set by the trigger; the table keeps its length, and every other id
    finds what it found before.  An update of an id that is not stored is
    no error and changes nothing. *)
Theorem update_then_find (id : uuid) (now : timestamptz) (a : Sql.Assignment)
        (db : Sql.Db) :
  (forall NEW db',
     Sql.update_flight id now a db = inr (Some NEW, db') ->
     exists old,
       Sql.find_flight id (Sql.flights db) = Some old /\
       NEW = Sql.set_updated_at now (Sql.assign a old) /\
       Sql.find_flight id (Sql.flights db') = Some NEW /\
       Flight.id NEW = id /\
       Flight.created_at NEW = Flight.created_at old /\
       Flight.updated_at NEW = now /\
       List.length (Sql.flights db') = List.length (Sql.flights db) /\
       (forall id', id' <> id ->
          Sql.find_flight id' (Sql.flights db') =
          Sql.find_flight id' (Sql.flights db))) /\
  (Sql.find_flight id (Sql.flights db) = None ->
   Sql.update_flight id now a db = inr (None, db)).
Proof.
  split.
  - intros NEW db' H.
    destruct (update_flight_found id now a db db' NEW H) as [old [Hf [HN [Hid Hdb]]]].
    exists old. subst db'. cbn [Sql.flights].
    split; [exact Hf|]. split; [exact HN|].
    split; [rewrite <- Hid in Hf |- *; now apply (find_replace_flight NEW old)|].
    split; [exact Hid|].
    split; [rewrite HN; destruct a; reflexivity|].
    split; [rewrite HN; reflexivity|].
    split; [apply replace_flight_length|].
    intros id' Hne. apply find_replace_other. congruence.
  - intros Hf. unfold Sql.update_flight. now rewrite Hf.
Qed.

Lemma update_then_find_witness :
  Sql.update_flight "f-7" 1000 (Sql.set_status "cancelled") (Client.db Samples.world) =
  inr (None, Client.db Samples.world).
Proof.
  apply (update_then_find "f-7" 1000 (Sql.set_status "cancelled")
                          (Client.db Samples.world)).
  reflexivity.
Defined.

(** X9: A cancelled flight no longer holds its window: once the update that
    sets the status of a flight to 'cancelled' has gone through, the
    trigger [validate_flight_dates] does not raise for a new flight that
    conflicts with no other stored flight, whatever its dates and its tail
    number. *)
Theorem cancel_frees_window (id id2 : uuid) (now now2 : timestamptz)
        (d : FlightData.t) (db db' : Sql.Db) (f' : Flight.t) :
  NoDup (map Flight.id (Sql.flights db)) ->
  Sql.update_flight id now (Sql.set_status "cancelled") db = inr (Some f', db') ->
  (forall r, In r (Sql.flights db) -> Flight.id r <> id ->
             Sql.conflicts (Sql.new_flight id2 now2 d) r = false) ->
  Sql.validate_flight_dates (Sql.flights db') (Sql.new_flight id2 now2 d) =
  inr (Sql.new_flight id2 now2 d).
Proof.
  intros Hnd Hup Hfree.
  destruct (update_flight_found id now _ db db' f' Hup) as [old [Hf [HN [Hid Hdb]]]].
  assert (Hst : Flight.status f' = "cancelled"%string) by (rewrite HN; reflexivity).
  assert (Hno : existsb (Sql.conflicts (Sql.new_flight id2 now2 d)) (Sql.flights db') = false).
  { destruct (existsb _ (Sql.flights db')) eqn:Hex; [|reflexivity].
    apply existsb_exists in Hex. destruct Hex as [g [Hin Hc]].
    subst db'. cbn [Sql.flights] in Hin.
    destruct (replace_flight_other f' (Sql.flights db) g Hnd Hin) as [->|[Hg Hne]].
    - unfold Sql.conflicts in Hc. rewrite Hst in Hc. cbn in Hc.
      rewrite !andb_false_r in Hc. cbn in Hc. discriminate.
    - rewrite Hfree in Hc; [discriminate|exact Hg|congruence]. }
  unfold Sql.validate_flight_dates. now rewrite Hno.
Qed.

(** The window of the booked flight, once the flight is cancelled. *)
Lemma cancel_frees_window_witness :
  Sql.validate_flight_dates
    [Sql.set_updated_at 500 (Sql.with_status Samples.booked "cancelled")]
    (Sql.new_flight "f-2" 1000 Samples.second) =
  inr (Sql.new_flight "f-2" 1000 Samples.second).
Proof.
  apply (cancel_frees_window "f-1" "f-2" 500 1000 Samples.second
           (Client.db Samples.world)
           (Sql.mkDb [Sql.set_updated_at 500 (Sql.with_status Samples.booked "cancelled")]
                     [] [])
           (Sql.set_updated_at 500 (Sql.with_status Samples.booked "cancelled"))).
  - repeat constructor. cbn. tauto.
  - reflexivity.
  - intros r [<-|[]] Hne. exfalso. apply Hne. reflexivity.
Defined.

(** ** Invariants of the stored rows *)

Section IntegrityFacts.
Import Sql Overlap Integrity.

Lemma history_invariant (P : Db -> Prop) :
  (forall db s, P db -> P (execute db s)) ->
  forall ss db, P db -> P (history ss db).
Proof.
  intros Hstep ss. unfold history.
  induction ss as [|s ss IH]; intros db H; cbn [fold_left]; [exact H|].
  apply IH, Hstep, H.
Qed.

Lemma flights_checks_checked (r r' : Flight.t) :
  flights_checks r = inr r' -> checked r.
Proof.
  unfold flights_checks, checked.
  destruct (flights_dates_check r); cbn [negb]; [|discriminate].
  destruct (flights_airports_check r); cbn [negb]; [|discriminate].
  destruct (flights_status_check r); cbn [negb]; [|discriminate].
  intros _. repeat split.
Qed.

Lemma insert_flight_checked (id : uuid) (now : timestamptz) (d : FlightData.t)
      (db db' : Db) (NEW : Flight.t) :
  Forall checked (flights db) ->
  insert_flight id now d db = inr (NEW, db') ->
  Forall checked (flights db').
Proof.
  unfold insert_flight. intros Hall H.
  destruct (validate_flight_dates (flights db) (new_flight id now d))
    as [e|N1] eqn:Hv; [discriminate|].
  apply validate_flight_dates_passes in Hv. destruct Hv as [-> _].
  destruct (flights_checks (new_flight id now d)) as [e|N2] eqn:Hc; [discriminate|].
  pose proof (flights_checks_checked _ _ Hc) as Hk.
  apply flights_checks_same in Hc. subst N2.
  destruct (flights_pkey (flights db) (new_flight id now d)) as [e|N3] eqn:Hp;
    [discriminate|].
  apply flights_pkey_fresh in Hp. destruct Hp as [-> _].
  injection H as <- <-. cbn [flights].
  apply Forall_app. split; [exact Hall|]. constructor; [exact Hk|constructor].
Qed.

Lemma update_flight_checked (id : uuid) (now : timestamptz) (a : Assignment)
      (db db' : Db) (res : option Flight.t) :
  Forall checked (flights db) ->
  update_flight id now a db = inr (res, db') ->
  Forall checked (flights db').
Proof.
  unfold update_flight. intros Hall H.
  destruct (find_flight id (flights db)) as [old|]; [|injection H as <- <-; exact Hall].
  destruct (validate_flight_dates (flights db) (set_updated_at now (assign a old)))
    as [e|N1] eqn:Hv; [discriminate|].
  apply validate_flight_dates_passes in Hv. destruct Hv as [-> _].
  destruct (flights_checks (set_updated_at now (assign a old))) as [e|N2] eqn:Hc;
    [discriminate|].
  pose proof (flights_checks_checked _ _ Hc) as Hk.
  apply flights_checks_same in Hc. subst N2.
  injection H as <- <-. cbn [flights].
  apply Forall_forall. intros g Hg.
  apply replace_flight_In in Hg. destruct Hg as [->|Hg]; [exact Hk|].
  rewrite Forall_forall in Hall. now apply Hall.
Qed.

Lemma update_each_checked (ids : list uuid) (now : timestamptz) (a : Assignment) :
  forall db db',
    Forall checked (flights db) ->
    update_each ids now a db = inr db' ->
    Forall checked (flights db').
Proof.
  induction ids as [|id ids IH]; intros db db' Hall H; cbn [update_each] in H.
  - injection H as <-. exact Hall.
  - destruct (update_flight id now a db) as [e|[res db1]] eqn:Hu; [discriminate|].
    eapply IH; [|exact H]. eapply update_flight_checked; eauto.
Qed.

Lemma Forall_filter_keeps {A} (P : A -> Prop) (f : A -> bool) (xs : list A) :
  Forall P xs -> Forall P (filter f xs).
Proof.
  rewrite !Forall_forall. intros H x Hx. apply filter_In in Hx. now apply H.
Qed.

Lemma execute_checked (db : Db) (s : Statement) :
  Forall checked (flights db) -> Forall checked (flights (execute db s)).
Proof.
  intros Hall. destruct s as [id now d|id now a|id|now a| |id now a|uid now l];
    cbn [execute].
  - destruct (insert_flight id now d db) as [e|[NEW db']] eqn:H; [exact Hall|].
    eapply insert_flight_checked; eauto.
  - destruct (update_flight id now a db) as [e|[res db']] eqn:H; [exact Hall|].
    eapply update_flight_checked; eauto.
  - cbn [delete_flight flights]. now apply Forall_filter_keeps.
  - destruct (update_flights now a db) as [e|db'] eqn:H; [exact Hall|].
    unfold update_flights in H. eapply update_each_checked; eauto.
  - constructor.
  - unfold insert_audit_log.
    destruct (find_flight (AuditInput.flight_id a) (flights db)); exact Hall.
  - unfold insert_flight_lock.
    destruct (negb _); [exact Hall|].
    destruct (existsb _ (flight_locks db)); [exact Hall|].
    destruct (find_flight _ _); exact Hall.
Qed.

(** The foreign key of [audit_logs]. *)

Lemma update_each_keeps (ids : list uuid) (now : timestamptz) (a : Assignment) :
  forall db db',
    update_each ids now a db = inr db' ->
    audit_logs db' = audit_logs db /\
    map Flight.id (flights db') = map Flight.id (flights db).
Proof.
  induction ids as [|id ids IH]; intros db db' H; cbn [update_each] in H.
  - injection H as <-. split; reflexivity.
  - destruct (update_flight id now a db) as [e|[res db1]] eqn:Hu; [discriminate|].
    apply update_flight_keeps in Hu. destruct Hu as [Ha Hi].
    destruct (IH _ _ H) as [Ha' Hi']. split; congruence.
Qed.

Lemma execute_audit_refs (db : Db) (s : Statement) :
  audit_refs db -> audit_refs (execute db s).
Proof.
  unfold audit_refs. intros Hrefs.
  destruct s as [id now d|id now a|id|now a| |id now a|uid now l]; cbn [execute].
  - destruct (insert_flight id now d db) as [e|[NEW db']] eqn:H; [exact Hrefs|].
    unfold insert_flight in H.
    destruct (validate_flight_dates _ _) as [?|N1]; [discriminate|].
    destruct (flights_checks N1) as [?|N2]; [discriminate|].
    destruct (flights_pkey _ N2) as [?|N3]; [discriminate|].
    injection H as <- <-. cbn [flights audit_logs]. intros x Hx.
    rewrite map_app. apply in_or_app. left. now apply Hrefs.
  - destruct (update_flight id now a db) as [e|[res db']] eqn:H; [exact Hrefs|].
    apply update_flight_keeps in H. destruct H as [Ha Hi].
    intros x Hx. rewrite Hi. apply Hrefs. now rewrite <- Ha.
  - cbn [delete_flight flights audit_logs]. intros x Hx.
    apply filter_In in Hx. destruct Hx as [Hx Hne].
    apply negb_true_iff, String.eqb_neq in Hne.
    specialize (Hrefs x Hx). apply in_map_iff in Hrefs.
    destruct Hrefs as [r [Hr Hin]].
    apply in_map_iff. exists r. split; [exact Hr|].
    apply filter_In. split; [exact Hin|].
    apply negb_true_iff, String.eqb_neq. congruence.
  - destruct (update_flights now a db) as [e|db'] eqn:H; [exact Hrefs|].
    unfold update_flights in H. apply update_each_keeps in H. destruct H as [Ha Hi].
    intros x Hx. rewrite Hi. apply Hrefs. now rewrite <- Ha.
  - cbn. tauto.
  - destruct (insert_audit_log id now a db) as [e|[row db']] eqn:H; [exact Hrefs|].
    unfold insert_audit_log in H.
    destruct (find_flight (AuditInput.flight_id a) (flights db)) as [r|] eqn:Hf;
      [|discriminate].
    injection H as <- <-. cbn [flights audit_logs]. intros x Hx.
    apply in_app_or in Hx. destruct Hx as [Hx|[<-|[]]]; [now apply Hrefs|].
    cbn [AuditLog.flight_id]. apply find_flight_Some in Hf. destruct Hf as [Hin <-].
    now apply in_map.
  - unfold insert_flight_lock.
    destruct (negb _); [exact Hrefs|].
    destruct (existsb _ (flight_locks db)); [exact Hrefs|].
    destruct (find_flight _ _); exact Hrefs.
Qed.

End IntegrityFacts.

(** X10: Every flight the statements of the client have stored satisfies the
    three CHECK constraints: it ends no earlier than it starts, its two
    airports differ, and its status is 'active' or 'cancelled'.  The
    property holds after every history of statements from a table that
    had it, and so from the empty database. *)
Theorem checks_hold_along_history (ss : list Overlap.Statement) (db : Sql.Db) :
  Forall Integrity.checked (Sql.flights db) ->
  Forall Integrity.checked (Sql.flights (Overlap.history ss db)) /\
  Forall Integrity.checked (Sql.flights (Overlap.history ss Overlap.empty)).
Proof.
  intros H. split.
  - revert db H.
    apply (history_invariant (fun db => Forall Integrity.checked (Sql.flights db))).
    intros db s. apply execute_checked.
  - apply (history_invariant (fun db => Forall Integrity.checked (Sql.flights db))).
    + intros db0 s. apply execute_checked.
    + constructor.
Qed.

Lemma checks_hold_along_history_witness :
  Forall Integrity.checked
    (Sql.flights
       (Overlap.history
          [Overlap.InsertFlight "f-3" 1000
             (FlightData.mk "Acme Air" "N123AB" 400 300 "KLAX" "KSFO" EmptyString
                            "u-1" "active");
           Overlap.UpdateFlight "f-1" 2000 (Sql.set_status "archived")]
          (Client.db Samples.world))).
Proof.
  apply (checks_hold_along_history
           [Overlap.InsertFlight "f-3" 1000
              (FlightData.mk "Acme Air" "N123AB" 400 300 "KLAX" "KSFO" EmptyString
                             "u-1" "active");
            Overlap.UpdateFlight "f-1" 2000 (Sql.set_status "archived")]
           (Client.db Samples.world)).
  repeat constructor.
Defined.

(** X11: No audit row is left without its flight: after every history of
    statements, each row of [audit_logs] refers to a stored flight.  The
    insert is refused by the foreign key when the flight is unknown, and
    the deletion of a flight takes its audit rows with it. *)
Theorem audit_rows_have_flights (ss : list Overlap.Statement) (db : Sql.Db) :
  Integrity.audit_refs db ->
  Integrity.audit_refs (Overlap.history ss db) /\
  Integrity.audit_refs (Overlap.history ss Overlap.empty).
Proof.
  intros H. split.
  - revert db H. apply (history_invariant Integrity.audit_refs).
    intros db s. apply execute_audit_refs.
  - apply (history_invariant Integrity.audit_refs).
    + intros db0 s. apply execute_audit_refs.
    + intros a [].
Qed.

Lemma audit_rows_have_flights_witness :
  Integrity.audit_refs
    (Overlap.history
       [Overlap.InsertAuditLog "a-1" 1000
          (FlightModal.create_entry Samples.booked Samples.ann);
        Overlap.DeleteFlight "f-1"]
       (Client.db Samples.world)).
Proof.
  apply (audit_rows_have_flights
           [Overlap.InsertAuditLog "a-1" 1000
              (FlightModal.create_entry Samples.booked Samples.ann);
            Overlap.DeleteFlight "f-1"]
           (Client.db Samples.world)).
  intros a [].
Defined.

(** ** The clean-up of the data before the constraints *)

Section MigrationFacts.
Import Sql Migration.





End MigrationFacts.



(** ** The locks *)

Section LockFacts.
Import Sql.

Lemma stale_mono (t1 t2 : timestamptz) (l : FlightLock.t) :
  t1 <= t2 -> stale t1 l = true -> stale t2 l = true.
Proof.
  unfold stale. intros Ht. destruct (FlightLock.locked_at l) as [t|]; [|discriminate].
  intros H. apply Z.ltb_lt in H. apply Z.ltb_lt. lia.
Qed.

Lemma NoDup_map_filter {A B} (f : A -> B) (p : A -> bool) (xs : list A) :
  NoDup (map f xs) -> NoDup (map f (filter p xs)).
Proof.
  induction xs as [|x xs IH]; cbn [map filter]; intros H; [constructor|].
  inversion H as [|? ? Hx Hnd]; subst.
  destruct (p x); cbn [map]; [|now apply IH].
  constructor; [|now apply IH].
  intros Hin. apply Hx. apply in_map_iff in Hin. destruct Hin as [y [Hy Hin]].
  apply filter_In in Hin. apply in_map_iff. exists y. tauto.
Qed.

Lemma NoDup_snoc {A} (xs : list A) (y : A) :
  NoDup xs -> ~ In y xs -> NoDup (xs ++ [y]).
Proof.
  induction xs as [|x xs IH]; cbn [app]; intros Hnd Hy.
  - constructor; [tauto|constructor].
  - inversion Hnd as [|? ? Hx Hnd']; subst. constructor.
    + intros Hin. apply in_app_or in Hin. destruct Hin as [Hin|[->|[]]].
      * now apply Hx.
      * apply Hy. now left.
    + apply IH; [exact Hnd'|]. intros Hin. apply Hy. now right.
Qed.

End LockFacts.

(** X13: A later clean-up of the locks subsumes an earlier one when it
    reaches at least the same rows, that is, when the same caller runs
    both or the later one is run by a role that row-level security does not
    bind: what the two passes leave, the second at a later time, is what
    the second alone leaves.  In particular a pass repeated by its caller
    at the same time removes nothing more. *)
Theorem cleanup_old_locks_subsumes (r1 r2 : Sql.Role) (t1 t2 : timestamptz)
        (locks : list FlightLock.t) :
  t1 <= t2 ->
  r1 = r2 \/ r2 = Sql.bypassrls ->
  Sql.cleanup_old_locks r2 t2 (Sql.cleanup_old_locks r1 t1 locks) =
  Sql.cleanup_old_locks r2 t2 locks.
Proof.
  intros Ht Hr. unfold Sql.cleanup_old_locks.
  induction locks as [|l locks IH]; [reflexivity|].
  cbn [filter].
  destruct (Sql.stale t1 l && Sql.manages r1 l)%bool eqn:E1; cbn [negb].
  - apply andb_prop in E1. destruct E1 as [Es Em].
    rewrite (stale_mono t1 t2 l Ht Es).
    replace (Sql.manages r2 l) with true
      by (destruct Hr as [<-| ->]; [now rewrite Em|reflexivity]).
    cbn [andb negb]. exact IH.
  - cbn [filter]. destruct (Sql.stale t2 l && Sql.manages r2 l)%bool; cbn [negb];
      [exact IH|]. now rewrite IH.
Qed.

Lemma cleanup_old_locks_subsumes_witness :
  Sql.cleanup_old_locks (Sql.authenticated "u-1") 2000000000
    (Sql.cleanup_old_locks (Sql.authenticated "u-1") 1000000000
       [Samples.ann_lock; Samples.bob_lock;
        FlightLock.mk "f-7" "u-1" "ann@example.com" (Some 1999999999)]) =
  Sql.cleanup_old_locks (Sql.authenticated "u-1") 2000000000
    [Samples.ann_lock; Samples.bob_lock;
     FlightLock.mk "f-7" "u-1" "ann@example.com" (Some 1999999999)].
Proof.
  apply (cleanup_old_locks_subsumes (Sql.authenticated "u-1") (Sql.authenticated "u-1")
                                    1000000000 2000000000).
  - lia.
  - left. reflexivity.
Defined.

(** X14: A signed-in user inserts a lock in the user's own name only.  A
    lock for a flight that has one is refused by the primary key, however
    old the lock it meets and whoever holds it: the clean-up runs after an
    insert that went through, with the rights of the user who made it, so
    the stale lock of another user keeps its flight locked.  An insert that
    goes through is that of a lock in the name of the user, on a stored
    flight; it leaves the new lock and the old ones, less the stale ones of
    that user, at most one for a flight, and the other tables as they
    were. *)
Theorem insert_flight_lock_pkey (uid : uuid) (now : timestamptz) (l : FlightLock.t)
        (db : Sql.Db) :
  (FlightLock.user_id l <> uid ->
   Sql.insert_flight_lock uid now l db =
   inl (Sql.pg_error "42501"
          "new row violates row-level security policy for table flight_locks")) /\
  (forall l0, FlightLock.user_id l = uid ->
              In l0 (Sql.flight_locks db) ->
              FlightLock.flight_id l0 = FlightLock.flight_id l ->
              Sql.insert_flight_lock uid now l db =
              inl (Sql.pg_error "23505"
                     "duplicate key value violates unique constraint flight_locks_pkey")) /\
  (forall db', Sql.insert_flight_lock uid now l db = inr db' ->
     FlightLock.user_id l = uid /\
     In (FlightLock.flight_id l) (map Flight.id (Sql.flights db)) /\
     (forall l', In l' (Sql.flight_locks db') <->
                 (In l' (Sql.flight_locks db) \/ l' = l) /\
                 (Sql.stale now l' = false \/ FlightLock.user_id l' <> uid)) /\
     (NoDup (map FlightLock.flight_id (Sql.flight_locks db)) ->
      NoDup (map FlightLock.flight_id (Sql.flight_locks db'))) /\
     Sql.flights db' = Sql.flights db /\
     Sql.audit_logs db' = Sql.audit_logs db).
Proof.
  unfold Sql.insert_flight_lock. split; [|split].
  - intros Hne.
    replace (String.eqb uid (FlightLock.user_id l)) with false
      by (symmetry; apply String.eqb_neq; congruence).
    reflexivity.
  - intros l0 Hu Hin Hid. rewrite <- Hu, String.eqb_refl. cbn [negb].
    replace (existsb _ (Sql.flight_locks db)) with true; [reflexivity|].
    symmetry. apply existsb_exists. exists l0. split; [exact Hin|].
    now apply String.eqb_eq.
  - intros db' H.
    destruct (String.eqb uid (FlightLock.user_id l)) eqn:Hu; cbn [negb] in H;
      [|discriminate].
    apply String.eqb_eq in Hu.
    destruct (existsb (fun l' => String.eqb (FlightLock.flight_id l')
                                            (FlightLock.flight_id l))
                      (Sql.flight_locks db)) eqn:Hex; [discriminate|].
    destruct (Sql.find_flight (FlightLock.flight_id l) (Sql.flights db)) as [f|] eqn:Hf;
      [|discriminate].
    injection H as <-.
    cbn [Sql.trigger_cleanup_old_locks Sql.flight_locks Sql.flights Sql.audit_logs].
    split; [congruence|].
    split; [apply find_flight_Some in Hf; destruct Hf as [Hin <-]; now apply in_map|].
    split; [|split; [|split; reflexivity]].
    + intros l'. rewrite cleanup_old_locks_keeps, in_app_iff. cbn [In Sql.manages].
      rewrite String.eqb_neq.
      split; intros [H1 H2]; (split; [intuition congruence|]);
        destruct H2 as [H2|H2]; [now left|right; congruence|now left|right; congruence].
    + intros Hnd. unfold Sql.cleanup_old_locks. apply NoDup_map_filter.
      rewrite map_app. cbn [map].
      apply NoDup_snoc; [exact Hnd|].
      intros Hin. apply in_map_iff in Hin. destruct Hin as [l0 [Hid Hin]].
      assert (Ht : existsb (fun l' => String.eqb (FlightLock.flight_id l')
                                                 (FlightLock.flight_id l))
                           (Sql.flight_locks db) = true).
      { apply existsb_exists. exists l0. split; [exact Hin|now apply String.eqb_eq]. }
      congruence.
Qed.

(** Bob cannot lock the booked flight 1000 seconds after ann did. *)
Lemma insert_flight_lock_pkey_witness :
  Sql.insert_flight_lock "u-2" 1000000000
    (FlightLock.mk "f-1" "u-2" "bob@example.com" (Some 1000000000))
    (Sql.mkDb [Samples.booked; Samples.other] [] [Samples.ann_lock]) =
  inl (Sql.pg_error "23505"
         "duplicate key value violates unique constraint flight_locks_pkey").
Proof.
  apply (proj1 (proj2 (insert_flight_lock_pkey "u-2" 1000000000
                  (FlightLock.mk "f-1" "u-2" "bob@example.com" (Some 1000000000))
                  (Sql.mkDb [Samples.booked; Samples.other] [] [Samples.ann_lock])))
               Samples.ann_lock).
  - reflexivity.
  - left. reflexivity.
  - reflexivity.
Defined.

(** ** The start of the session (App, initializeAuth) *)

Section AuthFacts.
Import App.
Context {Session : Type}.
Variable env : nat -> Attempt Session.

Lemma attempts_app (a b : list (AuthEvent Session)) :
  attempts (a ++ b) = (attempts a + attempts b)%nat.
Proof.
  induction a as [|x a IH]; [reflexivity|].
  destruct x; cbn [app attempts]; rewrite IH; reflexivity.
Qed.

Lemma timeouts_app (a b : list (AuthEvent Session)) :
  timeouts (a ++ b) = timeouts a ++ timeouts b.
Proof.
  induction a as [|x a IH]; [reflexivity|].
  destruct x; cbn [app timeouts]; rewrite IH; reflexivity.
Qed.

(** What the [catch] adds: no attempt, and the delay it returns. *)
Lemma on_failure_events (k : nat) :
  attempts (fst (on_failure env k)) = 0%nat /\
  match snd (on_failure env k) with
  | Some d => (k < 3)%nat /\ d = Z.min (1000 * 2 ^ Z.of_nat k) 5000 /\
              timeouts (fst (on_failure env k)) = [d]
  | None => timeouts (fst (on_failure env k)) = []
  end.
Proof.
  unfold on_failure. destruct (mounted_after (env k)); cbn [negb].
  - destruct (k <? 3)%nat eqn:E; cbn.
    + apply Nat.ltb_lt in E. repeat split. exact E.
    + split; reflexivity.
  - cbn. split; reflexivity.
Qed.

Lemma initializeAuth_bound (fuel : nat) :
  forall k, (k <= 3)%nat -> (3 - k < fuel)%nat ->
    exists evs,
      initializeAuth env fuel k = Some evs /\
      (attempts evs <= 4 - k)%nat /\
      exists n, (k + n <= 3)%nat /\
                timeouts evs =
                map (fun j => Z.min (1000 * 2 ^ Z.of_nat j) 5000) (seq k n).
Proof.
  induction fuel as [|fuel IH]; intros k Hk Hfuel; [lia|].
  cbn [initializeAuth].
  destruct (mounted_at_start (env k)); cbn [negb].
  2: { exists []. split; [reflexivity|]. split; [cbn [attempts]; lia|].
       exists 0%nat. split; [lia|reflexivity]. }
  assert (Hstarted :
    exists evs,
      Some ([SetLoading true; SetAuthError None; GetSession k] : list (AuthEvent Session))
      = Some evs /\
      (attempts evs <= 4 - k)%nat /\
      exists n, (k + n <= 3)%nat /\
                timeouts evs =
                map (fun j => Z.min (1000 * 2 ^ Z.of_nat j) 5000) (seq k n)).
  { eexists. split; [reflexivity|]. split; [cbn [attempts]; lia|].
    exists 0%nat. split; [lia|reflexivity]. }
  assert (Hfailed :
    exists evs,
      match on_failure env k with
      | (evs0, Some _) =>
          if mounted_at_timer (env k) then
            match initializeAuth env fuel (Datatypes.S k) with
            | Some rest =>
                Some ([SetLoading true; SetAuthError None; GetSession k] ++ evs0 ++ rest)
            | None => None
            end
          else Some ([SetLoading true; SetAuthError None; GetSession k] ++ evs0)
      | (evs0, None) =>
          Some ([SetLoading true; SetAuthError None; GetSession k] ++ evs0)
      end = Some evs /\
      (attempts evs <= 4 - k)%nat /\
      exists n, (k + n <= 3)%nat /\
                timeouts evs =
                map (fun j => Z.min (1000 * 2 ^ Z.of_nat j) 5000) (seq k n)).
  { pose proof (on_failure_events k) as Hof.
    destruct (on_failure env k) as [evs0 [d|]]; cbn [fst snd] in Hof.
    - destruct Hof as [Ha [Hlt [Hd Ht]]].
      destruct (mounted_at_timer (env k)).
      + destruct (IH (Datatypes.S k)) as [rest [Hr [Hra [n [Hn Hrt]]]]]; [lia|lia|].
        rewrite Hr. eexists. split; [reflexivity|].
        split.
        * rewrite !attempts_app, Ha. cbn [attempts]. lia.
        * exists (Datatypes.S n). split; [lia|].
          rewrite !timeouts_app, Ht, Hrt. cbn [timeouts app seq map].
          now rewrite Hd.
      + eexists. split; [reflexivity|]. split.
        * rewrite attempts_app, Ha. cbn [attempts]. lia.
        * exists 1%nat. split; [lia|].
          rewrite timeouts_app, Ht. cbn [timeouts app seq map]. now rewrite Hd.
    - destruct Hof as [Ha Ht].
      eexists. split; [reflexivity|]. split.
      + rewrite attempts_app, Ha. cbn [attempts]. lia.
      + exists 0%nat. split; [lia|].
        rewrite timeouts_app, Ht. reflexivity. }
  destruct (getSession (env k)) as [r|e|].
  - destruct (session_error r); [exact Hfailed|].
    destruct (mounted_after (env k)); cbn [negb]; [|exact Hstarted].
    eexists. split; [reflexivity|]. split; [cbn [attempts app]; lia|].
    exists 0%nat. split; [lia|reflexivity].
  - exact Hfailed.
  - exact Hstarted.
Qed.

End AuthFacts.

(** X15: However the session service behaves, the start of the session asks for
    the session at most four times, and the waits between the calls are a
    prefix of 1000, 2000 and 4000 ms; the ceiling of 5000 ms in the formula
    is never reached.  Four calls are all there are: the retries end. *)
Theorem initializeAuth_bounded {Session : Type} (env : nat -> App.Attempt Session) :
  exists evs,
    App.initializeAuth env 4 0 = Some evs /\
    (App.attempts evs <= 4)%nat /\
    exists n, (n <= 3)%nat /\ App.timeouts evs = firstn n [1000; 2000; 4000].
Proof.
  destruct (initializeAuth_bound env 4 0%nat) as [evs [H [Ha [n [Hn Ht]]]]]; [lia|lia|].
  exists evs. split; [exact H|]. split; [exact Ha|].
  exists n. split; [lia|]. rewrite Ht.
  destruct n as [|[|[|[|n]]]]; [reflexivity|reflexivity|reflexivity|reflexivity|lia].
Qed.

(** X16: When the session service fails at every call, by a thrown error or by
    an error in its answer, and the view stays mounted, the start of the
    session makes four calls, waits 1000, 2000 and 4000 ms between them,
    and ends with the loading flag off, no session, and the message that
    the authentication service cannot be reached. *)
Theorem initializeAuth_gives_up {Session : Type} (env : nat -> App.Attempt Session) :
  (forall k, (k <= 3)%nat ->
     App.mounted_at_start (env k) = true /\
     App.mounted_after (env k) = true /\
     App.mounted_at_timer (env k) = true /\
     App.fails (App.getSession (env k)) = true) ->
  App.initializeAuth env 4 0 =
  Some [App.SetLoading true; App.SetAuthError None; App.GetSession 0;
        App.ConsoleError "Auth error:"; App.SetTimeout 1000;
        App.SetLoading true; App.SetAuthError None; App.GetSession 1;
        App.ConsoleError "Auth error:"; App.SetTimeout 2000;
        App.SetLoading true; App.SetAuthError None; App.GetSession 2;
        App.ConsoleError "Auth error:"; App.SetTimeout 4000;
        App.SetLoading true; App.SetAuthError None; App.GetSession 3;
        App.ConsoleError "Auth error:";
        App.SetLoading false; App.SetSession None;
        App.SetAuthError
          (Some "Unable to connect to authentication service. Please try again later.")].
Proof.
  intros H.
  destruct (H 0%nat ltac:(lia)) as [A0 [B0 [C0 D0]]].
  destruct (H 1%nat ltac:(lia)) as [A1 [B1 [C1 D1]]].
  destruct (H 2%nat ltac:(lia)) as [A2 [B2 [C2 D2]]].
  destruct (H 3%nat ltac:(lia)) as [A3 [B3 [C3 D3]]].
  cbn [App.initializeAuth]. unfold App.on_failure.
  rewrite A0, A1, A2, A3, B0, B1, B2, B3, C0, C1, C2.
  unfold App.fails in D0, D1, D2, D3.
  destruct (App.getSession (env 0%nat)) as [r0|e0|]; [|clear D0|discriminate].
  1: destruct (App.session_error r0); [clear D0|discriminate].
  all: destruct (App.getSession (env 1%nat)) as [r1|e1|]; [|clear D1|discriminate].
  1,3: destruct (App.session_error r1); [clear D1|discriminate].
  all: destruct (App.getSession (env 2%nat)) as [r2|e2|]; [|clear D2|discriminate].
  1,3,5,7: destruct (App.session_error r2); [clear D2|discriminate].
  all: destruct (App.getSession (env 3%nat)) as [r3|e3|]; [|clear D3|discriminate].
  1,3,5,7,9,11,13,15: destruct (App.session_error r3); [clear D3|discriminate].
  all: reflexivity.
Qed.

Lemma initializeAuth_gives_up_witness :
  App.initializeAuth AuthCases.auth_down 4 0 =
  Some [App.SetLoading true; App.SetAuthError None; App.GetSession 0;
        App.ConsoleError "Auth error:"; App.SetTimeout 1000;
        App.SetLoading true; App.SetAuthError None; App.GetSession 1;
        App.ConsoleError "Auth error:"; App.SetTimeout 2000;
        App.SetLoading true; App.SetAuthError None; App.GetSession 2;
        App.ConsoleError "Auth error:"; App.SetTimeout 4000;
        App.SetLoading true; App.SetAuthError None; App.GetSession 3;
        App.ConsoleError "Auth error:";
        App.SetLoading false; App.SetSession None;
        App.SetAuthError
          (Some "Unable to connect to authentication service. Please try again later.")].
Proof.
  apply (initializeAuth_gives_up AuthCases.auth_down).
  intros k _. repeat split.
Defined.

(** ** The filters and the badges of the main view *)

Section ViewFacts.
Import App.

Lemma filter_all {A} (p : A -> bool) (xs : list A) :
  List.length (filter p xs) = List.length xs -> filter p xs = xs.
Proof.
  induction xs as [|x xs IH]; [reflexivity|].
  cbn [filter]. destruct (p x); cbn [List.length]; intros H.
  - f_equal. apply IH. lia.
  - pose proof (filter_length_le p xs). lia.
Qed.

Lemma truthy_Some (s : string) :
  JsString.truthy (Some s) = false <-> s = EmptyString.
Proof.
  unfold JsString.truthy. rewrite negb_false_iff. apply String.eqb_eq.
Qed.

Lemma matches_spec (f : Filters) (x : Flight.t) :
  matches f x = true <->
  (selectedCompanyFilter f = EmptyString \/
   Flight.company x = selectedCompanyFilter f) /\
  (selectedTailFilter f = EmptyString \/
   Flight.tail_number x = selectedTailFilter f) /\
  (forall d, startDateFilter f = Some d -> d <= JsDate.getTime (Flight.start_date x)) /\
  (forall d, endDateFilter f = Some d -> JsDate.getTime (Flight.end_date x) <= d).
Proof.
  unfold matches.
  destruct (JsString.truthy (Some (selectedCompanyFilter f))) eqn:Tc;
    destruct (JsString.truthy (Some (selectedTailFilter f))) eqn:Tt;
    destruct (startDateFilter f) as [ds|];
    destruct (endDateFilter f) as [de|];
    cbn [andb];
    rewrite ?andb_true_iff, ?String.eqb_eq, ?Z.leb_le;
    try (apply truthy_Some in Tc); try (apply truthy_Some in Tt);
    (split;
     [ intros H; repeat split; try tauto;
       try (intros d Hd; try discriminate; injection Hd as <-; tauto)
     | intros [Hc [Ht [Hs He]]];
       assert (Hc' : JsString.truthy (Some (selectedCompanyFilter f)) = true ->
                     Flight.company x = selectedCompanyFilter f)
         by (destruct Hc as [Hc|Hc]; [rewrite Hc; discriminate|tauto]);
       assert (Ht' : JsString.truthy (Some (selectedTailFilter f)) = true ->
                     Flight.tail_number x = selectedTailFilter f)
         by (destruct Ht as [Ht|Ht]; [rewrite Ht; discriminate|tauto]);
       repeat split; auto ]).
Qed.

End ViewFacts.

(** X17: A flight is shown exactly when it is loaded and passes every filter
    that is set: the company and the tail number are compared for
    equality, and the dates as [Date] values, in whole milliseconds: a
    flight must start no earlier than the first and end no later than the
    second, so a flight that only reaches into the period is hidden, and
    one that ends less than a millisecond after the second date is shown.
    The count the notice "Filters active" compares is that of all flights
    exactly when none is hidden. *)
Theorem filteredFlights_shown (f : App.Filters) (flights : list Flight.t) :
  (forall x,
     In x (App.filteredFlights f flights) <->
     In x flights /\
     (App.selectedCompanyFilter f = EmptyString \/
      Flight.company x = App.selectedCompanyFilter f) /\
     (App.selectedTailFilter f = EmptyString \/
      Flight.tail_number x = App.selectedTailFilter f) /\
     (forall d, App.startDateFilter f = Some d ->
                d <= JsDate.getTime (Flight.start_date x)) /\
     (forall d, App.endDateFilter f = Some d ->
                JsDate.getTime (Flight.end_date x) <= d)) /\
  (List.length (App.filteredFlights f flights) = List.length flights <->
   App.filteredFlights f flights = flights).
Proof.
  unfold App.filteredFlights. split.
  - intros x. rewrite filter_In, matches_spec. reflexivity.
  - split; [apply filter_all|]. intros H. now rewrite H.
Qed.

(** The booked flight ends at 200 microseconds: with the end filter at the
    millisecond 0 it is shown. *)
Lemma filteredFlights_shown_witness :
  In Samples.booked
     (App.filteredFlights (App.mkFilters "Acme Air" EmptyString (Some 0) (Some 0))
                          [Samples.booked]).
Proof.
  apply (filteredFlights_shown (App.mkFilters "Acme Air" EmptyString (Some 0) (Some 0))
                               [Samples.booked]).
  split; [left; reflexivity|].
  split; [right; reflexivity|].
  split; [left; reflexivity|].
  split.
  - intros d Hd. injection Hd as <-. vm_compute. discriminate.
  - intros d Hd. injection Hd as <-. vm_compute. discriminate.
Defined.

Section BadgeFacts.
Import App.

Lemma filter_nil_iff {A} (p : A -> bool) (xs : list A) :
  filter p xs = [] <-> forall x, In x xs -> p x = false.
Proof.
  induction xs as [|x xs IH]; cbn [filter].
  - split; [intros _ y []|reflexivity].
  - destruct (p x) eqn:E.
    + split; [discriminate|]. intros H. specialize (H x (or_introl eq_refl)).
      congruence.
    + rewrite IH. split.
      * intros H y [<-|Hy]; [exact E|now apply H].
      * intros H y Hy. apply H. now right.
Qed.

End BadgeFacts.

(** X18: The badge of a flight: 'Cancelled' exactly for a cancelled flight,
    whatever its tasks; otherwise none when the flight has no task, 'All
    Tasks Complete' when it has tasks and each is completed, and 'Open
    Tasks' exactly when one of its tasks is not completed.  The tasks of
    other flights play no part. *)
Theorem getFlightStatus_badge (tasks : list FlightTask.t) (flight : Flight.t) :
  (App.getFlightStatus tasks flight = Some "Cancelled"%string <->
   Flight.status flight = "cancelled"%string) /\
  (App.getFlightStatus tasks flight = None <->
   Flight.status flight <> "cancelled"%string /\
   forall t, In t tasks -> FlightTask.flight_id t <> Flight.id flight) /\
  (App.getFlightStatus tasks flight = Some "All Tasks Complete"%string <->
   Flight.status flight <> "cancelled"%string /\
   (exists t, In t tasks /\ FlightTask.flight_id t = Flight.id flight) /\
   forall t, In t tasks -> FlightTask.flight_id t = Flight.id flight ->
             FlightTask.completed t = true) /\
  (App.getFlightStatus tasks flight = Some "Open Tasks"%string <->
   Flight.status flight <> "cancelled"%string /\
   exists t, In t tasks /\ FlightTask.flight_id t = Flight.id flight /\
             FlightTask.completed t = false).
Proof.
  unfold App.getFlightStatus.
  set (mine := fun t => String.eqb (FlightTask.flight_id t) (Flight.id flight)).
  destruct (String.eqb (Flight.status flight) "cancelled") eqn:Ec.
  { apply String.eqb_eq in Ec.
    repeat split; try (intros; assumption || reflexivity || discriminate);
      intros [H _]; congruence. }
  apply String.eqb_neq in Ec.
  assert (Hnil : filter mine tasks = [] <->
                 forall t, In t tasks -> FlightTask.flight_id t <> Flight.id flight).
  { rewrite filter_nil_iff. unfold mine. split; intros H t Ht.
    - apply String.eqb_neq. now apply H.
    - apply String.eqb_neq. now apply H. }
  assert (Hall : forallb FlightTask.completed (filter mine tasks) = true <->
                 forall t, In t tasks -> FlightTask.flight_id t = Flight.id flight ->
                           FlightTask.completed t = true).
  { rewrite forallb_forall. split.
    - intros H t Ht Hid. apply H. apply filter_In. split; [exact Ht|].
      unfold mine. now apply String.eqb_eq.
    - intros H t Ht. apply filter_In in Ht. destruct Ht as [Ht Hm].
      apply H; [exact Ht|]. now apply String.eqb_eq. }
  assert (Hsome : filter mine tasks <> [] <->
                  exists t, In t tasks /\ FlightTask.flight_id t = Flight.id flight).
  { split.
    - intros H. destruct (filter mine tasks) as [|t ts] eqn:E; [congruence|].
      assert (Ht : In t (filter mine tasks)) by (rewrite E; now left).
      apply filter_In in Ht. destruct Ht as [Ht Hm].
      exists t. split; [exact Ht|]. now apply String.eqb_eq.
    - intros [t [Ht Hid]] E. exact (proj1 Hnil E t Ht Hid). }
  destruct (filter mine tasks) as [|t0 ts] eqn:E.
  - cbn [List.length Nat.eqb].
    split; [split; [discriminate|congruence]|].
    split; [split; [intros _; split; [exact Ec|now apply Hnil]|reflexivity]|].
    split.
    + split; [discriminate|]. intros [_ [Hex _]]. apply Hsome in Hex. congruence.
    + split; [discriminate|]. intros [_ [t [Ht [Hid _]]]].
      exfalso. exact (proj1 Hnil eq_refl t Ht Hid).
  - cbn [List.length Nat.eqb].
    assert (Hne : t0 :: ts <> []) by discriminate.
    apply Hsome in Hne.
    destruct (forallb FlightTask.completed (t0 :: ts)) eqn:Ef.
    + assert (Hc := proj1 Hall eq_refl).
      split; [split; [discriminate|congruence]|].
      split; [split; [discriminate|]|].
      { intros [_ Hno]. destruct Hne as [t [Ht Hid]]. exfalso. now apply (Hno t). }
      split; [split; [intros _; repeat split; assumption|reflexivity]|].
      split; [discriminate|].
      intros [_ [t [Ht [Hid Hf]]]]. rewrite (Hc t Ht Hid) in Hf. discriminate.
    + split; [split; [discriminate|congruence]|].
      split; [split; [discriminate|]|].
      { intros [_ Hno]. destruct Hne as [t [Ht Hid]]. exfalso. now apply (Hno t). }
      split.
      * split; [discriminate|]. intros [_ [_ Hc]]. apply Hall in Hc. congruence.
      * split; [|reflexivity]. intros _. split; [exact Ec|].
        assert (Hx : exists t, In t (t0 :: ts) /\ FlightTask.completed t = false).
        { clear - Ef. induction (t0 :: ts) as [|y ys IH]; [discriminate|].
          cbn [forallb] in Ef. destruct (FlightTask.completed y) eqn:Ey.
          - cbn [andb] in Ef. destruct (IH Ef) as [t [Ht Hf]].
            exists t. split; [now right|exact Hf].
          - exists y. split; [now left|exact Ey]. }
        destruct Hx as [t [Ht Hf]]. rewrite <- E in Ht.
        apply filter_In in Ht. destruct Ht as [Ht Hm].
        exists t. split; [exact Ht|]. split; [now apply String.eqb_eq|exact Hf].
Qed.

Lemma getFlightStatus_badge_witness :
  App.getFlightStatus AuthCases.tasks Samples.booked = Some "Open Tasks"%string.
Proof.
  apply (getFlightStatus_badge AuthCases.tasks Samples.booked).
  split; [discriminate|].
  exists (FlightTask.mk "t-2" "f-1" "Catering" false 0 "u-1" None).
  split; [right; left; reflexivity|]. split; reflexivity.
Defined.

(** ** The load of the main view (App, fetchData) *)

(** X19: A load that settles ends with the loading flag off, whichever of its
    calls failed and however; and the tasks are set only by a load that
    has set the flights and the companies before them, in that order,
    having met no error. *)
Theorem fetchData_settles {Company : Type}
        (flights_getAll : Completion (DbResult (list Flight.t)))
        (companies_getAll : Completion (DbResult (list Company)))
        (tasks_getByFlight : nat -> uuid -> Completion (DbResult (list FlightTask.t))) :
  let run := App.fetchData flights_getAll companies_getAll tasks_getByFlight in
  (snd run = true ->
   exists evs, fst run = App.SetError None :: App.SetLoadingData true :: evs ++
                         [App.SetLoadingData false]) /\
  (forall ts, In (App.SetTasks ts) (fst run) ->
     exists fs cs,
       fst run = [App.SetError None; App.SetLoadingData true; App.SetFlights fs;
                  App.SetCompanies cs; App.SetTasks ts; App.SetLoadingData false]).
Proof.
  cbv zeta. unfold App.fetchData, App.try_block.
  destruct flights_getAll as [r1|e1|]; cbn [fst snd app].
  2: { split; [intros _; exists [App.SetError (message e1)]; reflexivity|].
       intros ts [H|[H|[H|[H|[]]]]]; discriminate. }
  2: { split; [discriminate|]. intros ts [H|[H|[]]]; discriminate. }
  destruct (JsString.truthy (error r1)); cbn [fst snd app].
  { split; [intros _; exists [App.SetError (error r1)]; reflexivity|].
    intros ts [H|[H|[H|[H|[]]]]]; discriminate. }
  destruct companies_getAll as [r2|e2|]; cbn [fst snd app].
  2: { split; [intros _; eexists [_; _]; reflexivity|].
       intros ts [H|[H|[H|[H|[H|[]]]]]]; discriminate. }
  2: { split; [discriminate|]. intros ts [H|[H|[H|[]]]]; discriminate. }
  destruct (JsString.truthy (error r2)); cbn [fst snd app].
  { split; [intros _; eexists [_; _]; reflexivity|].
    intros ts [H|[H|[H|[H|[H|[]]]]]]; discriminate. }
  destruct (App.fetch_tasks tasks_getByFlight 0 (App.or_empty (data r1)) [])
    as [allTasks|e3|]; cbn [fst snd app].
  - split; [intros _; eexists [_; _; _]; reflexivity|].
    intros ts [H|[H|[H|[H|[H|[H|[]]]]]]]; try discriminate.
    injection H as <-. eexists. eexists. reflexivity.
  - split; [intros _; eexists [_; _; _]; reflexivity|].
    intros ts [H|[H|[H|[H|[H|[H|[]]]]]]]; discriminate.
  - split; [discriminate|]. intros ts [H|[H|[H|[H|[]]]]]; discriminate.
Qed.

Lemma fetchData_settles_witness :
  exists evs,
    fst (App.fetchData (Company := unit)
           (Normal (mkResult None (Some "The requested record was not found."%string)))
           Never (fun _ _ => Never)) =
    App.SetError None :: App.SetLoadingData true :: evs ++ [App.SetLoadingData false].
Proof.
  apply (fetchData_settles (Company := unit)
           (Normal (mkResult None (Some "The requested record was not found."%string)))
           Never (fun _ _ => Never)).
  reflexivity.
Defined.

(** X20: With the client as it is, the main view never loads: the first call
    of the load, [db.flights.getAll()], evaluates its chain through the
    retrying proxy and throws where the chain is written, so the load sets
    the message of that TypeError as its error and turns the loading flag
    off, without setting flights, companies or tasks, whatever the backend
    would answer. *)
Theorem fetchData_through_proxy {Company : Type}
        (awaited : Completion (QueryResult (list Flight.t)))
        (companies_getAll : Completion (DbResult (list Company)))
        (tasks_getByFlight : nat -> uuid -> Completion (DbResult (list FlightTask.t))) :
  App.fetchData (Chain.perform Chain.flights_getAll awaited)
                companies_getAll tasks_getByFlight =
  ([App.SetError None; App.SetLoadingData true;
    App.SetError (message (Chain.not_a_function "order"));
    App.SetLoadingData false], true).
Proof. reflexivity. Qed.

(** ** The tail numbers of the company dialog *)

Section TailFacts.
Import CompanyModal.

Lemma includes_In (tails : list string) (x : string) :
  includes tails x = true <-> In x tails.
Proof.
  unfold includes. rewrite existsb_exists. split.
  - intros [y [Hy He]]. apply String.eqb_eq in He. now subst.
  - intros H. exists x. split; [exact H|apply String.eqb_refl].
Qed.

Lemma filter_absent (x : string) (xs : list string) :
  ~ In x xs -> filter (fun t => negb (String.eqb t x)) xs = xs.
Proof.
  induction xs as [|y xs IH]; cbn [filter]; intros H; [reflexivity|].
  replace (String.eqb y x) with false.
  - cbn [negb]. f_equal. apply IH. intros Hin. apply H. now right.
  - symmetry. apply String.eqb_neq. intros ->. apply H. now left.
Qed.

End TailFacts.

(** X21: The list of tail numbers of the dialog stays free of repetitions and
    of empty entries under the two handlers: [addTail] adds the typed
    value at the end only if it is not empty and not yet listed, and
    [removeTail] leaves no occurrence of the tail it is given.  Removing a
    tail number that was just added restores the list. *)
Theorem tails_stay_distinct (s : CompanyModal.State) (tail : string) :
  NoDup (CompanyModal.tails s) ->
  NoDup (CompanyModal.tails (CompanyModal.addTail s)) /\
  NoDup (CompanyModal.tails (CompanyModal.removeTail tail s)) /\
  ~ In tail (CompanyModal.tails (CompanyModal.removeTail tail s)) /\
  (~ In EmptyString (CompanyModal.tails s) ->
   ~ In EmptyString (CompanyModal.tails (CompanyModal.addTail s))) /\
  (CompanyModal.newTail s <> EmptyString ->
   ~ In (CompanyModal.newTail s) (CompanyModal.tails s) ->
   CompanyModal.tails (CompanyModal.addTail s) =
   CompanyModal.tails s ++ [CompanyModal.newTail s] /\
   CompanyModal.tails
     (CompanyModal.removeTail (CompanyModal.newTail s) (CompanyModal.addTail s)) =
   CompanyModal.tails s).
Proof.
  intros Hnd. unfold CompanyModal.addTail, CompanyModal.removeTail.
  cbn [CompanyModal.tails].
  destruct (JsString.truthy (Some (CompanyModal.newTail s))) eqn:Et;
    destruct (CompanyModal.includes (CompanyModal.tails s) (CompanyModal.newTail s)) eqn:Ei;
    cbn [andb negb CompanyModal.tails].
  all: split; [try exact Hnd|].
  all: try (apply NoDup_snoc; [exact Hnd|];
            intros Hin; apply includes_In in Hin; congruence).
  all: split; [now apply NoDup_filter|].
  all: split; [intros Hin; apply filter_In in Hin; destruct Hin as [_ Hin];
               rewrite String.eqb_refl in Hin; discriminate|].
  all: split.
  all: try (intros Hne Hin; exact (Hne Hin)).
  - intros Hne Hno. exfalso. apply Hno. now apply includes_In.
  - intros He Hin. apply in_app_or in Hin. destruct Hin as [Hin|[Hin|[]]]; [tauto|].
    apply truthy_Some in Hin. congruence.
  - intros Hne Hno. split; [reflexivity|].
    rewrite filter_app. cbn [filter]. rewrite String.eqb_refl. cbn [negb].
    rewrite app_nil_r. now apply filter_absent.
  - intros Hne _. exfalso. apply Hne. now apply truthy_Some.
  - intros Hne _. exfalso. apply Hne. now apply truthy_Some.
Qed.

Lemma tails_stay_distinct_witness :
  NoDup (CompanyModal.tails
           (CompanyModal.addTail (CompanyModal.mkState ["N123AB"; "N55XY"] "N123AB"))) /\
  NoDup (CompanyModal.tails
           (CompanyModal.addTail (CompanyModal.mkState ["N123AB"; "N55XY"] "N9")))%string.
Proof.
  split.
  - apply (tails_stay_distinct (CompanyModal.mkState ["N123AB"; "N55XY"] "N123AB")
                               EmptyString).
    repeat constructor; cbn; intuition discriminate.
  - apply (tails_stay_distinct (CompanyModal.mkState ["N123AB"; "N55XY"] "N9")
                               EmptyString).
    repeat constructor; cbn; intuition discriminate.
Defined.

(** ** The handlers of the flight form, with the client as it is *)

(** X23: A new flight submitted with the client as it is: the chain
    [insert], [select], [single] throws at [select], once the proxied
    [insert] has sent its request.  For a form whose end date is not before
    its start date and a signed-in user, [onSubmit] ends in its [catch] with
    the alert "Error saving flight. Please try again.", without [onSuccess]
    or [onClose]; the backend is left as the retried INSERT leaves it, and
    no audit row is written.  In particular, when the first request meets
    no fault and the INSERT goes through, the flight is stored while the
    user is told that the save failed. *)
Theorem onSubmit_through_proxy {JS : JsString.Engine} (env : nat -> Client.Env)
        (net_flight net_audit : nat -> Retrier.Connectivity)
        (user : FlightModal.User) (data : FlightModal.FormData) (w : Client.World) :
  (JsDate.getTime (FlightModal.end_date data) <?
   JsDate.getTime (FlightModal.start_date data)) = false ->
  let d := FlightModal.flightData None user data in
  let result := FlightModal.onSubmit env net_flight net_audit None
                                     (Normal (Some user)) data w in
  fst result = Normal FlightModal.save_failed /\
  snd result = snd (Retrier.proxied (Client.flights_insert_only env d) net_flight w) /\
  Sql.audit_logs (Client.db (snd result)) = Sql.audit_logs (Client.db w) /\
  (forall NEW db',
     Retrier.reaches (net_flight 0%nat) = true ->
     Client.fault (env (Client.served w)) = Client.no_fault ->
     Sql.insert_flight (Client.fresh (env (Client.served w)))
                       (Client.now (env (Client.served w))) d (Client.db w) =
     inr (NEW, db') ->
     snd result = Client.mkWorld db' (Datatypes.S (Client.served w))).
Proof.
  intros Hd d result.
  assert (Hres : result =
            (Normal FlightModal.save_failed,
             snd (Retrier.proxied (Client.flights_insert_only env d) net_flight w))).
  { subst result. unfold FlightModal.onSubmit. rewrite Hd.
    unfold FlightModal.save, FlightModal.insert_query.
    rewrite through_two_throws by reflexivity. reflexivity. }
  rewrite Hres. cbn [fst snd].
  split; [reflexivity|]. split; [reflexivity|].
  split; [apply proxied_insert_keeps|].
  intros NEW db' Hr Hf Hs. unfold Retrier.proxied. cbn [snd].
  pose proof (request_served env (fun _ : Flight.t => @None Flight.t)
                (fun id now => Sql.insert_flight id now d) w NEW db' Hf Hs) as Hq.
  fold (Client.flights_insert_only env d) in Hq.
  rewrite (wrapped_success (Client.flights_insert_only env d) net_flight w
             (mkResult None None) Hr);
    [rewrite Hq; reflexivity | rewrite Hq; reflexivity | reflexivity].
Qed.

(** A new flight of another aircraft, submitted by ann. *)
Lemma onSubmit_through_proxy_witness :
  FlightModal.onSubmit (JS := Examples.engine) Samples.calm Examples.online
                       Examples.online None (Normal (Some Samples.ann))
                       (FlightModal.mkForm "Acme Air" "N55XY" 300 400 "KBOS" "KORD"
                                           EmptyString)
                       Samples.world =
  (Normal FlightModal.save_failed,
   Client.mkWorld
     (Sql.mkDb
        [Samples.booked;
         Flight.mk "f-2" "N55XY" 300 400 "KBOS" "KORD" EmptyString "Acme Air" "active"
                   1000 "u-1" 1000]
        [] [])
     1).
Proof.
  pose proof (onSubmit_through_proxy (JS := Examples.engine) Samples.calm
                Examples.online Examples.online Samples.ann
                (FlightModal.mkForm "Acme Air" "N55XY" 300 400 "KBOS" "KORD"
                                    EmptyString)
                Samples.world eq_refl) as H.
  cbv zeta in H. destruct H as (H1 & _ & _ & H4).
  apply injective_projections.
  - exact H1.
  - apply (H4 (Flight.mk "f-2" "N55XY" 300 400 "KBOS" "KORD" EmptyString "Acme Air"
                         "active" 1000 "u-1" 1000)); reflexivity.
Defined.

(** X24: The cancellation with the client as it is: the chain [update],
    [eq] throws at [eq], once the proxied [update] has sent its request,
    which has no filter.  A confirmed cancellation ends in the [catch] of
    [handleCancel] with the alert "Error cancelling flight. Please try
    again.", without [onSuccess] or [onClose]; the backend is left as the
    retried UPDATE of every flight leaves it, which keeps the ids of the
    flights and the audit log; when the first request meets no fault and the
    UPDATE goes through, every flight is as that statement leaves it.
    Without a flight or without confirmation nothing is done.  At the
    sample, cancelling the booked flight cancels the other flight too. *)
Theorem handleCancel_through_proxy :
  (forall (JS : JsString.Engine) (env : nat -> Client.Env)
          (net_flight : nat -> Retrier.Connectivity)
          (flight : option Flight.t) (confirmed : bool) (w : Client.World),
     let result := FlightModal.handleCancel env net_flight flight confirmed w in
     let sent := Retrier.proxied
                   (Client.flights_update_unfiltered env (Sql.set_status "cancelled"))
                   net_flight w in
     match flight with
     | Some _ =>
         if confirmed then
           result = (Normal FlightModal.cancel_failed, snd sent) /\
           Sql.audit_logs (Client.db (snd result)) = Sql.audit_logs (Client.db w) /\
           map Flight.id (Sql.flights (Client.db (snd result))) =
           map Flight.id (Sql.flights (Client.db w)) /\
           (forall db',
              Retrier.reaches (net_flight 0%nat) = true ->
              Client.fault (env (Client.served w)) = Client.no_fault ->
              Sql.update_flights (Client.now (env (Client.served w)))
                                 (Sql.set_status "cancelled") (Client.db w) = inr db' ->
              snd result = Client.mkWorld db' (Datatypes.S (Client.served w)))
         else result = (Normal [], w)
     | None => result = (Normal [], w)
     end) /\
  FlightModal.handleCancel (JS := Examples.engine) Samples.calm Examples.online
                           (Some Samples.booked) true
                           (Client.mkWorld (Sql.mkDb [Samples.booked; Samples.other] [] [])
                                           0) =
  (Normal FlightModal.cancel_failed,
   Client.mkWorld
     (Sql.mkDb
        [Sql.set_updated_at 1000 (Sql.with_status Samples.booked "cancelled");
         Sql.set_updated_at 1000 (Sql.with_status Samples.other "cancelled")]
        [] [])
     1).
Proof.
  split; [|reflexivity].
  intros JS env net_flight flight confirmed w result sent.
  destruct flight as [f|]; [|reflexivity].
  destruct confirmed; [|reflexivity].
  assert (Hres : result = (Normal FlightModal.cancel_failed, snd sent)).
  { subst result sent. unfold FlightModal.handleCancel, FlightModal.cancel_query.
    cbn [negb]. rewrite through_two_throws by reflexivity. reflexivity. }
  rewrite Hres. cbn [fst snd]. subst sent.
  split; [reflexivity|].
  split; [apply proxied_update_keeps|].
  split; [apply proxied_update_keeps|].
  intros db' Hr Hf Hs. unfold Retrier.proxied. cbn [snd].
  assert (Hq : Client.flights_update_unfiltered env (Sql.set_status "cancelled") w =
               (Normal (mkResult None None),
                Client.mkWorld db' (Datatypes.S (Client.served w)))).
  { unfold Client.flights_update_unfiltered.
    apply (request_served env (fun _ : unit => @None Flight.t) _ w tt db' Hf).
    now rewrite Hs. }
  rewrite (wrapped_success _ net_flight w (mkResult None None) Hr);
    [rewrite Hq; reflexivity | rewrite Hq; reflexivity | reflexivity].
Qed.


(** ** The tail numbers by company (CompanyTable, fetchTails) *)

Section GroupFacts.
Import CompanyTable.

Lemma get_push (acc : Groups) (k c : uuid) (tail : CompanyTail.t) :
  get (push acc k tail) c =
  if String.eqb k c
  then Some (match get acc c with Some ts => ts ++ [tail] | None => [tail] end)
  else get acc c.
Proof.
  induction acc as [|[k' ts] acc IH]; cbn [push get].
  - destruct (String.eqb k c); reflexivity.
  - destruct (String.eqb k' k) eqn:E; cbn [get].
    + apply String.eqb_eq in E. subst k'.
      destruct (String.eqb k c); reflexivity.
    + destruct (String.eqb k' c) eqn:E'.
      * apply String.eqb_eq in E'. subst k'.
        replace (String.eqb k c) with false; [reflexivity|].
        symmetry. apply String.eqb_neq. apply String.eqb_neq in E. congruence.
      * exact IH.
Qed.

Lemma keys_push (acc : Groups) (k : uuid) (tail : CompanyTail.t) :
  map fst (push acc k tail) =
  if existsb (String.eqb k) (map fst acc) then map fst acc else map fst acc ++ [k].
Proof.
  induction acc as [|[k' ts] acc IH]; cbn [push map fst existsb app]; [reflexivity|].
  rewrite (String.eqb_sym k k').
  destruct (String.eqb k' k); cbn [orb map fst]; [reflexivity|].
  rewrite IH. destruct (existsb (String.eqb k) (map fst acc)); reflexivity.
Qed.

Lemma fold_push_get (c : uuid) (rows : list CompanyTail.t) :
  forall acc,
    get (fold_left (fun acc tail => push acc (CompanyTail.company_id tail) tail) rows acc) c =
    match get acc c with
    | Some ts =>
        Some (ts ++ filter (fun t => String.eqb (CompanyTail.company_id t) c) rows)
    | None =>
        match filter (fun t => String.eqb (CompanyTail.company_id t) c) rows with
        | [] => None
        | ts => Some ts
        end
    end.
Proof.
  induction rows as [|r rows IH]; intros acc; cbn [fold_left filter].
  - destruct (get acc c); [now rewrite app_nil_r|reflexivity].
  - rewrite IH, get_push.
    destruct (String.eqb (CompanyTail.company_id r) c).
    + destruct (get acc c); [now rewrite <- app_assoc|reflexivity].
    + reflexivity.
Qed.

Lemma fold_push_keys (rows : list CompanyTail.t) :
  forall acc,
    NoDup (map fst acc) ->
    NoDup (map fst (fold_left (fun acc tail =>
                                 push acc (CompanyTail.company_id tail) tail) rows acc)).
Proof.
  induction rows as [|r rows IH]; intros acc Hnd; cbn [fold_left]; [exact Hnd|].
  apply IH. rewrite keys_push.
  destruct (existsb (String.eqb (CompanyTail.company_id r)) (map fst acc)) eqn:E;
    [exact Hnd|].
  apply NoDup_snoc; [exact Hnd|]. intros Hin.
  assert (Ht : existsb (String.eqb (CompanyTail.company_id r)) (map fst acc) = true).
  { apply existsb_exists. eexists. split; [exact Hin|apply String.eqb_refl]. }
  congruence.
Qed.

End GroupFacts.

(** X25: The grouping of the tail numbers is a partition of the rows by
    company: under the id of a company the table finds exactly the rows of
    that company, in the order they were fetched, and finds nothing for a
    company without rows; no id is listed twice. *)
Theorem tailsByCompany_groups (data : option (list CompanyTail.t)) (c : uuid) :
  CompanyTable.get (CompanyTable.tailsByCompany data) c =
  match filter (fun t => String.eqb (CompanyTail.company_id t) c)
               (match data with Some rows => rows | None => [] end) with
  | [] => None
  | ts => Some ts
  end /\
  NoDup (map fst (CompanyTable.tailsByCompany data)).
Proof.
  unfold CompanyTable.tailsByCompany. split.
  - rewrite fold_push_get. reflexivity.
  - apply fold_push_keys. constructor.
Qed.

(** ** The overlap constraint along the histories *)

(** X26: The trigger and the primary key keep the table of the flights in
    order: after every history of statements from a table in which the
    ids are distinct and no two active flights of one tail number share an
    instant, the ids are distinct and no two active flights of one tail
    number share an instant.  It holds of every history from the empty
    database. *)
Theorem flights_never_overlap (ss : list Overlap.Statement) (db : Sql.Db) :
  Overlap.flights_ok (Sql.flights db) ->
  NoDup (map Flight.id (Sql.flights (Overlap.history ss db))) /\
  Overlap.no_overlap (Sql.flights (Overlap.history ss db)) /\
  Overlap.no_overlap (Sql.flights (Overlap.history ss Overlap.empty)).
Proof.
  intros H. pose proof (history_ok ss db H) as [Hnd Hno].
  pose proof (history_ok ss Overlap.empty empty_ok) as [_ Hno'].
  repeat split; assumption.
Qed.

Lemma flights_never_overlap_witness :
  Overlap.no_overlap
    (Sql.flights
       (Overlap.history
          [Overlap.InsertFlight "f-2" 1000 Samples.second;
           Overlap.UpdateFlight "f-1" 2000 (Sql.set_status "cancelled");
           Overlap.InsertFlight "f-3" 3000 Samples.second]
          (Client.db Samples.world))).
Proof.
  apply (flights_never_overlap
           [Overlap.InsertFlight "f-2" 1000 Samples.second;
            Overlap.UpdateFlight "f-1" 2000 (Sql.set_status "cancelled");
            Overlap.InsertFlight "f-3" 3000 Samples.second]
           (Client.db Samples.world)).
  split.
  - repeat constructor. cbn. tauto.
  - intros f g [<-|[]] [<-|[]] Hne. exfalso. apply Hne. reflexivity.
Defined.

